(** * The pixel-classifier demo pipeline: polygons -> mask -> classifier -> mask -> polygons

    A shallow embedding of [full-pipeline-demo-poly-pixels-ml-poly.py].
    The script is glue around numpy, OpenCV, shapely, tifffile, matplotlib
    and scikit-learn.  What the script itself computes is defined here as
    Rocq functions; every call into one of those libraries whose result
    the script merely passes on is a field of a class standing for that
    library, so each theorem holds for every behaviour of the library (or
    for every behaviour meeting a stated contract).

    Conventions
    - the script is read as Python 3: [/] is true division, [print] is a
      function;
    - a Python [float] and a numpy [float64] is a [spec_float] with the
      binary64 parameters; arithmetic and comparisons are the IEEE ones of
      [SpecFloat];
    - a numpy array is its shape and its elements in row-major order;
    - a raised exception is the [Raise] result; nothing in the script
      catches one;
    - the [defaultdict] and the [set] of [mask_to_polygons] are a [gmap]
      and a [gset]. *)

From Stdlib Require Import ZArith List Bool Ascii String SpecFloat.
From stdpp Require Import gmap strings list.

Local Open Scope Z_scope.

(** ** Exceptions *)

Inductive exn : Type :=
| FileNotFoundError (path : string)
| ValueError
| TypeError
| AttributeError
| AssertionError
| IndexError
| ZeroDivisionError
| LibraryError (name : string).

Inductive result (A : Type) : Type :=
| Ok (a : A)
| Raise (e : exn).
Arguments Ok {A} a.
Arguments Raise {A} e.

Global Instance result_ret : MRet result := fun _ a => Ok a.
Global Instance result_bind : MBind result := fun _ _ k m =>
  match m with
  | Ok a => k a
  | Raise e => Raise e
  end.
Global Instance result_fmap : FMap result := fun _ _ f m =>
  match m with
  | Ok a => Ok (f a)
  | Raise e => Raise e
  end.

Definition raises {A} (m : result A) : Prop := exists e, m = Raise e.

(** [assert c] *)
Definition assert (c : bool) : result unit :=
  if c then Ok tt else Raise AssertionError.

(** ** binary64 *)

Definition float64 : Type := spec_float.

Definition f64_sub : float64 -> float64 -> float64 := SFsub 53 1024.
Definition f64_mul : float64 -> float64 -> float64 := SFmul 53 1024.
Definition f64_div : float64 -> float64 -> float64 := SFdiv 53 1024.

(** conversion of an integer, rounding to nearest even *)
Definition f64_of_Z (z : Z) : float64 := binary_normalize 53 1024 z 0 false.

(** [a < b], [a <= b], [a >= b], [a > b]: false as soon as one side is a NaN *)
Definition f64_lt (a b : float64) : bool := SFltb a b.
Definition f64_le (a b : float64) : bool := SFleb a b.
Definition f64_ge (a b : float64) : bool := SFleb b a.
Definition f64_gt (a b : float64) : bool := SFltb b a.

Definition f64_is_nan (a : float64) : bool :=
  match a with S754_nan => true | _ => false end.

Definition f64_is_finite (a : float64) : bool :=
  match a with S754_zero _ | S754_finite _ _ _ => true | _ => false end.

Definition f64_is_zero (a : float64) : bool :=
  match a with S754_zero _ => true | _ => false end.

(** a binary64 in the format: mantissa and exponent in range *)
Definition f64_valid (a : float64) : bool := valid_binary 53 1024 a.

(** The number a finite binary64 stands for, in units of 2^-1074: every
    finite binary64 is a whole number of them. *)
Definition f64_units (a : float64) : option Z :=
  match a with
  | S754_zero _ => Some 0
  | S754_finite s m e => Some ((if s then -1 else 1) * (Zpos m * 2 ^ (e + 1074)))
  | S754_infinity _ | S754_nan => None
  end.


(** ** numpy arrays: a shape and the elements in row-major (C) order *)

Record ndarray (A : Type) : Type := mk_ndarray {
  shape : list nat;
  data : list A
}.
Arguments mk_ndarray {A} shape data.
Arguments shape {A} _.
Arguments data {A} _.

Definition size_of (sh : list nat) : nat := fold_right Nat.mul 1%nat sh.

(** the invariant numpy maintains *)
Definition well_shaped {A} (a : ndarray A) : Prop :=
  length (data a) = size_of (shape a).

(** [np.zeros(shape, np.uint8)] *)
Definition np_zeros (sh : list nat) : ndarray Z :=
  mk_ndarray sh (replicate (size_of sh) 0).

(** an elementwise unary operation *)
Definition np_map {A B} (f : A -> B) (a : ndarray A) : ndarray B :=
  mk_ndarray (shape a) (map f (data a)).

(** an elementwise binary operation on two arrays of one shape (the script
    never combines arrays of different shapes, so broadcasting between
    arrays is not modelled) *)
Definition np_map2 {A B C} (f : A -> B -> C) (a : ndarray A) (b : ndarray B)
  : ndarray C :=
  mk_ndarray (shape a) (zip_with f (data a) (data b)).

(** [a.reshape(sh)]: the same elements under a new shape of the same size *)
Definition np_reshape {A} (a : ndarray A) (sh : list nat) : result (ndarray A) :=
  if Nat.eqb (size_of sh) (length (data a))
  then Ok (mk_ndarray sh (data a))
  else Raise ValueError.

(** [a[r, c]] of a two-dimensional array, for indices inside the array *)
Definition item2 {A} (a : ndarray A) (r c : nat) : option A :=
  match shape a with
  | [h; w] => if Nat.ltb r h && Nat.ltb c w then data a !! (r * w + c)%nat else None
  | _ => None
  end.

(** ** Thresholding the probability mask (lines 120-122) *)

(** the literal [0.3]: the binary64 nearest to 3/10 *)
Definition threshold : float64 := S754_finite false 5404319552844595 (-54).

(** [pred_mask >= threshold] *)
Definition pred_binary_mask_of (pred_mask : ndarray float64) : ndarray bool :=
  np_map (fun p => f64_ge p threshold) pred_mask.

(** ** Pixel-level Jaccard (lines 127-130) *)

(** a numpy [bool] seen as an integer *)
Definition Z_of_bool (b : bool) : Z := if b then 1 else 0.

(** [~x] on [uint8] *)
Definition uint8_invert (x : Z) : Z := Z.lnot x mod 2 ^ 8.

(** [p & t], [bool] with [uint8]: the [bool] is promoted to [uint8] *)
Definition bool_and_uint8 (p : bool) (t : Z) : Z := Z.land (Z_of_bool p) t.

(** [a.sum()] of a [uint8] array: accumulated in [uint64] *)
Definition uint64_add (x y : Z) : Z := (x + y) mod 2 ^ 64.
Definition np_sum (a : ndarray Z) : Z := fold_left uint64_add (data a) 0.

Definition tp_of (pred_binary_mask : ndarray bool) (train_mask : ndarray Z) : Z :=
  np_sum (np_map2 bool_and_uint8 pred_binary_mask train_mask).
Definition fp_of (pred_binary_mask : ndarray bool) (train_mask : ndarray Z) : Z :=
  np_sum (np_map2 bool_and_uint8 pred_binary_mask (np_map uint8_invert train_mask)).
Definition fn_of (pred_binary_mask : ndarray bool) (train_mask : ndarray Z) : Z :=
  np_sum (np_map2 bool_and_uint8 (np_map negb pred_binary_mask) train_mask).

(** [tp / (tp + fp + fn)]: true division of two [uint64] scalars *)
Definition pixel_jaccard (pred_binary_mask : ndarray bool) (train_mask : ndarray Z)
  : float64 :=
  let tp := tp_of pred_binary_mask train_mask in
  let fp := fp_of pred_binary_mask train_mask in
  let fn := fn_of pred_binary_mask train_mask in
  f64_div (f64_of_Z tp) (f64_of_Z (uint64_add (uint64_add tp fp) fn)).

(** Intersection over union, as the glossary has it: the number of pixels
    in both masks over the number of pixels in at least one. *)
Definition is_set (t : Z) : bool := Z.eqb t 1.
Definition count_pixels (f : bool -> bool -> bool) (p : list bool) (t : list Z) : Z :=
  Z.of_nat (length (filter (fun b : bool => b = true) (zip_with (fun x y => f x (is_set y)) p t))).
Definition intersection_size (p : ndarray bool) (t : ndarray Z) : Z :=
  count_pixels andb (data p) (data t).
Definition union_size (p : ndarray bool) (t : ndarray Z) : Z :=
  count_pixels orb (data p) (data t).
Definition intersection_over_union (p : ndarray bool) (t : ndarray Z) : float64 :=
  f64_div (f64_of_Z (intersection_size p t)) (f64_of_Z (union_size p t)).

(** a binary mask: every entry is 0 or 1 *)
Definition binary_mask (t : ndarray Z) : Prop :=
  Forall (fun v => v = 0 \/ v = 1) (data t).

(** ** Shapely geometries

    A ring is its coordinate tuples.  Geometries are told apart as far as
    the script can tell them apart: [mask_to_polygons] looks at [.type],
    [mask_for_polygons] at the truth value, iterates the geometry and
    reads [exterior] and [interiors] of what the iteration yields. *)

Definition ring : Type := list (float64 * float64).

Record polygon : Type := mk_polygon {
  exterior : ring;
  interiors : list ring
}.

(** the types without a polygon inside *)
Inductive other_type : Type :=
| Point | LineString | LinearRing | MultiPoint | MultiLineString.

#[warnings="-register-all"]
Inductive geometry : Type :=
| Polygon (p : polygon)
| MultiPolygon (ps : list polygon)
| GeometryCollection (gs : list geometry)
| OtherGeometry (t : other_type) (empty : bool).

(** [g.is_empty]; the truth value of a geometry is [not g.is_empty] *)
Definition polygon_is_empty (p : polygon) : bool :=
  match exterior p with [] => true | _ => false end.
Fixpoint is_empty (g : geometry) : bool :=
  match g with
  | Polygon p => polygon_is_empty p
  | MultiPolygon ps => forallb polygon_is_empty ps
  | GeometryCollection gs => forallb is_empty gs
  | OtherGeometry _ e => e
  end.

(** ** The libraries the script calls

    Each field is one library call the script makes; what the call
    computes is the library's business.  A call returns a [result] where
    the library raises on arguments the script can pass it: a string that
    is no number or no WKT, a file that is no TIFF, a ring of fewer than
    three points, an empty array, training data of one class, geometries
    GEOS cannot overlay.  The other calls are taken to return. *)

(** OpenCV.  A contour is an [int32] array of shape (n, 1, 2).  The
    hierarchy of [n] contours is a three-dimensional [int32] array of shape
    (1, n, 4) whose rows are (next, previous, first child, parent); being
    three-dimensional whatever happens, it is kept as the list of its
    planes, each the list of its rows. *)
Inductive retrieval_mode : Type := RETR_EXTERNAL | RETR_LIST | RETR_CCOMP | RETR_TREE.
Inductive approximation : Type :=
| CHAIN_APPROX_NONE | CHAIN_APPROX_SIMPLE | CHAIN_APPROX_TC89_L1 | CHAIN_APPROX_TC89_KCOS.

Class Cv2 : Type := {
  findContours : ndarray Z -> retrieval_mode -> approximation ->
                 ndarray Z * list (ndarray Z) * list (list (list Z));
  approxPolyDP : ndarray Z -> float64 -> bool -> ndarray Z;
  contourArea : ndarray Z -> float64;
  (** [fillPoly(img, pts, color)] paints [img] in place; the painted image
      is the result here *)
  fillPoly : ndarray Z -> list (ndarray Z) -> Z -> ndarray Z
}.

Class Shapely : Type := {
  (** the ring [Polygon(shell, holes)] builds from an (n, 2) array, which
      has to have three points or more *)
  linear_ring : ndarray Z -> result ring;
  is_valid : geometry -> bool;
  buffer : geometry -> float64 -> geometry;
  wkt_loads : string -> result geometry;
  wkt_dumps : geometry -> string;
  (** [shapely.affinity.scale(g, xfact=..., yfact=..., origin=(0, 0, 0))] *)
  affinity_scale : geometry -> float64 -> float64 -> geometry;
  (** the overlays fail on geometries GEOS cannot handle *)
  intersection : geometry -> geometry -> result geometry;
  union : geometry -> geometry -> result geometry;
  area : geometry -> float64
}.

Class Numpy : Type := {
  (** [x.round().astype(np.int32)] of one [float64] *)
  round_int32 : float64 -> Z;
  (** [np.percentile(a, q, axis=0)] of a two-dimensional array *)
  percentile : ndarray float64 -> Z -> result (ndarray float64)
}.

(** ** [mask_for_polygons] (lines 56-66) *)

(** [int_coords = lambda x: np.array(x).round().astype(np.int32)] *)
Definition int_coords `{Numpy} (x : ring) : ndarray Z :=
  mk_ndarray (match x with [] => [0%nat] | _ => [length x; 2%nat] end)
             (flat_map (fun xy => [round_int32 (fst xy); round_int32 (snd xy)]) x).

(** [poly.exterior] and [poly.interiors] are attributes of a Polygon *)
Definition as_polygon (g : geometry) : result polygon :=
  match g with
  | Polygon p => Ok p
  | _ => Raise AttributeError
  end.

(** [for poly in polygons], with the attributes read from each [poly]: a
    MultiPolygon yields its polygons and a collection its parts, which
    have the attributes when they are Polygons; a single geometry is not
    iterable. *)
Definition iter_polygons (polygons : geometry) : result (list polygon) :=
  match polygons with
  | MultiPolygon ps => Ok ps
  | GeometryCollection gs => mapM as_polygon gs
  | OtherGeometry (MultiPoint | MultiLineString) _ => Raise AttributeError
  | Polygon _ | OtherGeometry _ _ => Raise TypeError
  end.

Definition mask_for_polygons `{Cv2} `{Numpy}
  (im_size : list nat) (polygons : geometry) : result (ndarray Z) :=
  let img_mask := np_zeros im_size in
  if is_empty polygons then Ok img_mask
  else
    ps ← iter_polygons polygons;
    let exteriors := map (fun poly => int_coords (exterior poly)) ps in
    let interiors := flat_map (fun poly => map int_coords (interiors poly)) ps in
    let img_mask := fillPoly img_mask exteriors 1 in
    let img_mask := fillPoly img_mask interiors 0 in
    Ok img_mask.

(** ** [scale_percentile] (lines 73-82) *)

(** [w, h, d = matrix.shape] *)
Definition unpack3 {A} (l : list A) : result (A * A * A) :=
  match l with
  | [w; h; d] => Ok (w, h, d)
  | _ => Raise ValueError
  end.

(** [m op v[None, :]]: the vector is applied to every row of [m] *)
Definition np_rowwise (f : float64 -> float64 -> float64)
  (m v : ndarray float64) : result (ndarray float64) :=
  match shape m, shape v with
  | [n; d], [d'] =>
      if Nat.eqb d d' && Nat.eqb (length (data v)) d
      then Ok (mk_ndarray [n; d]
                 (imap (fun i x => f x (nth (i mod d)%nat (data v) S754_nan)) (data m)))
      else Raise ValueError
  | _, _ => Raise ValueError
  end.

(** one element of [a.clip(lo, hi)] *)
Definition f64_clip (lo hi x : float64) : float64 :=
  if f64_lt x lo then lo else if f64_gt x hi then hi else x.

Section ScalePercentile.
Context `{Numpy} {A : Type}.
(** [astype(np.float64)] of one element *)
Variable astype_float64 : A -> float64.

Definition scale_percentile (matrix : ndarray A) : result (ndarray float64) :=
  '(w, h, d) ← unpack3 (shape matrix);
  matrix ← np_reshape matrix [(w * h)%nat; d];
  let matrix := np_map astype_float64 matrix in
  mins ← percentile matrix 1;
  p99 ← percentile matrix 99;
  let maxs := np_map2 f64_sub p99 mins in
  matrix ← np_rowwise f64_sub matrix mins;
  matrix ← np_rowwise f64_div matrix maxs;
  matrix ← np_reshape matrix [w; h; d];
  Ok (np_map (f64_clip (f64_of_Z 0) (f64_of_Z 1)) matrix).

End ScalePercentile.

(** ** [mask_to_polygons] (lines 134-171) *)

(** [a.shape[i]] *)
Definition shape_at {A} (a : ndarray A) (i : nat) : result nat :=
  match shape a !! i with
  | Some n => Ok n
  | None => Raise IndexError
  end.

(** [(_, _, _, parent_idx) = row] *)
Definition unpack_parent (row : list Z) : result Z :=
  match row with
  | [_; _; _; parent_idx] => Ok parent_idx
  | _ => Raise ValueError
  end.

(** [c[:, 0, :]]: three indices need three dimensions, and index 0 needs
    a second axis that is not empty *)
Definition slice_axis1_first {A} (c : ndarray A) : result (ndarray A) :=
  match shape c with
  | n :: k :: d :: sh =>
      if Nat.eqb k 0 then Raise IndexError
      else
        let sz := size_of (d :: sh) in
        Ok (mk_ndarray (n :: d :: sh)
              (flat_map (fun i => take sz (drop (i * (k * sz)) (data c))) (seq 0 n)))
  | _ => Raise IndexError
  end.

(** [approx_contours[idx]] *)
Definition list_item {A} (l : list A) (idx : nat) : result A :=
  match l !! idx with
  | Some x => Ok x
  | None => Raise IndexError
  end.

(** [cnt_children[parent_idx].append(c)] on a [defaultdict(list)] *)
Definition defaultdict_append (cnt_children : gmap Z (list (ndarray Z)))
  (parent_idx : Z) (c : ndarray Z) : gmap Z (list (ndarray Z)) :=
  <[parent_idx := default [] (cnt_children !! parent_idx) ++ [c]]> cnt_children.

(** The first loop (lines 149-152), from row [idx] on. *)
Fixpoint associate_children (approx_contours : list (ndarray Z))
  (rows : list (list Z)) (idx : nat)
  (cnt_children : gmap Z (list (ndarray Z))) (child_contours : gset nat)
  : result (gmap Z (list (ndarray Z)) * gset nat) :=
  match rows with
  | [] => Ok (cnt_children, child_contours)
  | row :: rows =>
      parent_idx ← unpack_parent row;
      if negb (Z.eqb parent_idx (-1)) then
        c ← list_item approx_contours idx;
        associate_children approx_contours rows (S idx)
          (defaultdict_append cnt_children parent_idx c)
          ({[idx]} ∪ child_contours)
      else
        associate_children approx_contours rows (S idx) cnt_children child_contours
  end.

Section MaskToPolygons.
Context `{Cv2} `{Shapely}.

Fixpoint linear_rings (holes : list (ndarray Z)) : result (list ring) :=
  match holes with
  | [] => Ok []
  | h :: holes =>
      r ← linear_ring h;
      rs ← linear_rings holes;
      Ok (r :: rs)
  end.

(** [Polygon(shell=..., holes=[...])]: the shell first, then the holes *)
Definition Polygon_of (shell : ndarray Z) (holes : list (ndarray Z)) : result polygon :=
  e ← linear_ring shell;
  hs ← linear_rings holes;
  Ok (mk_polygon e hs).

(** [[c[:, 0, :] for c in children if cv2.contourArea(c) >= min_area]] *)
Fixpoint holes_of (min_area : float64) (children : list (ndarray Z))
  : result (list (ndarray Z)) :=
  match children with
  | [] => Ok []
  | c :: children =>
      if f64_ge (contourArea c) min_area then
        h ← slice_axis1_first c;
        hs ← holes_of min_area children;
        Ok (h :: hs)
      else holes_of min_area children
  end.

(** The second loop (lines 155-162), from contour [idx] on; the polygons
    come out in the order they are appended. *)
Fixpoint create_polygons (min_area : float64)
  (cnt_children : gmap Z (list (ndarray Z))) (child_contours : gset nat)
  (contours : list (ndarray Z)) (idx : nat) : result (list polygon) :=
  match contours with
  | [] => Ok []
  | cnt :: contours =>
      if bool_decide (idx ∉ child_contours) && f64_ge (contourArea cnt) min_area then
        k ← shape_at cnt 1;
        _ ← assert (Nat.eqb k 1);
        shell ← slice_axis1_first cnt;
        holes ← holes_of min_area (default [] (cnt_children !! Z.of_nat idx));
        poly ← Polygon_of shell holes;
        rest ← create_polygons min_area cnt_children child_contours contours (S idx);
        Ok (poly :: rest)
      else create_polygons min_area cnt_children child_contours contours (S idx)
  end.

(** lines 144-162: both loops *)
Definition all_polygons_of (min_area : float64)
  (approx_contours : list (ndarray Z)) (hierarchy : list (list (list Z)))
  : result (list polygon) :=
  _ ← assert (Nat.eqb (length hierarchy) 1);
  rows ← list_item hierarchy 0;
  '(cnt_children, child_contours) ← associate_children approx_contours rows 0 ∅ ∅;
  create_polygons min_area cnt_children child_contours approx_contours 0.

(** [((mask == 1) * 255).astype(np.uint8)] of one element of a [bool] mask *)
Definition mask_to_uint8 (b : bool) : Z :=
  (Z_of_bool (Z.eqb (Z_of_bool b) 1) * 255) mod 2 ^ 8.

(** lines 163-171: the validity fix; [.type] is read from what [buffer]
    has made, where it names the class, so [all_polygons.type == 'Polygon']
    holds of the Polygons; and [MultiPolygon([p])] is the MultiPolygon of
    [p] *)
Definition fix_validity (all_polygons : geometry) : geometry :=
  if negb (is_valid all_polygons) then
    let all_polygons := buffer all_polygons (f64_of_Z 0) in
    match all_polygons with
    | Polygon p => MultiPolygon [p]
    | _ => all_polygons
    end
  else all_polygons.

Definition mask_to_polygons (mask : ndarray bool) (epsilon min_area : float64)
  : result geometry :=
  let '(image, contours, hierarchy) :=
    findContours (np_map mask_to_uint8 mask) RETR_CCOMP CHAIN_APPROX_TC89_KCOS in
  let approx_contours := map (fun cnt => approxPolyDP cnt epsilon true) contours in
  match contours with
  | [] => Ok (MultiPolygon [])
  | _ =>
      all_polygons ← all_polygons_of min_area approx_contours hierarchy;
      Ok (fix_validity (MultiPolygon all_polygons))
  end.

End MaskToPolygons.

(** ** Notions the properties are stated with *)

(** the sum of a list of integers, without wrap-around *)
Definition sumZ (l : list Z) : Z := fold_right Z.add 0 l.

(** What [cv2.fillPoly] promises: the image keeps its shape, and every
    pixel either keeps its value or takes the colour. *)
Definition fillPoly_paints (cv : Cv2) : Prop :=
  forall (img : ndarray Z) (pts : list (ndarray Z)) (color : Z),
    shape (fillPoly img pts color) = shape img /\
    Forall2 (fun old new => new = old \/ new = color)
            (data img) (data (fillPoly img pts color)).

(** [x] is in the closed interval from 0 to 1 *)
Definition in_unit_interval (x : float64) : Prop :=
  f64_le (f64_of_Z 0) x = true /\ f64_le x (f64_of_Z 1) = true.

(** What [cv2.findContours] and [cv2.approxPolyDP] promise: a contour is
    an array of shape (n, 1, 2), and the hierarchy of [n] contours is one
    plane of [n] rows of four entries. *)
Definition contour_shaped (c : ndarray Z) : Prop :=
  exists n : nat, shape c = [n; 1%nat; 2%nat] /\ well_shaped c.

Definition hierarchy_shaped (hierarchy : list (list (list Z)))
  (rows : list (list Z)) (n : nat) : Prop :=
  hierarchy = [rows] /\ length rows = n /\ Forall (fun row => length row = 4%nat) rows.

(** the parent of contour [idx]: the last entry of its hierarchy row *)
Definition parent_of (rows : list (list Z)) (idx : nat) : option Z :=
  row ← rows !! idx; row !! 3%nat.

(** a contour with a parent: [parent_idx != -1] *)
Definition has_parent (rows : list (list Z)) (idx : nat) : bool :=
  match parent_of rows idx with
  | Some parent_idx => negb (Z.eqb parent_idx (-1))
  | None => false
  end.

(** the contours whose parent is [parent_idx], among the first [k], in
    the order of their indices *)
Definition children_upto (approx_contours : list (ndarray Z)) (rows : list (list Z))
  (k : nat) (parent_idx : Z) : list (ndarray Z) :=
  omap (fun j => if decide (parent_of rows j = Some parent_idx)
                 then approx_contours !! j else None)
       (seq 0 k).
Definition children_of (approx_contours : list (ndarray Z)) (rows : list (list Z))
  (parent_idx : Z) : list (ndarray Z) :=
  children_upto approx_contours rows (length rows) parent_idx.

(** an (n, 1, 2) array without its middle axis: the same points as an
    (n, 2) array *)
Definition drop_axis1 (c : ndarray Z) : ndarray Z :=
  mk_ndarray (match shape c with n :: _ :: sh => n :: sh | sh => sh end) (data c).

(** The state of the first loop after the rows before [k]. *)
Definition children_recorded (approx : list (ndarray Z)) (rows : list (list Z))
  (k : nat) (cnt_children : gmap Z (list (ndarray Z))) (child_contours : gset nat)
  : Prop :=
  (forall idx, idx ∈ child_contours <-> (idx < k)%nat /\ has_parent rows idx = true) /\
  (forall p, p <> -1 -> default [] (cnt_children !! p) = children_upto approx rows k p).

Section ShellsSpec.
Context `{Cv2} `{Shapely}.

(** [cv2.contourArea(c) >= min_area] *)
Definition large_enough (min_area : float64) (c : ndarray Z) : bool :=
  f64_ge (contourArea c) min_area.

(** What the area filter is there for: shapely builds a ring from every
    contour that passes it (a contour that encloses an area has three
    points). *)
Definition accepted (c : ndarray Z) : Prop :=
  exists r, linear_ring (drop_axis1 c) = Ok r.
Definition rings_accepted (min_area : float64) (contours : list (ndarray Z)) : Prop :=
  Forall (fun c => large_enough min_area c = true -> accepted c) contours.

(** Why it does: fewer than three points enclose no area, and three
    points make a ring. *)
Definition area_needs_three_points : Prop :=
  forall (c : ndarray Z) (n : nat),
    shape c = [n; 1%nat; 2%nat] -> (n < 3)%nat -> contourArea c = S754_zero false.
Definition three_points_make_a_ring : Prop :=
  forall (a : ndarray Z) (n : nat),
    shape a = [n; 2%nat] -> (3 <= n)%nat -> exists r, linear_ring a = Ok r.

(** the ring of a contour, where shapely builds one *)
Definition ring_of (c : ndarray Z) : ring :=
  match linear_ring (drop_axis1 c) with
  | Ok r => r
  | Raise _ => []
  end.

(** The polygon a contour gives rise to, in the words of the claim: none
    if the contour has a parent or is smaller than [min_area]; otherwise
    the contour is the shell, and the holes are its children that are not
    smaller than [min_area]. *)
Definition polygon_of_contour (min_area : float64)
  (approx_contours : list (ndarray Z)) (rows : list (list Z))
  (idx : nat) (cnt : ndarray Z) : option polygon :=
  if negb (has_parent rows idx) && large_enough min_area cnt
  then Some (mk_polygon (ring_of cnt)
               (map ring_of
                  (List.filter (large_enough min_area)
                     (children_of approx_contours rows (Z.of_nat idx)))))
  else None.

Definition shells_from (min_area : float64)
  (approx_contours : list (ndarray Z)) (rows : list (list Z))
  (idx : nat) (contours : list (ndarray Z)) : list polygon :=
  omap (fun ic => polygon_of_contour min_area approx_contours rows (fst ic) (snd ic))
       (zip (seq idx (length contours)) contours).

Definition shells_spec (min_area : float64)
  (approx_contours : list (ndarray Z)) (rows : list (list Z)) : list polygon :=
  shells_from min_area approx_contours rows 0 approx_contours.

End ShellsSpec.

(** a Polygon or a MultiPolygon *)
Definition polygonal (g : geometry) : Prop :=
  match g with
  | Polygon _ | MultiPolygon _ => True
  | GeometryCollection _ | OtherGeometry _ _ => False
  end.

(** What [buffer] promises: the buffer of a geometry is made of polygons. *)
Definition buffer_polygonal (sh : Shapely) : Prop :=
  forall (g : geometry) (distance : float64), polygonal (buffer g distance).

Definition is_MultiPolygon (g : geometry) : Prop := exists ps, g = MultiPolygon ps.

(** ** The process the script runs in

    A Python process can open files for reading and for writing, print to
    standard output and to standard error, show figures, and look at its
    command line and its environment.  A world is the file system, the
    command line and the environment the process was started with, and
    the trace of what the process has done to the outside so far.  Of all
    this the script calls [open] with the default mode, [print] with the
    default stream, [tiff.imread], [tiff.imshow] and [plt.show]. *)

Inductive pyval : Type :=
| PyStr (s : string)
| PyFloat (x : float64)
(** [template.format(n)] *)
| PyFormat (template : string) (n : Z).

Inductive image_data : Type :=
| IntImage (a : ndarray Z)
| FloatImage (a : ndarray float64).

Inductive event : Type :=
(** a file was opened for reading, by [open(path)] or [tiff.imread(path)] *)
| Read (path : string)
(** [print(...)] *)
| Print (args : list pyval)
(** [tiff.imshow(...)] *)
| Imshow (img : image_data)
(** [plt.show()] *)
| PltShow
(** a file was created, or its content replaced, by [open(path, 'w')] *)
| Write (path : string)
(** [print(..., file=sys.stderr)] *)
| PrintErr (args : list pyval).

Record world : Type := mk_world {
  files : gmap string string;
  argv : list string;
  environ : gmap string string;
  trace : list event
}.

Definition io (A : Type) : Type := world -> world * result A.

Global Instance io_ret : MRet io := fun _ a w => (w, Ok a).
Global Instance io_bind : MBind io := fun _ _ k m w =>
  match m w with
  | (w', Ok a) => k a w'
  | (w', Raise e) => (w', Raise e)
  end.

(** a computation that touches no channel *)
Definition lift {A} (m : result A) : io A := fun w => (w, m).

Definition log (e : event) : io unit := fun w =>
  (mk_world (files w) (argv w) (environ w) (trace w ++ [e]), Ok tt).

(** [open(path)]: for reading, the default mode; the content of the file *)
Definition open_ (path : string) : io string := fun w =>
  match files w !! path with
  | Some content =>
      (mk_world (files w) (argv w) (environ w) (trace w ++ [Read path]), Ok content)
  | None => (w, Raise (FileNotFoundError path))
  end.

Definition print (args : list pyval) : io unit := log (Print args).
Definition plt_show : io unit := log PltShow.

(** What else a Python program can do, and the script does not. *)

(** [open(path, 'w').write(content)]: the file is created, or its content
    replaced *)
Definition write_file (path content : string) : io unit := fun w =>
  (mk_world (<[path := content]> (files w)) (argv w) (environ w)
     (trace w ++ [Write path]), Ok tt).

(** [print(..., file=sys.stderr)] *)
Definition print_err (args : list pyval) : io unit := log (PrintErr args).

(** [sys.argv] *)
Definition sys_argv : io (list string) := fun w => (w, Ok (argv w)).

(** [os.environ.get(name)] *)
Definition os_environ_get (name : string) : io (option string) := fun w =>
  (w, Ok (environ w !! name)).

(** ** The rest of the libraries *)

Definition float32 : Type := spec_float.

(** [astype(np.float32)] of an integer *)
Definition f32_of_Z (z : Z) : float32 := binary_normalize 24 128 z 0 false.

Class Python : Type := {
  sys_maxsize : Z;
  (** [csv.field_size_limit(n)]: the limit that was in force *)
  csv_field_size_limit : Z -> result Z;
  (** the rows [csv.reader] yields for the content of a file *)
  csv_reader : string -> list (list string);
  (** [float(s)] *)
  float_of_str : string -> result float64
}.

Class Tifffile : Type := {
  (** the array [tiff.imread] decodes from the content of a file *)
  tiff_decode : string -> result (ndarray Z);
  (** whether [tiff.imshow] accepts the data *)
  tiff_imshow : image_data -> result unit
}.

Class Sklearn : Type := {
  fitted : Type;
  (** [make_pipeline(StandardScaler(), SGDClassifier(loss='log')).fit(xs, ys)] *)
  pipeline_fit : ndarray float32 -> ndarray Z -> result fitted;
  predict_proba : fitted -> ndarray float32 -> result (ndarray float64);
  average_precision_score : ndarray Z -> ndarray float64 -> result float64
}.

(** ** numpy operations the script spells out *)

(** [a.transpose([1, 2, 0])] *)
Definition np_transpose_120 (a : ndarray Z) : result (ndarray Z) :=
  match shape a with
  | [c; h; w] =>
      Ok (mk_ndarray [h; w; c]
            (flat_map (fun ij => map (fun k => nth (k * (h * w) + ij)%nat (data a) 0) (seq 0 c))
                      (seq 0 (h * w))))
  | _ => Raise ValueError
  end.

(** [a[r0:r1, c0:c1]]: a slice is cut to the extent of the axis *)
Definition np_slice2 {A} (a : ndarray A) (r0 r1 c0 c1 : nat) : result (ndarray A) :=
  match shape a with
  | h :: w :: sh =>
      let sz := size_of sh in
      let r0 := Nat.min r0 h in
      let r1 := Nat.min r1 h in
      let c0 := Nat.min c0 w in
      let c1 := Nat.min c1 w in
      Ok (mk_ndarray ((r1 - r0)%nat :: (c1 - c0)%nat :: sh)
            (flat_map (fun r => flat_map (fun c => take sz (drop ((r * w + c) * sz) (data a)))
                                 (seq c0 (c1 - c0)))
                      (seq r0 (r1 - r0))))
  | _ => Raise IndexError
  end.

(** [np.stack([m, m, m])] *)
Definition np_stack3 {A} (m : ndarray A) : ndarray A :=
  mk_ndarray (3%nat :: shape m) (data m ++ data m ++ data m).

(** [a.reshape(-1, 3)] *)
Definition np_reshape_rows3 {A} (a : ndarray A) : result (ndarray A) :=
  if Nat.eqb (length (data a) mod 3) 0
  then Ok (mk_ndarray [(length (data a) / 3)%nat; 3%nat] (data a))
  else Raise ValueError.

(** [a.reshape(-1)] *)
Definition np_ravel {A} (a : ndarray A) : ndarray A :=
  mk_ndarray [length (data a)] (data a).

(** [a[:, j]] of a two-dimensional array *)
Definition np_column {A} (a : ndarray A) (j : nat) : result (ndarray A) :=
  match shape a with
  | [n; c] =>
      if Nat.ltb j c
      then Ok (mk_ndarray [n] (omap (fun i => data a !! (i * c + j)%nat) (seq 0 n)))
      else Raise IndexError
  | _ => Raise IndexError
  end.

(** [255 * a], by the type of the elements of [a] *)
Definition times_255_uint8 (a : ndarray Z) : image_data :=
  IntImage (np_map (fun v => (255 * v) mod 2 ^ 8) a).
Definition times_255_bool (a : ndarray bool) : image_data :=
  IntImage (np_map (fun b => 255 * Z_of_bool b) a).
Definition times_255_float64 (a : ndarray float64) : image_data :=
  FloatImage (np_map (f64_mul (f64_of_Z 255)) a).

(** [a / b] of two Python floats *)
Definition py_truediv (a b : float64) : result float64 :=
  if f64_is_zero b then Raise ZeroDivisionError else Ok (f64_div a b).

(** ** The script, statement by statement *)

Definition IM_ID : string := "6120_2_2".
Definition POLY_TYPE : string := "1".

Definition grid_sizes_path : string := "../data/grid_sizes.csv".
Definition train_wkt_path : string := "../data/train_wkt_v4.csv".
(** ['../data/three_band/{}.tif'.format(IM_ID)] *)
Definition image_path : string := "../data/three_band/" +:+ IM_ID +:+ ".tif".

Section Script.
Context `{Python} `{Tifffile} `{Numpy} `{Cv2} `{Shapely} `{Sklearn}.

(** lines 23-27; [None] stands for [x_max = y_min = None] *)
Fixpoint load_grid_size (rows : list (list string))
  : result (option (float64 * float64)) :=
  match rows with
  | [] => Ok None
  | row :: rows =>
      match row with
      | [_im_id; _x; _y] =>
          if String.eqb _im_id IM_ID then
            x_max ← float_of_str _x;
            y_min ← float_of_str _y;
            Ok (Some (x_max, y_min))
          else load_grid_size rows
      | _ => Raise ValueError
      end
  end.

(** lines 30-34 *)
Fixpoint load_train_polygons (rows : list (list string)) : result (option geometry) :=
  match rows with
  | [] => Ok None
  | row :: rows =>
      match row with
      | [_im_id; _poly_type; _poly] =>
          if String.eqb _im_id IM_ID && String.eqb _poly_type POLY_TYPE then
            train_polygons ← wkt_loads _poly;
            Ok (Some train_polygons)
          else load_train_polygons rows
      | _ => Raise ValueError
      end
  end.

(** [tiff.imread(path)] *)
Definition tiff_imread (path : string) : io (ndarray Z) :=
  content ← open_ path;
  lift (tiff_decode content).

(** lines 42-46.  [w / (w + 1)] divides two integers; both are far below
    2^53, where that is the division of their conversions. *)
Definition get_scalers (im_size : list nat) (grid : option (float64 * float64))
  : result (float64 * float64) :=
  match im_size with
  | [h; w] =>
      let w_ := f64_mul (f64_of_Z (Z.of_nat w))
                  (f64_div (f64_of_Z (Z.of_nat w)) (f64_of_Z (Z.of_nat w + 1))) in
      let h_ := f64_mul (f64_of_Z (Z.of_nat h))
                  (f64_div (f64_of_Z (Z.of_nat h)) (f64_of_Z (Z.of_nat h + 1))) in
      match grid with
      | Some (x_max, y_min) =>
          x_scaler ← py_truediv w_ x_max;
          y_scaler ← py_truediv h_ y_min;
          Ok (x_scaler, y_scaler)
      | None => Raise TypeError
      end
  | _ => Raise ValueError
  end.

(** a call on [train_polygons]: [None] has no attributes *)
Definition not_None {A} (x : option A) : result A :=
  match x with
  | Some a => Ok a
  | None => Raise AttributeError
  end.

(** [a[2900:3200, 2000:2300]] *)
Definition window {A} (a : ndarray A) : result (ndarray A) :=
  np_slice2 a 2900 3200 2000 2300.

Definition imshow (img : image_data) : io unit :=
  _ ← lift (tiff_imshow img);
  log (Imshow img).

(** lines 91-94 *)
Definition show_mask {A} (times_255 : ndarray A -> image_data) (m : ndarray A)
  : io unit :=
  _ ← imshow (times_255 (np_stack3 m));
  plt_show.

Definition script : io unit :=
  _ ← lift (csv_field_size_limit sys_maxsize);
  f ← open_ grid_sizes_path;
  grid ← lift (load_grid_size (csv_reader f));
  f ← open_ train_wkt_path;
  train_polygons ← lift (load_train_polygons (csv_reader f));
  im ← tiff_imread image_path;
  im_rgb ← lift (np_transpose_120 im);
  let im_size := take 2 (shape im_rgb) in
  scalers ← lift (get_scalers im_size grid);
  let x_scaler := fst scalers in
  let y_scaler := snd scalers in
  train_polygons ← lift (not_None train_polygons);
  let train_polygons_scaled := affinity_scale train_polygons x_scaler y_scaler in
  train_mask ← lift (mask_for_polygons im_size train_polygons_scaled);
  crop ← lift (window im_rgb);
  scaled ← lift (scale_percentile f64_of_Z crop);
  _ ← imshow (times_255_float64 scaled);
  _ ← plt_show;
  crop ← lift (window train_mask);
  _ ← show_mask times_255_uint8 crop;
  xs ← lift (np_reshape_rows3 im_rgb);
  let xs := np_map f32_of_Z xs in
  let ys := np_ravel train_mask in
  _ ← print [PyStr "training..."];
  pipeline ← lift (pipeline_fit xs ys);
  proba ← lift (predict_proba pipeline xs);
  pred_ys ← lift (np_column proba 1);
  score ← lift (average_precision_score ys pred_ys);
  _ ← print [PyStr "average precision"; PyFloat score];
  pred_mask ← lift (np_reshape pred_ys (shape train_mask));
  crop ← lift (window pred_mask);
  _ ← show_mask times_255_float64 crop;
  let pred_binary_mask := pred_binary_mask_of pred_mask in
  crop ← lift (window pred_binary_mask);
  _ ← show_mask times_255_bool crop;
  _ ← print [PyStr "Pixel jaccard"; PyFloat (pixel_jaccard pred_binary_mask train_mask)];
  pred_polygons ← lift (mask_to_polygons pred_binary_mask (f64_of_Z 10) (f64_of_Z 10));
  pred_poly_mask ← lift (mask_for_polygons im_size pred_polygons);
  crop ← lift (window pred_poly_mask);
  _ ← show_mask times_255_uint8 crop;
  xfact ← lift (py_truediv (f64_of_Z 1) x_scaler);
  yfact ← lift (py_truediv (f64_of_Z 1) y_scaler);
  let scaled_pred_polygons := affinity_scale pred_polygons xfact yfact in
  let dumped_prediction := wkt_dumps scaled_pred_polygons in
  _ ← print [PyFormat "Prediction size: {:,} bytes"
               (Z.of_nat (String.length dumped_prediction))];
  final_polygons ← lift (wkt_loads dumped_prediction);
  inter ← lift (intersection final_polygons train_polygons);
  un ← lift (union final_polygons train_polygons);
  jaccard ← lift (py_truediv (area inter) (area un));
  print [PyStr "Final jaccard"; PyFloat jaccard].

End Script.

(** ** The script as a pipeline of stages

    The stages the specification names, each a computation of the outputs
    of stages before it: load the image and the ground truth, rasterize
    the polygons into the training mask, train, predict, threshold,
    vectorize, score. *)

Section Pipeline.
Context `{Python} `{Tifffile} `{Numpy} `{Cv2} `{Shapely} `{Sklearn}.

Record loaded : Type := mk_loaded {
  l_grid : option (float64 * float64);
  l_train_polygons : option geometry;
  l_im_rgb : ndarray Z
}.

Record rasterized : Type := mk_rasterized {
  r_im_size : list nat;
  r_scalers : float64 * float64;
  r_train_polygons : geometry;
  r_train_mask : ndarray Z
}.

Record trained : Type := mk_trained {
  t_xs : ndarray float32;
  t_ys : ndarray Z;
  t_pipeline : fitted
}.

Definition stage_load : io loaded :=
  _ ← lift (csv_field_size_limit sys_maxsize);
  f ← open_ grid_sizes_path;
  grid ← lift (load_grid_size (csv_reader f));
  f ← open_ train_wkt_path;
  train_polygons ← lift (load_train_polygons (csv_reader f));
  im ← tiff_imread image_path;
  im_rgb ← lift (np_transpose_120 im);
  mret (mk_loaded grid train_polygons im_rgb).

Definition stage_rasterize (l : loaded) : io rasterized :=
  let im_size := take 2 (shape (l_im_rgb l)) in
  scalers ← lift (get_scalers im_size (l_grid l));
  train_polygons ← lift (not_None (l_train_polygons l));
  let train_polygons_scaled := affinity_scale train_polygons (fst scalers) (snd scalers) in
  train_mask ← lift (mask_for_polygons im_size train_polygons_scaled);
  crop ← lift (window (l_im_rgb l));
  scaled ← lift (scale_percentile f64_of_Z crop);
  _ ← imshow (times_255_float64 scaled);
  _ ← plt_show;
  crop ← lift (window train_mask);
  _ ← show_mask times_255_uint8 crop;
  mret (mk_rasterized im_size scalers train_polygons train_mask).

Definition stage_train (l : loaded) (r : rasterized) : io trained :=
  xs ← lift (np_reshape_rows3 (l_im_rgb l));
  let xs := np_map f32_of_Z xs in
  let ys := np_ravel (r_train_mask r) in
  _ ← print [PyStr "training..."];
  pipeline ← lift (pipeline_fit xs ys);
  mret (mk_trained xs ys pipeline).

Definition stage_predict (r : rasterized) (t : trained) : io (ndarray float64) :=
  proba ← lift (predict_proba (t_pipeline t) (t_xs t));
  pred_ys ← lift (np_column proba 1);
  score ← lift (average_precision_score (t_ys t) pred_ys);
  _ ← print [PyStr "average precision"; PyFloat score];
  pred_mask ← lift (np_reshape pred_ys (shape (r_train_mask r)));
  crop ← lift (window pred_mask);
  _ ← show_mask times_255_float64 crop;
  mret pred_mask.

Definition stage_threshold (r : rasterized) (pred_mask : ndarray float64)
  : io (ndarray bool) :=
  let pred_binary_mask := pred_binary_mask_of pred_mask in
  crop ← lift (window pred_binary_mask);
  _ ← show_mask times_255_bool crop;
  _ ← print [PyStr "Pixel jaccard";
             PyFloat (pixel_jaccard pred_binary_mask (r_train_mask r))];
  mret pred_binary_mask.

Definition stage_vectorize (r : rasterized) (pred_binary_mask : ndarray bool)
  : io geometry :=
  pred_polygons ← lift (mask_to_polygons pred_binary_mask (f64_of_Z 10) (f64_of_Z 10));
  pred_poly_mask ← lift (mask_for_polygons (r_im_size r) pred_polygons);
  crop ← lift (window pred_poly_mask);
  _ ← show_mask times_255_uint8 crop;
  mret pred_polygons.

Definition stage_score (r : rasterized) (pred_polygons : geometry) : io unit :=
  xfact ← lift (py_truediv (f64_of_Z 1) (fst (r_scalers r)));
  yfact ← lift (py_truediv (f64_of_Z 1) (snd (r_scalers r)));
  let scaled_pred_polygons := affinity_scale pred_polygons xfact yfact in
  let dumped_prediction := wkt_dumps scaled_pred_polygons in
  _ ← print [PyFormat "Prediction size: {:,} bytes"
               (Z.of_nat (String.length dumped_prediction))];
  final_polygons ← lift (wkt_loads dumped_prediction);
  inter ← lift (intersection final_polygons (r_train_polygons r));
  un ← lift (union final_polygons (r_train_polygons r));
  jaccard ← lift (py_truediv (area inter) (area un));
  print [PyStr "Final jaccard"; PyFloat jaccard].

(** the stages after loading *)
Definition after_load (l : loaded) : io unit :=
  r ← stage_rasterize l;
  t ← stage_train l r;
  pred_mask ← stage_predict r t;
  pred_binary_mask ← stage_threshold r pred_mask;
  pred_polygons ← stage_vectorize r pred_binary_mask;
  stage_score r pred_polygons.

Definition pipeline : io unit :=
  l ← stage_load;
  after_load l.

End Pipeline.

(** the kind of an event, without its payload *)
Inductive event_kind : Type :=
| KRead (path : string) | KPrint | KImshow | KPltShow
| KWrite (path : string) | KPrintErr.
Definition kind_of (e : event) : event_kind :=
  match e with
  | Read path => KRead path
  | Print _ => KPrint
  | Imshow _ => KImshow
  | PltShow => KPltShow
  | Write path => KWrite path
  | PrintErr _ => KPrintErr
  end.

(** the files read, in order *)
Definition reads (evs : list event) : list string :=
  omap (fun e => match e with Read path => Some path | _ => None end) evs.

(** [m] leaves the file system, the command line and the environment as
    they are, and what it adds to the trace is, by kind, the sequence [ks]
    when it returns and a beginning of [ks] when it raises. *)
Definition follows {A} (m : io A) (ks : list event_kind) : Prop :=
  forall w : world,
    files (fst (m w)) = files w /\
    argv (fst (m w)) = argv w /\
    environ (fst (m w)) = environ w /\
    exists evs : list event,
      trace (fst (m w)) = trace w ++ evs /\
      match snd (m w) with
      | Ok _ => map kind_of evs = ks
      | Raise _ => map kind_of evs `prefix_of` ks
      end.

(** what each stage does on the three channels *)
Definition load_kinds : list event_kind :=
  [KRead grid_sizes_path; KRead train_wkt_path; KRead image_path].
Definition rasterize_kinds : list event_kind := [KImshow; KPltShow; KImshow; KPltShow].
Definition train_kinds : list event_kind := [KPrint].
Definition predict_kinds : list event_kind := [KPrint; KImshow; KPltShow].
Definition threshold_kinds : list event_kind := [KImshow; KPltShow; KPrint].
Definition vectorize_kinds : list event_kind := [KImshow; KPltShow].
Definition score_kinds : list event_kind := [KPrint; KPrint].
Definition script_kinds : list event_kind :=
  load_kinds ++ rasterize_kinds ++ train_kinds ++ predict_kinds
  ++ threshold_kinds ++ vectorize_kinds ++ score_kinds.


(** two worlds that differ in the command line and the environment only *)
Definition same_but_argv_environ (w1 w2 : world) : Prop :=
  files w1 = files w2 /\ trace w1 = trace w2.

(** [m] does the same in two such worlds *)
Definition oblivious {A} (m : io A) : Prop :=
  forall w1 w2 : world,
    same_but_argv_environ w1 w2 ->
    same_but_argv_environ (fst (m w1)) (fst (m w2)) /\ snd (m w1) = snd (m w2).

(** a row of the grid-sizes file or of the polygons file for the image *)
Definition row_of_image (row : list string) : Prop := head row = Some IM_ID.

(** the row the polygons loop stops at *)
Definition selected (row : list string) : bool :=
  match row with
  | [_im_id; _poly_type; _] => String.eqb _im_id IM_ID && String.eqb _poly_type POLY_TYPE
  | _ => false
  end.

(** an event the script is entitled to: reading one of its three input
    files, printing to standard output, showing a figure; writing a file
    and printing to standard error are not among them *)
Definition input_paths : list string := [grid_sizes_path; train_wkt_path; image_path].

(** ** A miniature of the libraries

    Small stand-ins for the libraries, enough to run every definition
    above on examples: a contour finder that knows one picture, polygon
    filling by bounding boxes, the shoelace formula for areas, minimum and
    maximum for the percentiles, a comma-and-newline CSV reader. *)

(** the points of an array of shape (n, 1, 2) or (n, 2) *)
Fixpoint points_of (l : list Z) : list (Z * Z) :=
  match l with
  | x :: y :: l => (x, y) :: points_of l
  | _ => []
  end.

(** twice the area enclosed by a closed polyline *)
Definition shoelace (pts : list (Z * Z)) : Z :=
  Z.abs (sumZ (zip_with (fun p q => fst p * snd q - fst q * snd p)
                 pts (drop 1 pts ++ take 1 pts))).

Definition in_bounding_box (pts : list (Z * Z)) (x y : Z) : bool :=
  existsb (fun p => Z.leb (fst p) x) pts && existsb (fun p => Z.leb x (fst p)) pts
  && existsb (fun p => Z.leb (snd p) y) pts && existsb (fun p => Z.leb y (snd p)) pts.

Definition demo_fillPoly (img : ndarray Z) (pts : list (ndarray Z)) (color : Z)
  : ndarray Z :=
  let w := nth 1 (shape img) 1%nat in
  mk_ndarray (shape img)
    (imap (fun i v =>
             if existsb (fun poly => in_bounding_box (points_of (data poly))
                                       (Z.of_nat (i mod w)) (Z.of_nat (i / w))) pts
             then color else v)
          (data img)).

(** one picture: a square with a large hole and a small hole, and a speck
    and a stroke beside it *)
Definition demo_contour (pts : list Z) : ndarray Z :=
  mk_ndarray [(length pts / 2)%nat; 1%nat; 2%nat] pts.
Definition demo_square : ndarray Z := demo_contour [0; 0; 0; 9; 9; 9; 9; 0].
Definition demo_hole : ndarray Z := demo_contour [2; 2; 7; 2; 7; 7; 2; 7].
Definition demo_speck : ndarray Z := demo_contour [12; 0; 12; 1; 13; 1; 13; 0].
Definition demo_small_hole : ndarray Z := demo_contour [8; 8; 8; 9; 9; 9].
Definition demo_stroke : ndarray Z := demo_contour [20; 20; 21; 21].
Definition demo_contours : list (ndarray Z) :=
  [demo_square; demo_hole; demo_speck; demo_small_hole; demo_stroke].
Definition demo_rows : list (list Z) :=
  [[2; -1; 1; -1]; [3; -1; -1; 0]; [4; 0; -1; -1]; [-1; 1; -1; 0]; [-1; 2; -1; -1]].

Definition demo_cv2 : Cv2 := {|
  findContours := fun img _ _ => (img, demo_contours, [demo_rows]);
  approxPolyDP := fun cnt _ _ => cnt;
  contourArea := fun cnt =>
    f64_div (f64_of_Z (shoelace (points_of (data cnt)))) (f64_of_Z 2);
  fillPoly := demo_fillPoly
|}.

(** a ring that ends where it starts *)
Definition ring_closed (r : ring) : bool :=
  match r, last r with
  | p :: _, Some q => SFeqb (fst p) (fst q) && SFeqb (snd p) (snd q)
  | _, _ => false
  end.

Definition demo_is_valid (g : geometry) : bool :=
  match g with
  | Polygon p => ring_closed (exterior p)
  | MultiPolygon ps => forallb (fun p => ring_closed (exterior p)) ps
  | GeometryCollection _ | OtherGeometry _ _ => true
  end.

Definition demo_buffer (g : geometry) (distance : float64) : geometry :=
  match g with
  | MultiPolygon [p] => Polygon p
  | GeometryCollection _ | OtherGeometry _ _ => MultiPolygon []
  | _ => g
  end.

Definition scale_ring (xfact yfact : float64) (r : ring) : ring :=
  map (fun xy => (f64_mul (fst xy) xfact, f64_mul (snd xy) yfact)) r.
Definition scale_polygon (xfact yfact : float64) (p : polygon) : polygon :=
  mk_polygon (scale_ring xfact yfact (exterior p))
             (map (scale_ring xfact yfact) (interiors p)).

Definition demo_truth : geometry :=
  MultiPolygon [mk_polygon [(f64_of_Z 0, f64_of_Z 0); (f64_of_Z 0, f64_of_Z 2);
                            (f64_of_Z 2, f64_of_Z 2); (f64_of_Z 0, f64_of_Z 0)] []].

Definition demo_shapely : Shapely := {|
  linear_ring := fun a =>
    if Nat.leb 3 (length (points_of (data a)))
    then Ok (map (fun p => (f64_of_Z (fst p), f64_of_Z (snd p))) (points_of (data a)))
    else Raise ValueError;
  is_valid := demo_is_valid;
  buffer := demo_buffer;
  wkt_loads := fun s =>
    if String.prefix "MULTIPOLYGON" s then Ok demo_truth
    else Raise (LibraryError "WKTReadingError");
  wkt_dumps := fun _ => "MULTIPOLYGON EMPTY";
  affinity_scale := fun g xfact yfact =>
    match g with
    | Polygon p => Polygon (scale_polygon xfact yfact p)
    | MultiPolygon ps => MultiPolygon (map (scale_polygon xfact yfact) ps)
    | _ => g
    end;
  intersection := fun a _ => Ok a;
  union := fun _ b => Ok b;
  area := fun _ => f64_of_Z 1
|}.

(** the smallest ([below = true]) or the largest element of a list *)
Definition f64_extreme (below : bool) (l : list float64) : float64 :=
  match l with
  | [] => S754_nan
  | x :: l => fold_left (fun m y => if (if below then f64_lt y m else f64_gt y m)
                                   then y else m) l x
  end.

Definition demo_percentile (a : ndarray float64) (q : Z) : result (ndarray float64) :=
  match shape a with
  | [n; d] =>
      Ok (mk_ndarray [d]
            (map (fun j => f64_extreme (Z.leb q 50)
                             (omap (fun i => data a !! (i * d + j)%nat) (seq 0 n)))
                 (seq 0 d)))
  | _ => Raise ValueError
  end.

Definition demo_numpy : Numpy := {|
  round_int32 := fun x =>
    match x with
    | S754_finite s m e =>
        let v := if Z.leb 0 e then Zpos m * 2 ^ e else Zpos m / 2 ^ (- e) in
        if s then - v else v
    | _ => 0
    end;
  percentile := demo_percentile
|}.

(** the text between separators *)
Fixpoint split_at (sep : ascii) (s : string) (field : string) : list string :=
  match s with
  | EmptyString => [String.rev field]
  | String c s =>
      if Ascii.eqb c sep then String.rev field :: split_at sep s EmptyString
      else split_at sep s (String c field)
  end.

Definition newline : ascii := ascii_of_nat 10.

(** one row per line that is not empty, one field per comma *)
Definition demo_csv_reader (content : string) : list (list string) :=
  map (fun line => split_at "," line EmptyString)
      (List.filter (fun line => negb (String.eqb line EmptyString))
                   (split_at newline content EmptyString)).

Definition digit_of (c : ascii) : option Z :=
  let n := Z.of_nat (nat_of_ascii c) in
  if Z.leb 48 n && Z.leb n 57 then Some (n - 48) else None.

Fixpoint number_of (s : string) (acc : Z) : option Z :=
  match s with
  | EmptyString => Some acc
  | String c s => d ← digit_of c; number_of s (10 * acc + d)
  end.

(** whole numbers only, with or without a sign *)
Definition demo_float_of_str (s : string) : result float64 :=
  match s with
  | EmptyString => Raise ValueError
  | String "-" s' =>
      match s', number_of s' 0 with
      | String _ _, Some n => Ok (f64_of_Z (- n))
      | _, _ => Raise ValueError
      end
  | _ =>
      match number_of s 0 with
      | Some n => Ok (f64_of_Z n)
      | None => Raise ValueError
      end
  end.

Definition demo_python : Python := {|
  sys_maxsize := 2 ^ 63 - 1;
  csv_field_size_limit := fun _ => Ok 131072;
  csv_reader := demo_csv_reader;
  float_of_str := demo_float_of_str
|}.

(** three bands of one row of pixels, a byte each *)
Definition demo_tiff_decode (content : string) : result (ndarray Z) :=
  let bytes := map (fun c => Z.of_nat (nat_of_ascii c)) (list_ascii_of_string content) in
  if Nat.eqb (length bytes mod 3) 0
  then Ok (mk_ndarray [3%nat; 1%nat; (length bytes / 3)%nat] bytes)
  else Raise (LibraryError "TiffFileError").

Definition demo_tifffile : Tifffile := {|
  tiff_decode := demo_tiff_decode;
  tiff_imshow := fun _ => Ok tt
|}.

(** a classifier that has learnt nothing: every pixel gets the
    probability one half *)
Definition demo_sklearn : Sklearn := {|
  fitted := unit;
  pipeline_fit := fun _ _ => Ok tt;
  predict_proba := fun _ xs =>
    let n := nth 0 (shape xs) 0%nat in
    Ok (mk_ndarray [n; 2%nat]
          (flat_map (fun _ => [f64_div (f64_of_Z 1) (f64_of_Z 2);
                               f64_div (f64_of_Z 1) (f64_of_Z 2)]) (seq 0 n)));
  average_precision_score := fun _ _ => Ok (f64_of_Z 1)
|}.

(** the three input files, small *)
Definition demo_grid_sizes : string :=
  ",Xmax,Ymin" +:+ String newline "6120_2_2,9,-9" +:+ String newline "".
Definition demo_train_wkt : string :=
  "ImageId,ClassType,MultipolygonWKT" +:+ String newline
  "6120_2_2,1,MULTIPOLYGON (((0 0 0 2 2 2 0 0)))" +:+ String newline "".
Definition demo_image : string := "abcdefghijkl".

Definition demo_files : gmap string string :=
  {[ grid_sizes_path := demo_grid_sizes;
     train_wkt_path := demo_train_wkt;
     image_path := demo_image ]}.

Definition demo_world : world := mk_world demo_files ["script.py"] ∅ [].

(** the same files, another command line and another environment *)
Definition demo_world_with_flags : world :=
  mk_world demo_files ["script.py"; "--verbose"] {[ "MPLBACKEND" := "Agg" ]} [].

(** no file at all *)
Definition demo_world_no_files : world := mk_world ∅ ["script.py"] ∅ [].

(** a grid-sizes file without the image *)
Definition demo_world_no_grid_row : world :=
  mk_world (<[ grid_sizes_path := ",Xmax,Ymin" +:+ String newline "6010_1_2,9,-9" ]> demo_files)
           ["script.py"] ∅ [].

(** a polygons file without the image *)
Definition demo_world_no_polygons_row : world :=
  mk_world (<[ train_wkt_path := "ImageId,ClassType,MultipolygonWKT" ]> demo_files)
           ["script.py"] ∅ [].

(** a polygons file whose polygon field is not WKT *)
Definition demo_world_bad_wkt : world :=
  mk_world (<[ train_wkt_path := "6120_2_2,1,POLYGON?" ]> demo_files)
           ["script.py"] ∅ [].

(** inputs for the examples *)
Definition demo_mask : ndarray bool := mk_ndarray [1%nat; 1%nat] [true].
Definition demo_pred_binary_mask : ndarray bool :=
  mk_ndarray [2%nat; 2%nat] [true; true; false; false].
Definition demo_train_mask : ndarray Z := mk_ndarray [2%nat; 2%nat] [1; 0; 1; 0].
Definition demo_matrix : ndarray Z :=
  mk_ndarray [1%nat; 2%nat; 3%nat] [10; 20; 30; 40; 50; 60].
Definition demo_mins : ndarray float64 :=
  mk_ndarray [3%nat] [f64_of_Z 10; f64_of_Z 20; f64_of_Z 30].
Definition demo_p99 : ndarray float64 :=
  mk_ndarray [3%nat] [f64_of_Z 40; f64_of_Z 50; f64_of_Z 60].

(** a probability for the examples: one half *)
Definition demo_probability : float64 := S754_finite false 4503599627370496 (-53).

(** Percentiles that are not degenerate: one 1st and one 99th percentile
    per channel, the 1st finite, and the distance from the 1st to the 99th
    finite and not zero. *)
Definition nondegenerate_percentiles (d : nat) (mins p99 : ndarray float64) : Prop :=
  shape mins = [d] /\ length (data mins) = d /\
  shape p99 = [d] /\ length (data p99) = d /\
  Forall (fun m => f64_is_finite m = true) (data mins) /\
  Forall (fun m => f64_is_finite m = true /\ f64_is_zero m = false)
         (zip_with f64_sub (data p99) (data mins)).

(** ** Notions the further properties are stated with *)

(** a row the grid-sizes loop passes over: three fields, another image *)
Definition passed_over (row : list string) : bool :=
  match row with
  | [_im_id; _; _] => negb (String.eqb _im_id IM_ID)
  | _ => false
  end.

(** a row the polygons loop passes over: three fields, another image or
    another class *)
Definition not_selected (row : list string) : bool :=
  match row with
  | [_im_id; _poly_type; _] =>
      negb (String.eqb _im_id IM_ID && String.eqb _poly_type POLY_TYPE)
  | _ => false
  end.

(** the world after the events [evs] *)
Definition after (w : world) (evs : list event) : world :=
  mk_world (files w) (argv w) (environ w) (trace w ++ evs).

(** what a [print] starts with: the string, or the template that is
    formatted *)
Definition label_of (e : event) : option string :=
  match e with
  | Print (PyStr s :: _) => Some s
  | Print (PyFormat template _ :: _) => Some template
  | _ => None
  end.

(** the labels of what was printed, in order *)
Definition labels (evs : list event) : list string := omap label_of evs.

Definition script_labels : list string :=
  ["training..."; "average precision"; "Pixel jaccard";
   "Prediction size: {:,} bytes"; "Final jaccard"].

(** [m] prints under the labels [ls], in this order, when it returns, and
    under the first of them when it raises *)
Definition says {A} (m : io A) (ls : list string) : Prop :=
  forall w : world,
    exists evs : list event,
      trace (fst (m w)) = trace w ++ evs /\
      match snd (m w) with
      | Ok _ => labels evs = ls
      | Raise _ => labels evs `prefix_of` ls
      end.

(** [train_mask & 1]: the lowest bit of every entry *)
Definition lowest_bit (t : ndarray Z) : ndarray Z := np_map (fun v => Z.land v 1) t.

(** the number of pixels the prediction sets, and the number the truth sets *)
Definition predicted_size (p : ndarray bool) (t : ndarray Z) : Z :=
  count_pixels (fun x _ => x) (data p) (data t).
Definition truth_size (p : ndarray bool) (t : ndarray Z) : Z :=
  count_pixels (fun _ y => y) (data p) (data t).

Section ShellsOfContours.
Context `{Cv2}.

(** contour [idx] is one the second loop builds a polygon around: it has
    no parent and passes the area filter *)
Definition becomes_shell (min_area : float64)
  (approx_contours : list (ndarray Z)) (rows : list (list Z)) (idx : nat) : Prop :=
  exists cnt, approx_contours !! idx = Some cnt /\
              has_parent rows idx = false /\
              f64_ge (contourArea cnt) min_area = true.

End ShellsOfContours.

(** ** More of the miniature *)

(** a contour finder that hands over a hierarchy of two planes *)
Definition demo_cv2_two_planes : Cv2 := {|
  findContours := fun img _ _ => (img, demo_contours, [demo_rows; demo_rows]);
  approxPolyDP := fun cnt _ _ => cnt;
  contourArea := fun cnt =>
    f64_div (f64_of_Z (shoelace (points_of (data cnt)))) (f64_of_Z 2);
  fillPoly := demo_fillPoly
|}.

(** geometries without area *)
Definition demo_shapely_no_area : Shapely := {|
  linear_ring := linear_ring (Shapely := demo_shapely);
  is_valid := demo_is_valid;
  buffer := demo_buffer;
  wkt_loads := wkt_loads (Shapely := demo_shapely);
  wkt_dumps := fun _ => "MULTIPOLYGON EMPTY";
  affinity_scale := affinity_scale (Shapely := demo_shapely);
  intersection := fun a _ => Ok a;
  union := fun _ b => Ok b;
  area := fun _ => f64_of_Z 0
|}.

(** rows of a grid-sizes file and of a polygons file *)
Definition demo_grid_rows : list (list string) :=
  [[""; "Xmax"; "Ymin"]; ["6010_1_2"; "9"; "-9"]].
Definition demo_polygon_rows : list (list string) :=
  [["ImageId"; "ClassType"; "MultipolygonWKT"]; ["6120_2_2"; "2"; "MULTIPOLYGON EMPTY"]].

(** an image of three bands, one row of two pixels, and a mask for it *)
Definition demo_bands : ndarray Z := mk_ndarray [3%nat; 1%nat; 2%nat] [1; 2; 3; 4; 5; 6].
Definition demo_row_mask : ndarray Z := mk_ndarray [1%nat; 2%nat] [0; 1].

(** a matrix of one value *)
Definition demo_flat_matrix : ndarray Z := mk_ndarray [1%nat; 2%nat; 1%nat] [7; 7].
Definition demo_flat_percentile : ndarray float64 := mk_ndarray [1%nat] [f64_of_Z 7].

(** two masks without a pixel *)
Definition demo_no_prediction : ndarray bool :=
  mk_ndarray [2%nat; 2%nat] [false; false; false; false].
Definition demo_no_truth : ndarray Z := mk_ndarray [2%nat; 2%nat] [0; 0; 0; 0].

(** a contour inside the hole of the square *)
Definition demo_island : ndarray Z := demo_contour [4; 4; 4; 5; 5; 5; 5; 4].

(** what the rasterizing stage hands on, for an image of one pixel *)
Definition demo_rasterized : rasterized :=
  mk_rasterized [1%nat; 1%nat] (f64_of_Z 1, f64_of_Z 1) demo_truth
    (mk_ndarray [1%nat; 1%nat] [1]).

(** what the loading stage hands on, for an image of one pixel, and what
    the training stage hands on *)
Definition demo_loaded : loaded :=
  mk_loaded (Some (f64_of_Z 9, f64_of_Z (-9))) (Some demo_truth)
    (mk_ndarray [1%nat; 1%nat; 3%nat] [1; 2; 3]).
Definition demo_trained : trained (H4 := demo_sklearn) :=
  mk_trained (H4 := demo_sklearn)
    (mk_ndarray [1%nat; 3%nat] [f32_of_Z 1; f32_of_Z 2; f32_of_Z 3])
    (mk_ndarray [1%nat] [1]) tt.

(** a truth mask of 0 and 255 *)
Definition demo_train_mask_255 : ndarray Z := mk_ndarray [2%nat; 2%nat] [255; 0; 255; 0].

(** * Properties *)

(** ** Thresholding *)

Lemma item2_np_map {A B} (f : A -> B) (a : ndarray A) (r c : nat) :
  item2 (np_map f a) r c = f <$> item2 a r c.
Proof.
  unfold item2, np_map; simpl.
  destruct (shape a) as [|h [|w [|? ?]]]; try reflexivity.
  destruct (Nat.ltb r h && Nat.ltb c w); [|reflexivity].
  apply list_lookup_fmap.
Qed.

Lemma digits2_pos_bounds (m : positive) :
  2 ^ (Zpos (digits2_pos m) - 1) <= Zpos m < 2 ^ Zpos (digits2_pos m).
Proof.
  induction m as [m IH|m IH|]; simpl digits2_pos.
  - rewrite Pos2Z.inj_succ.
    replace (Z.succ (Zpos (digits2_pos m)) - 1) with (Z.succ (Zpos (digits2_pos m) - 1)) by lia.
    rewrite !Z.pow_succ_r by lia. lia.
  - rewrite Pos2Z.inj_succ.
    replace (Z.succ (Zpos (digits2_pos m)) - 1) with (Z.succ (Zpos (digits2_pos m) - 1)) by lia.
    rewrite !Z.pow_succ_r by lia. lia.
  - simpl. lia.
Qed.

(** comparing with the threshold is comparing the numbers *)
Lemma f64_ge_threshold_units (p : float64) (u : Z) :
  f64_valid p = true -> f64_units p = Some u ->
  (f64_ge p threshold = true <-> 5404319552844595 * 2 ^ 1020 <= u).
Proof.
  destruct p as [s|s| |s m e]; try discriminate.
  - intros _ [= <-]. split; [discriminate|].
    assert (HT : 0 < 2 ^ 1020) by (apply Z.pow_pos_nonneg; lia).
    revert HT. generalize (2 ^ 1020). intros T HT. lia.
  - unfold f64_valid, valid_binary, bounded, canonical_mantissa, fexp, emin.
    intros Hv [= <-]. apply andb_true_iff in Hv. destruct Hv as [Hc _].
    apply Z.eqb_eq in Hc.
    pose proof (digits2_pos_bounds m) as [Hlo Hhi].
    set (d := Zpos (digits2_pos m)) in *.
    assert (He : -1074 <= e) by lia.
    destruct s.
    { split; [discriminate|].
      assert (HT : 0 < 2 ^ 1020) by (apply Z.pow_pos_nonneg; lia).
      assert (HP : 0 < 2 ^ (e + 1074)) by (apply Z.pow_pos_nonneg; lia).
      revert HT HP. generalize (2 ^ 1020) (2 ^ (e + 1074)). clear. intros T P HT HP. nia. }
    unfold f64_ge, SFleb, threshold. cbn [SFcompare].
    rewrite Z.mul_1_l.
    destruct (Z.compare_spec (-54) e) as [Ee | Elt | Egt].
    + subst e. replace (-54 + 1074) with 1020 by reflexivity.
      change (Pos.compare_cont Eq 5404319552844595 m)
        with (Z.compare 5404319552844595 (Zpos m)).
      assert (HT : 0 < 2 ^ 1020) by (apply Z.pow_pos_nonneg; lia).
      revert HT. generalize (2 ^ 1020). clear. intros T HT.
      destruct (Z.compare_spec 5404319552844595 (Zpos m)) as [E | E | E]; split;
        try reflexivity; try discriminate.
      * intros _. rewrite <- E. lia.
      * intros _. apply Z.mul_le_mono_nonneg_r; lia.
      * intros Hle. exfalso. apply Z.mul_le_mono_pos_r in Hle; lia.
    + split; [intros _ | reflexivity].
      assert (Hd : d = 53) by lia.
      rewrite Hd in Hlo. change (2 ^ (53 - 1)) with 4503599627370496 in Hlo.
      replace (e + 1074) with ((e + 54) + 1020) by lia.
      rewrite Z.pow_add_r by lia.
      assert (HQ : 2 <= 2 ^ (e + 54)).
      { change 2 with (2 ^ 1) at 1. apply Z.pow_le_mono_r; lia. }
      assert (HT : 0 < 2 ^ 1020) by (apply Z.pow_pos_nonneg; lia).
      revert HT HQ. generalize (2 ^ 1020) (2 ^ (e + 54)). clear - Hlo.
      intros T Q HT HQ.
      assert (HmQ : 5404319552844595 <= Zpos m * Q) by nia.
      rewrite Z.mul_assoc. apply Z.mul_le_mono_nonneg_r; lia.
    + split; [discriminate | intros Hle; exfalso].
      assert (Hd : d <= 53) by lia.
      assert (Hm : Zpos m < 9007199254740992).
      { eapply Z.lt_le_trans; [exact Hhi|].
        change 9007199254740992 with (2 ^ 53). apply Z.pow_le_mono_r; lia. }
      replace 1020 with ((e + 1074) + (-54 - e)) in Hle by lia.
      rewrite Z.pow_add_r in Hle by lia.
      assert (HQ : 2 <= 2 ^ (-54 - e)).
      { change 2 with (2 ^ 1) at 1. apply Z.pow_le_mono_r; lia. }
      assert (HP : 0 < 2 ^ (e + 1074)) by (apply Z.pow_pos_nonneg; lia).
      revert HP HQ Hle. generalize (2 ^ (e + 1074)) (2 ^ (-54 - e)). clear - Hm.
      intros P Q HP HQ Hle.
      replace (5404319552844595 * (P * Q)) with ((5404319552844595 * Q) * P) in Hle by ring.
      apply Z.mul_le_mono_pos_r in Hle; [nia | exact HP].
Qed.

(** C7: the binary mask has the shape of the probability mask, and at
    every pixel it holds [True] exactly when the probability there is
    greater than or equal to the threshold, the binary64 written [0.3]
    (3/10 rounded, as the division computes it; 2/10 of 2^-54 below 3/10).
    For a probability that is a number, that comparison is the comparison
    of the two numbers. *)
Theorem pred_binary_mask_pointwise :
  f64_div (f64_of_Z 3) (f64_of_Z 10) = threshold /\
  f64_valid threshold = true /\
  f64_units threshold = Some (5404319552844595 * 2 ^ 1020) /\
  10 * 5404319552844595 + 2 = 3 * 2 ^ 54 /\
  (forall pred_mask : ndarray float64,
     shape (pred_binary_mask_of pred_mask) = shape pred_mask /\
     length (data (pred_binary_mask_of pred_mask)) = length (data pred_mask) /\
     forall r c : nat,
       item2 (pred_binary_mask_of pred_mask) r c
       = (fun p => f64_ge p threshold) <$> item2 pred_mask r c) /\
  (forall (p : float64) (u : Z),
     f64_valid p = true -> f64_units p = Some u ->
     (f64_ge p threshold = true <-> 5404319552844595 * 2 ^ 1020 <= u)).
Proof.
  split; [vm_compute; reflexivity|].
  split; [reflexivity|].
  split; [reflexivity|].
  split; [reflexivity|].
  split; [|exact f64_ge_threshold_units].
  intros pred_mask. split; [reflexivity|]. split.
  - unfold pred_binary_mask_of, np_map; simpl. apply length_map.
  - intros r c. apply item2_np_map.
Qed.

(** ** Pixel-level Jaccard *)

Lemma fold_uint64_add_no_wrap (l : list Z) (acc : Z) :
  Forall (fun v => 0 <= v <= 1) l ->
  0 <= acc -> acc + Z.of_nat (length l) < 2 ^ 64 ->
  fold_left uint64_add l acc = acc + sumZ l.
Proof.
  revert acc. induction l as [|v l IH]; intros acc Hl Hacc Hlen; simpl.
  - lia.
  - inversion Hl as [|? ? Hv Hl']; subst.
    simpl in Hlen.
    unfold uint64_add at 2.
    rewrite Z.mod_small by lia.
    rewrite IH by (auto; lia). lia.
Qed.

Lemma sumZ_bits_bounds (l : list Z) :
  Forall (fun v => 0 <= v <= 1) l -> 0 <= sumZ l <= Z.of_nat (length l).
Proof.
  induction 1 as [|v l Hv _ IH]; simpl; lia.
Qed.

Lemma count_pixels_cons f b v p t :
  count_pixels f (b :: p) (v :: t)
  = Z_of_bool (f b (is_set v)) + count_pixels f p t.
Proof.
  unfold count_pixels. simpl zip_with. rewrite filter_cons.
  destruct (f b (is_set v)); simpl Z_of_bool.
  - rewrite decide_True by reflexivity. simpl length. lia.
  - rewrite decide_False by discriminate. lia.
Qed.

Lemma bool_and_uint8_bit (b : bool) (v : Z) :
  v = 0 \/ v = 1 -> bool_and_uint8 b v = Z_of_bool (b && is_set v).
Proof. intros [-> | ->]; destruct b; reflexivity. Qed.

Lemma bool_and_uint8_invert_bit (b : bool) (v : Z) :
  v = 0 \/ v = 1 ->
  bool_and_uint8 b (uint8_invert v) = Z_of_bool (b && negb (is_set v)).
Proof. intros [-> | ->]; destruct b; reflexivity. Qed.

Lemma Z_of_bool_bounds (b : bool) : 0 <= Z_of_bool b <= 1.
Proof. destruct b; simpl; lia. Qed.

(** The three sums, element by element. *)
Lemma confusion_sums (p : list bool) (t : list Z) :
  Forall (fun v => v = 0 \/ v = 1) t ->
  let tp := zip_with bool_and_uint8 p t in
  let fp := zip_with bool_and_uint8 p (map uint8_invert t) in
  let fn := zip_with bool_and_uint8 (map negb p) t in
  Forall (fun v => 0 <= v <= 1) tp /\
  Forall (fun v => 0 <= v <= 1) fp /\
  Forall (fun v => 0 <= v <= 1) fn /\
  sumZ tp = count_pixels andb p t /\
  sumZ tp + sumZ fp + sumZ fn = count_pixels orb p t.
Proof.
  intros Ht. revert p.
  induction Ht as [|v t Hv Ht IH]; intros [|b p]; simpl;
    try (repeat split; first [constructor | reflexivity]).
  destruct (IH p) as (Htp & Hfp & Hfn & Hi & Hu).
  rewrite !count_pixels_cons.
  rewrite (bool_and_uint8_bit b v Hv), (bool_and_uint8_bit (negb b) v Hv),
    (bool_and_uint8_invert_bit b v Hv).
  repeat split; try (constructor; [apply Z_of_bool_bounds | assumption]).
  - simpl in Hi. lia.
  - simpl in Hu.
    destruct b, (is_set v); simpl Z_of_bool; lia.
Qed.

(** C2: for a prediction mask and a binary truth mask of one shape (of
    fewer than 2^64 pixels, as every array in memory has), the numerator
    [tp] is the size of the intersection, the denominator [tp + fp + fn]
    is the size of the union, and so the printed quotient is the
    intersection over union. *)
Theorem pixel_jaccard_is_intersection_over_union
  (pred_binary_mask : ndarray bool) (train_mask : ndarray Z) :
  shape pred_binary_mask = shape train_mask ->
  well_shaped pred_binary_mask -> well_shaped train_mask ->
  binary_mask train_mask ->
  Z.of_nat (length (data train_mask)) < 2 ^ 64 ->
  let tp := tp_of pred_binary_mask train_mask in
  let fp := fp_of pred_binary_mask train_mask in
  let fn := fn_of pred_binary_mask train_mask in
  tp = intersection_size pred_binary_mask train_mask /\
  uint64_add (uint64_add tp fp) fn = union_size pred_binary_mask train_mask /\
  pixel_jaccard pred_binary_mask train_mask
  = intersection_over_union pred_binary_mask train_mask.
Proof.
  intros Hshape Hp Ht Hbin Hsize tp fp fn.
  assert (Hlen : length (data pred_binary_mask) = length (data train_mask)).
  { unfold well_shaped in *. congruence. }
  destruct (confusion_sums (data pred_binary_mask) (data train_mask) Hbin)
    as (Btp & Bfp & Bfn & Hi & Hu).
  assert (Ltp : length (zip_with bool_and_uint8 (data pred_binary_mask) (data train_mask))
                = length (data train_mask)).
  { rewrite length_zip_with. lia. }
  assert (Lfp : length (zip_with bool_and_uint8 (data pred_binary_mask)
                          (map uint8_invert (data train_mask)))
                = length (data train_mask)).
  { rewrite length_zip_with, length_map. lia. }
  assert (Lfn : length (zip_with bool_and_uint8 (map negb (data pred_binary_mask))
                          (data train_mask))
                = length (data train_mask)).
  { rewrite length_zip_with, length_map. lia. }
  assert (Etp : tp = sumZ (zip_with bool_and_uint8 (data pred_binary_mask) (data train_mask))).
  { unfold tp, tp_of, np_sum, np_map2; simpl.
    rewrite fold_uint64_add_no_wrap; [lia | assumption | lia | lia]. }
  assert (Efp : fp = sumZ (zip_with bool_and_uint8 (data pred_binary_mask)
                             (map uint8_invert (data train_mask)))).
  { unfold fp, fp_of, np_sum, np_map2, np_map; simpl.
    rewrite fold_uint64_add_no_wrap; [lia | assumption | lia | lia]. }
  assert (Efn : fn = sumZ (zip_with bool_and_uint8 (map negb (data pred_binary_mask))
                             (data train_mask))).
  { unfold fn, fn_of, np_sum, np_map2, np_map; simpl.
    rewrite fold_uint64_add_no_wrap; [lia | assumption | lia | lia]. }
  assert (Hden : uint64_add (uint64_add tp fp) fn
                 = union_size pred_binary_mask train_mask).
  { pose proof (sumZ_bits_bounds _ Btp). pose proof (sumZ_bits_bounds _ Bfp).
    pose proof (sumZ_bits_bounds _ Bfn).
    assert (Hor : 0 <= count_pixels orb (data pred_binary_mask) (data train_mask)
                  <= Z.of_nat (length (data train_mask))).
    { unfold count_pixels. split; [lia|].
      apply inj_le. etransitivity; [apply length_filter|].
      rewrite length_zip_with. lia. }
    unfold union_size, uint64_add.
    rewrite (Z.mod_small (tp + fp)) by lia.
    rewrite Z.mod_small by lia. lia. }
  split; [unfold intersection_size; lia|].
  split; [exact Hden|].
  unfold pixel_jaccard, intersection_over_union.
  fold tp fp fn. rewrite Hden. f_equal. f_equal. unfold intersection_size. lia.
Qed.

(** ** binary64 facts *)

Lemma iter_pos_shr_1_nonneg (p : positive) (mrs : shr_record) :
  0 <= shr_m mrs -> 0 <= shr_m (SpecFloat.iter_pos shr_1 p mrs).
Proof.
  assert (H1 : forall mrs, 0 <= shr_m mrs -> 0 <= shr_m (shr_1 mrs)).
  { intros [m r s]; simpl. destruct m as [|[q|q|]|[q|q|]]; simpl; lia. }
  revert mrs. induction p as [p IH|p IH|]; intros mrs Hm; simpl; auto.
Qed.

Lemma shr_fexp_nonneg (m e : Z) (l : location) :
  0 <= m -> 0 <= shr_m (fst (shr_fexp 53 1024 m e l)).
Proof.
  intros Hm. unfold shr_fexp, shr.
  assert (H0 : 0 <= shr_m (shr_record_of_loc m l)).
  { destruct l as [|[]]; simpl; exact Hm. }
  destruct (fexp 53 1024 (Zdigits2 m + e) - e) as [|p|p]; simpl; auto.
  apply iter_pos_shr_1_nonneg, H0.
Qed.

Lemma round_nearest_even_nonneg (m : Z) (l : location) :
  0 <= m -> 0 <= round_nearest_even m l.
Proof.
  intros Hm. destruct l as [|[]]; simpl; try lia.
  destruct (Z.even m); lia.
Qed.

Lemma binary_round_aux_not_nan (sx : bool) (mx ex : Z) (lx : location) :
  0 <= mx -> f64_is_nan (binary_round_aux 53 1024 sx mx ex lx) = false.
Proof.
  intros Hm. unfold binary_round_aux.
  pose proof (shr_fexp_nonneg mx ex lx Hm) as H1.
  destruct (shr_fexp 53 1024 mx ex lx) as [mrs' e']. simpl in H1.
  pose proof (shr_fexp_nonneg _ e' loc_Exact
                (round_nearest_even_nonneg _ (loc_of_shr_record mrs') H1)) as H2.
  destruct (shr_fexp 53 1024 _ e' loc_Exact) as [mrs'' e'']. simpl in H2.
  destruct (shr_m mrs'') as [|q|q]; [reflexivity| |lia].
  destruct (Z.leb e'' (1024 - 53)); reflexivity.
Qed.

Lemma binary_normalize_not_nan (m e : Z) (sz : bool) :
  f64_is_nan (binary_normalize 53 1024 m e sz) = false.
Proof.
  destruct m as [|p|p]; simpl; [reflexivity| |];
    unfold binary_round;
    destruct (shl_align _ _ _) as [mz ez];
    apply binary_round_aux_not_nan; lia.
Qed.

Lemma f64_of_Z_not_nan (z : Z) : f64_is_nan (f64_of_Z z) = false.
Proof. apply binary_normalize_not_nan. Qed.

(** subtracting a finite number never gives a NaN *)
Lemma f64_sub_not_nan (x y : float64) :
  f64_is_nan x = false -> f64_is_finite y = true ->
  f64_is_nan (f64_sub x y) = false.
Proof.
  intros Hx Hy.
  destruct x as [sx|sx| |sx mx ex]; try discriminate;
    destruct y as [sy|sy| |sy my ey]; try discriminate;
    try reflexivity.
  - simpl. destruct sx, sy; reflexivity.
  - unfold f64_sub, SFsub. apply binary_normalize_not_nan.
Qed.

(** dividing by a finite number other than zero never gives a NaN *)
Lemma f64_div_not_nan (x y : float64) :
  f64_is_nan x = false -> f64_is_finite y = true -> f64_is_zero y = false ->
  f64_is_nan (f64_div x y) = false.
Proof.
  intros Hx Hy Hy0.
  destruct x as [sx|sx| |sx mx ex]; try discriminate;
    destruct y as [sy|sy| |sy my ey]; try discriminate;
    try reflexivity.
  unfold f64_div, SFdiv.
  destruct (SFdiv_core_binary 53 1024 (Zpos mx) ex (Zpos my) ey) as [[mz ez] lz] eqn:E.
  apply binary_round_aux_not_nan.
  unfold SFdiv_core_binary in E.
  set (s := _ - _ - Z.min _ _) in E.
  set (m' := match s with Z0 => _ | Zpos _ => _ | Zneg _ => _ end) in E.
  assert (Hm' : 0 <= m').
  { subst m'. destruct s; try lia. apply Z.shiftl_nonneg. lia. }
  pose proof (Z_div_mod m' (Zpos my) eq_refl) as Hdm.
  destruct (Z.div_eucl m' (Zpos my)) as [q r].
  inversion E; subst. nia.
Qed.

(** comparing the other way round *)
Lemma SFcompare_swap (x y : float64) :
  SFcompare y x = option_map CompOpp (SFcompare x y).
Proof.
  destruct x as [sx|sx| |sx mx ex], y as [sy|sy| |sy my ey]; simpl;
    try reflexivity;
    try (destruct sx; reflexivity); try (destruct sy; reflexivity);
    try (destruct sx, sy; reflexivity).
  destruct sx, sy; simpl; try reflexivity;
    rewrite (Z.compare_antisym ex ey);
    destruct (Z.compare ex ey) eqn:E; simpl; try reflexivity;
    apply Z.compare_eq in E; subst;
    f_equal; change (Pos.compare_cont Eq) with Pos.compare;
    rewrite (Pos.compare_antisym mx my); try reflexivity.
Qed.

Lemma SFcompare_defined (x y : float64) :
  f64_is_nan x = false -> f64_is_nan y = false ->
  exists c, SFcompare x y = Some c.
Proof.
  intros Hx Hy.
  destruct x as [sx|sx| |sx mx ex]; try discriminate;
    destruct y as [sy|sy| |sy my ey]; try discriminate; simpl; eauto.
Qed.

Lemma SFleb_not_nan (x y : float64) :
  SFleb x y = true -> f64_is_nan x = false /\ f64_is_nan y = false.
Proof.
  unfold SFleb. destruct x, y; simpl; try discriminate; auto.
Qed.

Lemma SFleb_refl (x : float64) : f64_is_nan x = false -> SFleb x x = true.
Proof.
  intros Hx. unfold SFleb.
  destruct (SFcompare_defined x x Hx Hx) as [c Hc].
  pose proof (SFcompare_swap x x) as Hs. rewrite Hc in Hs. simpl in Hs.
  rewrite Hc. destruct c; try reflexivity; discriminate.
Qed.

Lemma SFleb_of_not_ltb (x y : float64) :
  f64_is_nan x = false -> f64_is_nan y = false ->
  SFltb x y = false -> SFleb y x = true.
Proof.
  intros Hx Hy. unfold SFltb, SFleb.
  rewrite (SFcompare_swap x y).
  destruct (SFcompare_defined x y Hx Hy) as [c ->]. simpl.
  destruct c; simpl; try reflexivity; discriminate.
Qed.

(** what is not a NaN is clipped into the closed interval *)
Lemma f64_clip_in_range (lo hi x : float64) :
  f64_is_nan x = false -> f64_le lo hi = true ->
  f64_le lo (f64_clip lo hi x) = true /\ f64_le (f64_clip lo hi x) hi = true.
Proof.
  intros Hx Hlohi. unfold f64_le in *.
  destruct (SFleb_not_nan lo hi Hlohi) as [Hlo Hhi].
  unfold f64_clip, f64_lt, f64_gt.
  destruct (SFltb x lo) eqn:E1.
  - split; [apply SFleb_refl, Hlo | exact Hlohi].
  - destruct (SFltb hi x) eqn:E2.
    + split; [exact Hlohi | apply SFleb_refl, Hhi].
    + split; apply SFleb_of_not_ltb; assumption.
Qed.

(** ** [scale_percentile] *)

Lemma nth_Forall {A} (P : A -> Prop) (l : list A) (i : nat) (d : A) :
  Forall P l -> (i < length l)%nat -> P (nth i l d).
Proof.
  intros HP Hi. rewrite nth_lookup.
  destruct (lookup_lt_is_Some_2 l i Hi) as [x Hx].
  rewrite Hx. simpl. exact (proj1 (Forall_lookup P l) HP i x Hx).
Qed.

Lemma np_reshape_ok {A} (a : ndarray A) (sh : list nat) :
  size_of sh = length (data a) -> np_reshape a sh = Ok (mk_ndarray sh (data a)).
Proof.
  intros E. unfold np_reshape. apply Nat.eqb_eq in E. rewrite E. reflexivity.
Qed.

Section ScalePercentileProps.
Context `{Numpy} {A : Type} (astype_float64 : A -> float64).

Lemma scale_percentile_clipped
  (matrix : ndarray A) (w h d : nat) (mins p99 : ndarray float64) :
  shape matrix = [w; h; d] ->
  well_shaped matrix ->
  Forall (fun x => f64_is_nan (astype_float64 x) = false) (data matrix) ->
  percentile (np_map astype_float64 (mk_ndarray [(w * h)%nat; d] (data matrix))) 1 = Ok mins ->
  percentile (np_map astype_float64 (mk_ndarray [(w * h)%nat; d] (data matrix))) 99 = Ok p99 ->
  nondegenerate_percentiles d mins p99 ->
  exists r,
    scale_percentile astype_float64 matrix = Ok r /\
    shape r = shape matrix /\
    well_shaped r /\
    Forall in_unit_interval (data r).
Proof.
  intros Hsh Hws Hnan Hmins Hp99 (Smins & Lmins & Sp99 & Lp99 & Fmins & Fmaxs).
  unfold well_shaped in Hws. rewrite Hsh in Hws. simpl in Hws.
  assert (Hlen : length (data matrix) = (w * h * d)%nat) by lia.
  unfold scale_percentile. rewrite Hsh. simpl unpack3.
  cbn [mbind result_bind].
  rewrite (np_reshape_ok matrix) by (simpl; lia).
  cbn [mbind result_bind].
  rewrite Hmins, Hp99. cbn [mbind result_bind].
  unfold np_rowwise at 2. cbn [shape np_map]. rewrite Smins.
  rewrite Lmins, Nat.eqb_refl. cbn [andb mbind result_bind].
  unfold np_rowwise. cbn [shape data np_map np_map2]. rewrite Sp99.
  rewrite length_zip_with, Lmins, Lp99, Nat.min_id, Nat.eqb_refl.
  cbn [andb mbind result_bind].
  rewrite np_reshape_ok
    by (cbn [data np_map]; rewrite !length_imap, length_map; simpl; lia).
  cbn [mbind result_bind].
  eexists. split; [reflexivity|]. split; [reflexivity|].
  split.
  { unfold well_shaped. cbn [shape data np_map].
    rewrite length_map, !length_imap, length_map. simpl. lia. }
  cbn [data np_map].
  apply Forall_lookup. intros i v Hv.
  rewrite list_lookup_fmap in Hv.
  rewrite !list_lookup_imap in Hv.
  rewrite list_lookup_fmap in Hv.
  destruct (data matrix !! i) as [x|] eqn:Hx; [|discriminate].
  simpl in Hv. injection Hv as <-.
  assert (Hi : (i < w * h * d)%nat).
  { rewrite <- Hlen. eapply lookup_lt_Some, Hx. }
  assert (Hd : (d <> 0)%nat) by lia.
  assert (Hk : (i mod d < d)%nat) by (apply Nat.mod_upper_bound, Hd).
  apply f64_clip_in_range; [|vm_compute; reflexivity].
  apply f64_div_not_nan.
  - apply f64_sub_not_nan.
    + exact (proj1 (Forall_lookup _ _) Hnan i x Hx).
    + apply (nth_Forall (fun m => f64_is_finite m = true)); [assumption | lia].
  - apply (nth_Forall (fun m => f64_is_finite m = true /\ f64_is_zero m = false)
             _ _ _ Fmaxs).
    rewrite length_zip_with. lia.
  - apply (nth_Forall (fun m => f64_is_finite m = true /\ f64_is_zero m = false)
             _ _ _ Fmaxs).
    rewrite length_zip_with. lia.
Qed.

End ScalePercentileProps.

(** C10: for a three-dimensional array whose percentiles are not
    degenerate, [scale_percentile] returns an array of the same shape,
    with as many entries as the shape says (as many as the input has),
    whose every entry is in the closed interval from 0 to 1: so it is for
    an array of integers, as the image is, and for an array of any type
    whose elements convert to numbers (no NaN, for which the percentiles
    of numpy are NaN as well). *)
Theorem scale_percentile_in_unit_interval `{Numpy} :
  (forall (matrix : ndarray Z) (w h d : nat) (mins p99 : ndarray float64),
     shape matrix = [w; h; d] ->
     well_shaped matrix ->
     percentile (np_map f64_of_Z (mk_ndarray [(w * h)%nat; d] (data matrix))) 1 = Ok mins ->
     percentile (np_map f64_of_Z (mk_ndarray [(w * h)%nat; d] (data matrix))) 99 = Ok p99 ->
     nondegenerate_percentiles d mins p99 ->
     exists r,
       scale_percentile f64_of_Z matrix = Ok r /\
       shape r = shape matrix /\
       well_shaped r /\
       Forall in_unit_interval (data r)) /\
  (forall (A : Type) (astype_float64 : A -> float64)
          (matrix : ndarray A) (w h d : nat) (mins p99 : ndarray float64),
     shape matrix = [w; h; d] ->
     well_shaped matrix ->
     Forall (fun x => f64_is_nan (astype_float64 x) = false) (data matrix) ->
     percentile (np_map astype_float64 (mk_ndarray [(w * h)%nat; d] (data matrix))) 1 = Ok mins ->
     percentile (np_map astype_float64 (mk_ndarray [(w * h)%nat; d] (data matrix))) 99 = Ok p99 ->
     nondegenerate_percentiles d mins p99 ->
     exists r,
       scale_percentile astype_float64 matrix = Ok r /\
       shape r = shape matrix /\
       well_shaped r /\
       Forall in_unit_interval (data r)).
Proof.
  split.
  - intros matrix w h d mins p99 Hsh Hws Hmins Hp99 Hnd.
    apply (scale_percentile_clipped f64_of_Z matrix w h d mins p99); try assumption.
    apply Forall_forall. intros x _. apply f64_of_Z_not_nan.
  - intros A astype_float64. apply scale_percentile_clipped.
Qed.

(** ** [mask_for_polygons] *)

Lemma np_zeros_all_zero (sh : list nat) :
  shape (np_zeros sh) = sh /\ well_shaped (np_zeros sh) /\
  Forall (fun v => v = 0) (data (np_zeros sh)).
Proof.
  unfold np_zeros, well_shaped; simpl. split; [reflexivity|]. split.
  - apply length_replicate.
  - apply Forall_replicate. reflexivity.
Qed.

Lemma Forall2_painted (P : Z -> Prop) (color : Z) (old new : list Z) :
  Forall2 (fun o n => n = o \/ n = color) old new ->
  Forall P old -> P color -> Forall P new.
Proof.
  intros H2 Hold Hc. induction H2 as [|o n old new [-> | ->] _ IH];
    [constructor| |]; inversion Hold; subst; constructor; auto.
Qed.

(** C9: an empty polygon collection gives the all-zero mask of shape
    [im_size]; whenever [fillPoly] does what it promises, every mask
    [mask_for_polygons] returns has shape [im_size] and entries 0 or 1;
    and for a MultiPolygon, as the script passes, it does return a mask. *)
Theorem mask_for_polygons_is_binary_mask `{Cv2} `{Numpy} (im_size : list nat) :
  mask_for_polygons im_size (MultiPolygon []) = Ok (np_zeros im_size) /\
  (forall polygons, is_empty polygons = true ->
     mask_for_polygons im_size polygons = Ok (np_zeros im_size)) /\
  shape (np_zeros im_size) = im_size /\
  Forall (fun v => v = 0) (data (np_zeros im_size)) /\
  (fillPoly_paints _ ->
   forall polygons img_mask,
     mask_for_polygons im_size polygons = Ok img_mask ->
     shape img_mask = im_size /\ binary_mask img_mask) /\
  (forall ps, exists img_mask,
     mask_for_polygons im_size (MultiPolygon ps) = Ok img_mask).
Proof.
  destruct (np_zeros_all_zero im_size) as (Hs & _ & Hz).
  split; [reflexivity|].
  split; [intros polygons He; unfold mask_for_polygons; rewrite He; reflexivity|].
  split; [exact Hs|]. split; [exact Hz|].
  split;
    [|intros ps; unfold mask_for_polygons;
      destruct (is_empty (MultiPolygon ps)); eexists; reflexivity].
  intros Hpaint polygons img_mask Hm.
  assert (Hz01 : Forall (fun v => v = 0 \/ v = 1) (data (np_zeros im_size))).
  { eapply Forall_impl; [exact Hz|]. intros v ->. left; reflexivity. }
  unfold mask_for_polygons in Hm.
  destruct (is_empty polygons).
  { injection Hm as <-. split; assumption. }
  destruct (iter_polygons polygons) as [ps|e]; [|discriminate].
  cbn [mbind result_bind] in Hm. injection Hm as <-.
  set (exteriors := map _ ps). set (ints := flat_map _ ps).
  destruct (Hpaint (np_zeros im_size) exteriors 1) as [S1 P1].
  destruct (Hpaint (fillPoly (np_zeros im_size) exteriors 1) ints 0) as [S2 P2].
  split; [congruence|].
  unfold binary_mask.
  eapply Forall2_painted; [exact P2| |left; reflexivity].
  eapply Forall2_painted; [exact P1|exact Hz01|right; reflexivity].
Qed.

(** ** [mask_to_polygons]: parents, children, shells and holes *)

(** cutting a list into [n] pieces of [sz] elements and gluing them again *)
Lemma flat_map_chunks {A} (sz n : nat) (l : list A) :
  length l = (n * sz)%nat ->
  flat_map (fun i => take sz (drop (i * sz) l)) (seq 0 n) = l.
Proof.
  revert l. induction n as [|n IH]; intros l Hl.
  - destruct l; [reflexivity | discriminate].
  - simpl seq. rewrite <- seq_shift. simpl flat_map. rewrite drop_0.
    rewrite flat_map_concat_map, map_map, <- flat_map_concat_map.
    transitivity (take sz l ++ drop sz l); [|apply take_drop]. f_equal.
    rewrite <- (IH (drop sz l)) by (rewrite length_drop; lia).
    apply flat_map_ext. intros i. rewrite drop_drop.
    do 2 f_equal; lia.
Qed.

Lemma slice_axis1_first_contour (c : ndarray Z) :
  contour_shaped c -> slice_axis1_first c = Ok (drop_axis1 c).
Proof.
  intros (n & Hs & Hw). unfold well_shaped in Hw. rewrite Hs in Hw. simpl in Hw.
  unfold slice_axis1_first, drop_axis1. rewrite Hs. simpl Nat.eqb. cbv iota.
  do 2 f_equal. simpl size_of.
  etransitivity; [|apply (flat_map_chunks 2 n (data c)); lia].
  apply flat_map_ext. intros i. do 2 f_equal; lia.
Qed.

Lemma shape_at_contour (c : ndarray Z) :
  contour_shaped c -> shape_at c 1 = Ok 1%nat.
Proof. intros (n & Hs & _). unfold shape_at. rewrite Hs. reflexivity. Qed.

Lemma children_upto_S approx rows k p :
  children_upto approx rows (S k) p
  = children_upto approx rows k p
    ++ (if decide (parent_of rows k = Some p)
        then option_list (approx !! k) else []).
Proof.
  unfold children_upto. rewrite seq_S, omap_app. simpl. f_equal.
  destruct (decide _); [|reflexivity].
  destruct (approx !! k); reflexivity.
Qed.

Lemma children_upto_Forall (P : ndarray Z -> Prop) approx rows k p :
  Forall P approx -> Forall P (children_upto approx rows k p).
Proof.
  intros Ha. induction k as [|k IH]; [constructor|].
  rewrite children_upto_S. apply Forall_app. split; [exact IH|].
  destruct (decide _); [|constructor].
  destruct (approx !! k) as [c|] eqn:E; simpl; [|constructor].
  constructor; [|constructor].
  exact (proj1 (Forall_lookup _ _) Ha k c E).
Qed.

Lemma associate_children_recorded approx rows :
  length rows = length approx ->
  Forall (fun row => length row = 4%nat) rows ->
  forall post pre cc ch,
    rows = pre ++ post ->
    children_recorded approx rows (length pre) cc ch ->
    exists cc' ch',
      associate_children approx post (length pre) cc ch = Ok (cc', ch') /\
      children_recorded approx rows (length rows) cc' ch'.
Proof.
  intros Hlen Hrows.
  induction post as [|row post IH]; intros pre cc ch Hpre Hinv.
  - exists cc, ch. split; [reflexivity|].
    rewrite app_nil_r in Hpre. subst pre. exact Hinv.
  - assert (Hrow : rows !! length pre = Some row).
    { rewrite Hpre. apply list_lookup_middle. reflexivity. }
    assert (H4 : length row = 4%nat).
    { exact (proj1 (Forall_lookup _ _) Hrows _ _ Hrow). }
    destruct row as [|a [|b [|c [|p [|? ?]]]]]; try discriminate.
    assert (Hpar : parent_of rows (length pre) = Some p).
    { unfold parent_of. rewrite Hrow. reflexivity. }
    assert (Hk : (length pre < length approx)%nat).
    { rewrite <- Hlen. eapply lookup_lt_Some, Hrow. }
    destruct (lookup_lt_is_Some_2 approx _ Hk) as [cnt Hcnt].
    destruct Hinv as [Hch Hcc].
    assert (Hpre' : rows = (pre ++ [[a; b; c; p]]) ++ post).
    { rewrite <- app_assoc. exact Hpre. }
    assert (HS : length (pre ++ [[a; b; c; p]]) = S (length pre)).
    { rewrite length_app. simpl. lia. }
    simpl associate_children. cbn [unpack_parent mbind result_bind].
    destruct (Z.eqb p (-1)) eqn:Ep; cbn [negb].
    + apply Z.eqb_eq in Ep.
      rewrite <- HS. apply (IH _ _ _ Hpre').
      rewrite HS. split.
      * intros idx. rewrite Hch. split.
        -- intros [? ?]. split; [lia | assumption].
        -- intros [Hlt Hp]. split; [|assumption].
           destruct (decide (idx = length pre)) as [->|]; [|lia].
           unfold has_parent in Hp. rewrite Hpar, Ep in Hp. discriminate.
      * intros q Hq. rewrite children_upto_S, Hcc by assumption.
        rewrite decide_False by congruence. rewrite app_nil_r. reflexivity.
    + apply Z.eqb_neq in Ep.
      unfold list_item. rewrite Hcnt. cbn [mbind result_bind].
      rewrite <- HS. apply (IH _ _ _ Hpre').
      rewrite HS. split.
      * intros idx. rewrite elem_of_union, elem_of_singleton, Hch. split.
        -- intros [-> | [? ?]].
           ++ split; [lia|]. unfold has_parent. rewrite Hpar.
              apply negb_true_iff, Z.eqb_neq, Ep.
           ++ split; [lia | assumption].
        -- intros [Hlt Hp].
           destruct (decide (idx = length pre)) as [->|]; [left; reflexivity|].
           right. split; [lia | assumption].
      * intros q Hq. rewrite children_upto_S. unfold defaultdict_append.
        destruct (decide (q = p)) as [->|Hne].
        -- rewrite lookup_insert_eq. simpl.
           rewrite decide_True by assumption. rewrite Hcc, Hcnt by assumption.
           reflexivity.
        -- rewrite lookup_insert_ne by congruence.
           rewrite decide_False by congruence.
           rewrite app_nil_r. apply Hcc, Hq.
Qed.

Section MaskToPolygonsProps.
Context `{Cv2} `{Shapely}.

Lemma holes_of_filter (min_area : float64) (children : list (ndarray Z)) :
  Forall contour_shaped children ->
  holes_of min_area children
  = Ok (map drop_axis1 (List.filter (large_enough min_area) children)).
Proof.
  induction 1 as [|c children Hc _ IH]; [reflexivity|].
  simpl. unfold large_enough at 1.
  destruct (f64_ge (contourArea c) min_area); [|exact IH].
  rewrite (slice_axis1_first_contour c Hc), IH. reflexivity.
Qed.

Lemma shells_from_cons min_area approx rows idx cnt contours :
  shells_from min_area approx rows idx (cnt :: contours)
  = option_list (polygon_of_contour min_area approx rows idx cnt)
    ++ shells_from min_area approx rows (S idx) contours.
Proof.
  unfold shells_from. simpl.
  destruct (polygon_of_contour min_area approx rows idx cnt); reflexivity.
Qed.

Lemma has_parent_lt rows idx : has_parent rows idx = true -> (idx < length rows)%nat.
Proof.
  unfold has_parent, parent_of. intros Hp.
  destruct (rows !! idx) as [row|] eqn:E; [|discriminate].
  eapply lookup_lt_Some, E.
Qed.

Lemma ring_of_accepted (c : ndarray Z) :
  accepted c -> linear_ring (drop_axis1 c) = Ok (ring_of c).
Proof. intros [r Hr]. unfold ring_of. rewrite Hr. reflexivity. Qed.

Lemma linear_rings_accepted (cs : list (ndarray Z)) :
  Forall accepted cs -> linear_rings (map drop_axis1 cs) = Ok (map ring_of cs).
Proof.
  induction 1 as [|c cs Hc _ IH]; [reflexivity|].
  simpl. rewrite (ring_of_accepted c Hc), IH. reflexivity.
Qed.

Lemma filter_accepted (min_area : float64) (cs : list (ndarray Z)) :
  rings_accepted min_area cs -> Forall accepted (List.filter (large_enough min_area) cs).
Proof.
  induction 1 as [|c cs Hc _ IH]; simpl; [constructor|].
  destruct (large_enough min_area c) eqn:E; [constructor; auto | exact IH].
Qed.

(** the area filter is what makes shapely accept the contours *)
Lemma area_filter_protects_rings (min_area : float64) (cs : list (ndarray Z)) :
  f64_gt min_area (f64_of_Z 0) = true ->
  area_needs_three_points -> three_points_make_a_ring ->
  Forall contour_shaped cs -> rings_accepted min_area cs.
Proof.
  intros Hpos Harea Hring Hcs. unfold rings_accepted.
  eapply Forall_impl; [exact Hcs|]. intros c (n & Hs & _) Hlarge.
  destruct (le_lt_dec 3 n) as [Hn | Hn].
  - apply (Hring (drop_axis1 c) n); [|exact Hn].
    unfold drop_axis1. rewrite Hs. reflexivity.
  - exfalso. unfold large_enough, f64_ge in Hlarge.
    rewrite (Harea c n Hs Hn) in Hlarge.
    change (f64_of_Z 0) with (S754_zero false) in Hpos.
    unfold f64_gt, SFltb in Hpos. unfold SFleb in Hlarge.
    rewrite (SFcompare_swap (S754_zero false) min_area) in Hlarge.
    destruct (SFcompare (S754_zero false) min_area) as [[]|]; discriminate.
Qed.

Lemma create_polygons_shells min_area approx rows cc ch :
  children_recorded approx rows (length rows) cc ch ->
  Forall contour_shaped approx ->
  rings_accepted min_area approx ->
  forall contours idx,
    Forall contour_shaped contours ->
    rings_accepted min_area contours ->
    create_polygons min_area cc ch contours idx
    = Ok (shells_from min_area approx rows idx contours).
Proof.
  intros [Hch Hcc] Happrox Hacc contours.
  induction contours as [|cnt contours IH]; intros idx Hcs Hrs; [reflexivity|].
  inversion Hcs as [|? ? Hcnt Hcs']; subst.
  inversion Hrs as [|? ? Hr Hrs']; subst.
  rewrite shells_from_cons. simpl create_polygons.
  assert (Hin : bool_decide (idx ∉ ch) = negb (has_parent rows idx)).
  { destruct (has_parent rows idx) eqn:Hp; simpl.
    - apply bool_decide_eq_false. intros Hn. apply Hn, Hch.
      split; [apply has_parent_lt, Hp | exact Hp].
    - apply bool_decide_eq_true. intros Hi. apply Hch in Hi.
      destruct Hi as [_ Hi]. congruence. }
  rewrite Hin. unfold polygon_of_contour.
  change (f64_ge (contourArea cnt) min_area) with (large_enough min_area cnt).
  destruct (negb (has_parent rows idx) && large_enough min_area cnt) eqn:Etest.
  - apply andb_true_iff in Etest. destruct Etest as [_ Hlarge].
    rewrite (shape_at_contour cnt Hcnt). cbn [mbind result_bind assert Nat.eqb].
    rewrite (slice_axis1_first_contour cnt Hcnt). cbn [mbind result_bind].
    rewrite Hcc by lia.
    rewrite holes_of_filter by (apply children_upto_Forall, Happrox).
    cbn [mbind result_bind]. unfold Polygon_of.
    rewrite (ring_of_accepted cnt (Hr Hlarge)). cbn [mbind result_bind].
    rewrite linear_rings_accepted
      by (apply filter_accepted, children_upto_Forall, Hacc).
    cbn [mbind result_bind]. rewrite (IH _ Hcs' Hrs'). reflexivity.
  - rewrite (IH _ Hcs' Hrs'). reflexivity.
Qed.

Lemma elem_of_children_upto approx rows k p c :
  c ∈ children_upto approx rows k p <->
  exists j, (j < k)%nat /\ parent_of rows j = Some p /\ approx !! j = Some c.
Proof.
  unfold children_upto. rewrite list_elem_of_omap. split.
  - intros (j & Hj & Hc). apply elem_of_seq in Hj.
    destruct (decide _); [|discriminate]. exists j. split; [lia|]. auto.
  - intros (j & Hj & Hp & Hc). exists j. split; [apply elem_of_seq; lia|].
    rewrite decide_True by assumption. exact Hc.
Qed.

Lemma elem_of_shells_from min_area approx rows contours idx poly :
  poly ∈ shells_from min_area approx rows idx contours <->
  exists i cnt, contours !! i = Some cnt /\
    polygon_of_contour min_area approx rows (idx + i) cnt = Some poly.
Proof.
  revert idx. induction contours as [|c contours IH]; intros idx.
  - unfold shells_from. simpl. split; [intros Hp; inversion Hp|].
    intros (i & cnt & Hc & _). discriminate.
  - rewrite shells_from_cons, elem_of_app, IH. split.
    + intros [Hp | (i & cnt & Hc & Hp)].
      * exists 0%nat, c. split; [reflexivity|]. rewrite Nat.add_0_r.
        destruct (polygon_of_contour _ _ _ idx c); simpl in Hp;
          [apply list_elem_of_singleton in Hp; congruence | inversion Hp].
      * exists (S i), cnt. split; [exact Hc|].
        rewrite <- Hp. f_equal. lia.
    + intros ([|i] & cnt & Hc & Hp).
      * left. simpl in Hc. injection Hc as ->. rewrite Nat.add_0_r in Hp.
        rewrite Hp. simpl. apply list_elem_of_singleton. reflexivity.
      * right. exists i, cnt. split; [exact Hc|].
        rewrite <- Hp. f_equal. lia.
Qed.

(** C1: on what [findContours] and [approxPolyDP] hand over (a hierarchy
    of one plane with a row of four per contour, contours of shape
    (n, 1, 2)), shapely building a ring from every contour that passes the
    area filter, both loops run through, and
    - the first loop puts every contour with [parent_idx != -1], and no
      other, into [child_contours], and appends it to the children of
      that parent;
    - the polygons built are, in the order of the contours, one per
      contour that has no parent and whose area is at least [min_area],
      with that contour as shell: a child is never a shell, and the holes
      of a polygon are the children of its shell whose own area is at least
      [min_area];
    - [mask_to_polygons] returns the MultiPolygon of these polygons, after
      the validity fix. *)
Theorem contours_become_shells_and_holes
  (mask : ndarray bool) (epsilon min_area : float64)
  (rows : list (list Z)) :
  let '(_, contours, hierarchy) :=
    findContours (np_map mask_to_uint8 mask) RETR_CCOMP CHAIN_APPROX_TC89_KCOS in
  let approx_contours := map (fun cnt => approxPolyDP cnt epsilon true) contours in
  contours <> [] ->
  hierarchy_shaped hierarchy rows (length approx_contours) ->
  Forall contour_shaped approx_contours ->
  rings_accepted min_area approx_contours ->
  (exists cnt_children child_contours,
     associate_children approx_contours rows 0 ∅ ∅ = Ok (cnt_children, child_contours) /\
     (forall idx, idx ∈ child_contours <-> has_parent rows idx = true) /\
     (forall idx parent_idx c,
        parent_of rows idx = Some parent_idx -> parent_idx <> -1 ->
        approx_contours !! idx = Some c ->
        idx ∈ child_contours /\ c ∈ default [] (cnt_children !! parent_idx)) /\
     (forall parent_idx, parent_idx <> -1 ->
        default [] (cnt_children !! parent_idx)
        = children_of approx_contours rows parent_idx)) /\
  all_polygons_of min_area approx_contours hierarchy
  = Ok (shells_spec min_area approx_contours rows) /\
  (forall poly, poly ∈ shells_spec min_area approx_contours rows <->
     exists idx cnt,
       approx_contours !! idx = Some cnt /\
       has_parent rows idx = false /\
       f64_ge (contourArea cnt) min_area = true /\
       poly = mk_polygon (ring_of cnt)
                (map ring_of
                   (List.filter (fun c => f64_ge (contourArea c) min_area)
                      (children_of approx_contours rows (Z.of_nat idx))))) /\
  mask_to_polygons mask epsilon min_area
  = Ok (fix_validity (MultiPolygon (shells_spec min_area approx_contours rows))).
Proof.
  unfold mask_to_polygons.
  destruct (findContours _ _ _) as [[image contours] hierarchy].
  set (approx := map _ contours).
  intros Hne (Hh & Hlen & Hrows) Happrox Hacc.
  destruct (associate_children_recorded approx rows Hlen Hrows rows [] ∅ ∅ eq_refl)
    as (cc & ch & Hassoc & Hrec).
  { split.
    - intros idx. split; [intros Hi; inversion Hi | simpl; lia].
    - intros p _. reflexivity. }
  simpl length in Hassoc.
  assert (Hch : forall idx, idx ∈ ch <-> has_parent rows idx = true).
  { intros idx. rewrite (proj1 Hrec idx). split; [tauto|].
    intros Hp. split; [apply has_parent_lt, Hp | exact Hp]. }
  assert (Hall : all_polygons_of min_area approx hierarchy
                 = Ok (shells_spec min_area approx rows)).
  { unfold all_polygons_of. rewrite Hh. cbn [length Nat.eqb assert mbind result_bind].
    unfold list_item. cbn [lookup list_lookup mbind result_bind].
    rewrite Hassoc. cbn [mbind result_bind].
    apply (create_polygons_shells min_area approx rows cc ch Hrec Happrox Hacc
             approx 0 Happrox Hacc). }
  split; [|split; [exact Hall|split]].
  - exists cc, ch. split; [exact Hassoc|]. split; [exact Hch|]. split.
    + intros idx p c Hp Hp1 Hc. split.
      * apply Hch. unfold has_parent. rewrite Hp.
        apply negb_true_iff, Z.eqb_neq, Hp1.
      * rewrite (proj2 Hrec p Hp1). apply elem_of_children_upto.
        exists idx. split; [|auto].
        unfold parent_of in Hp. destruct (rows !! idx) eqn:E; [|discriminate].
        eapply lookup_lt_Some, E.
    + exact (proj2 Hrec).
  - intros poly. unfold shells_spec. rewrite elem_of_shells_from. simpl.
    split.
    + intros (i & cnt & Hc & Hp). exists i, cnt. split; [exact Hc|].
      unfold polygon_of_contour, large_enough in Hp.
      destruct (has_parent rows i); [discriminate|].
      destruct (f64_ge (contourArea cnt) min_area); [|discriminate].
      simpl in Hp. injection Hp as <-. auto.
    + intros (i & cnt & Hc & Hp & Ha & ->). exists i, cnt. split; [exact Hc|].
      unfold polygon_of_contour, large_enough. rewrite Hp, Ha. reflexivity.
  - destruct contours as [|c0 contours]; [contradiction|].
    rewrite Hall. reflexivity.
Qed.

End MaskToPolygonsProps.

(** ** [mask_to_polygons]: the type of the result *)

Section ResultTypeProps.
Context `{Cv2} `{Shapely}.

Lemma fix_validity_not_Polygon (ps : list polygon) (p : polygon) :
  fix_validity (MultiPolygon ps) <> Polygon p.
Proof.
  unfold fix_validity. destruct (is_valid (MultiPolygon ps)); cbn [negb]; [discriminate|].
  destruct (buffer (MultiPolygon ps) (f64_of_Z 0)) as [q|qs|gs|t e]; discriminate.
Qed.

Lemma fix_validity_MultiPolygon (ps : list polygon) :
  polygonal (buffer (MultiPolygon ps) (f64_of_Z 0)) ->
  is_MultiPolygon (fix_validity (MultiPolygon ps)).
Proof.
  unfold fix_validity, is_MultiPolygon.
  destruct (is_valid (MultiPolygon ps)); cbn [negb]; [eauto|].
  destruct (buffer (MultiPolygon ps) (f64_of_Z 0)) as [p|qs|gs|t e]; cbn [polygonal]; eauto;
    intros [].
Qed.

(** what the validity fix returns: a MultiPolygon, or what [buffer] made
    where that is not made of polygons *)
Lemma fix_validity_cases (ps : list polygon) :
  is_MultiPolygon (fix_validity (MultiPolygon ps)) \/
  (is_valid (MultiPolygon ps) = false /\
   fix_validity (MultiPolygon ps) = buffer (MultiPolygon ps) (f64_of_Z 0) /\
   ~ polygonal (buffer (MultiPolygon ps) (f64_of_Z 0))).
Proof.
  unfold fix_validity, is_MultiPolygon.
  destruct (is_valid (MultiPolygon ps)); cbn [negb]; [eauto|].
  destruct (buffer (MultiPolygon ps) (f64_of_Z 0)) as [p|qs|gs|t e]; eauto;
    right; repeat split; auto.
Qed.

(** what [mask_to_polygons] returns, by what the two loops have built *)
Lemma mask_to_polygons_returned (mask : ndarray bool) (epsilon min_area : float64)
  (g : geometry) :
  mask_to_polygons mask epsilon min_area = Ok g ->
  g = MultiPolygon [] \/
  exists ps,
    all_polygons_of min_area
      (map (fun cnt => approxPolyDP cnt epsilon true)
         (snd (fst (findContours (np_map mask_to_uint8 mask)
                      RETR_CCOMP CHAIN_APPROX_TC89_KCOS))))
      (snd (findContours (np_map mask_to_uint8 mask) RETR_CCOMP CHAIN_APPROX_TC89_KCOS))
    = Ok ps /\
    g = fix_validity (MultiPolygon ps).
Proof.
  unfold mask_to_polygons.
  destruct (findContours _ _ _) as [[image contours] hierarchy]. cbn [fst snd].
  destruct contours as [|c0 contours].
  - intros [= <-]. left. reflexivity.
  - destruct (all_polygons_of _ _ _) as [ps|e]; cbn [mbind result_bind]; [|discriminate].
    intros [= <-]. right. exists ps. split; reflexivity.
Qed.

(** C8: of the class of what [mask_to_polygons] returns (the script reads
    [.type] of what [buffer] has made only, where it names the class).
    With [contours] and [hierarchy] what [findContours] hands over:
    - what is returned is never a bare Polygon;
    - with no contour, it is the empty MultiPolygon;
    - where the polygons the loops have built are not valid and
      [buffer(0)] makes one Polygon of them, what is returned is the
      MultiPolygon of that one polygon;
    - what is returned is a MultiPolygon, unless the polygons built are
      not valid and [buffer(0)] makes of them what is neither a Polygon
      nor a MultiPolygon, which is then returned as it is;
    - so with [buffer] making polygons, as it promises, whatever is
      returned is a MultiPolygon;
    - and on what [findContours] and [approxPolyDP] hand over, shapely
      building a ring from every contour that passes the area filter,
      [mask_to_polygons] does return, and with [buffer] making polygons
      it returns a MultiPolygon. *)
Theorem mask_to_polygons_returns_MultiPolygon
  (mask : ndarray bool) (epsilon min_area : float64) :
  let found := findContours (np_map mask_to_uint8 mask) RETR_CCOMP CHAIN_APPROX_TC89_KCOS in
  let contours := snd (fst found) in
  let hierarchy := snd found in
  let approx_contours := map (fun cnt => approxPolyDP cnt epsilon true) contours in
  (forall g p, mask_to_polygons mask epsilon min_area = Ok g -> g <> Polygon p) /\
  (contours = [] -> mask_to_polygons mask epsilon min_area = Ok (MultiPolygon [])) /\
  (forall ps p,
     contours <> [] ->
     all_polygons_of min_area approx_contours hierarchy = Ok ps ->
     is_valid (MultiPolygon ps) = false ->
     buffer (MultiPolygon ps) (f64_of_Z 0) = Polygon p ->
     mask_to_polygons mask epsilon min_area = Ok (MultiPolygon [p])) /\
  (forall g, mask_to_polygons mask epsilon min_area = Ok g ->
     is_MultiPolygon g \/
     exists ps,
       all_polygons_of min_area approx_contours hierarchy = Ok ps /\
       is_valid (MultiPolygon ps) = false /\
       g = buffer (MultiPolygon ps) (f64_of_Z 0) /\
       ~ polygonal g) /\
  (buffer_polygonal _ ->
   forall g, mask_to_polygons mask epsilon min_area = Ok g -> is_MultiPolygon g) /\
  (forall rows,
     hierarchy_shaped hierarchy rows (length approx_contours) ->
     Forall contour_shaped approx_contours ->
     rings_accepted min_area approx_contours ->
     (exists g, mask_to_polygons mask epsilon min_area = Ok g) /\
     (buffer_polygonal _ ->
      exists ps, mask_to_polygons mask epsilon min_area = Ok (MultiPolygon ps))).
Proof.
  cbv zeta.
  assert (Hcases : forall g, mask_to_polygons mask epsilon min_area = Ok g ->
            is_MultiPolygon g \/
            exists ps,
              all_polygons_of min_area
                (map (fun cnt => approxPolyDP cnt epsilon true)
                   (snd (fst (findContours (np_map mask_to_uint8 mask)
                                RETR_CCOMP CHAIN_APPROX_TC89_KCOS))))
                (snd (findContours (np_map mask_to_uint8 mask)
                        RETR_CCOMP CHAIN_APPROX_TC89_KCOS)) = Ok ps /\
              is_valid (MultiPolygon ps) = false /\
              g = buffer (MultiPolygon ps) (f64_of_Z 0) /\
              ~ polygonal g).
  { intros g Hg. destruct (mask_to_polygons_returned mask epsilon min_area g Hg)
      as [-> | (ps & Hps & ->)]; [left; exists []; reflexivity|].
    destruct (fix_validity_cases ps) as [Hm | (Hv & Hfix & Hnp)]; [left; exact Hm|].
    right. exists ps. rewrite Hfix. repeat split; assumption. }
  split; [|split; [|split; [|split; [|split]]]].
  - intros g p Hg.
    destruct (mask_to_polygons_returned mask epsilon min_area g Hg)
      as [-> | (ps & _ & ->)]; [discriminate | apply fix_validity_not_Polygon].
  - unfold mask_to_polygons.
    destruct (findContours _ _ _) as [[image contours] hierarchy]. cbn [fst snd].
    intros ->. reflexivity.
  - intros ps p. unfold mask_to_polygons.
    destruct (findContours _ _ _) as [[image contours] hierarchy]. cbn [fst snd].
    intros Hne Hps Hv Hb.
    destruct contours as [|c0 contours]; [exfalso; apply Hne; reflexivity|].
    rewrite Hps. cbn [mbind result_bind]. unfold fix_validity. rewrite Hv, Hb. reflexivity.
  - exact Hcases.
  - intros Hbuf g Hg.
    destruct (Hcases g Hg) as [Hm | (ps & _ & _ & -> & Hnp)]; [exact Hm|].
    exfalso. apply Hnp, Hbuf.
  - intros rows Hh Happrox Hacc.
    assert (Hret : exists g, mask_to_polygons mask epsilon min_area = Ok g);
      [|split; [exact Hret|]; intros Hbuf; destruct Hret as [g Hg];
        destruct (Hcases g Hg) as [[ps ->] | (ps & _ & _ & -> & Hnp)];
        [exists ps; exact Hg | exfalso; apply Hnp, Hbuf]].
    revert Hh Happrox Hacc.
    unfold mask_to_polygons.
    destruct (findContours _ _ _) as [[image contours] hierarchy] eqn:Efc. cbn [fst snd].
    intros Hh Happrox Hacc.
    destruct contours as [|c0 contours]; [eexists; reflexivity|].
    set (approx := map _ (c0 :: contours)) in *.
    destruct Hh as (Hh & Hlen & Hrows).
    destruct (associate_children_recorded approx rows Hlen Hrows rows [] ∅ ∅ eq_refl)
      as (cc & ch & Hassoc & Hrec).
    { split.
      - intros idx. split; [intros Hi; inversion Hi | simpl; lia].
      - intros p _. reflexivity. }
    simpl length in Hassoc.
    unfold all_polygons_of. rewrite Hh. cbn [length Nat.eqb assert mbind result_bind].
    unfold list_item. cbn [lookup list_lookup mbind result_bind].
    rewrite Hassoc. cbn [mbind result_bind].
    rewrite (create_polygons_shells min_area approx rows cc ch Hrec Happrox Hacc
               approx 0 Happrox Hacc).
    cbn [mbind result_bind]. eexists. reflexivity.
Qed.

End ResultTypeProps.

(** ** The script as a whole *)

Section ScriptProps.
Context `{Python} `{Tifffile} `{Numpy} `{Cv2} `{Shapely} `{Sklearn}.

Lemma bind_io_unfold {A B} (m : io A) (k : A -> io B) (w : world) :
  (m ≫= k) w = match m w with
               | (w', Ok a) => k a w'
               | (w', Raise e) => (w', Raise e)
               end.
Proof. reflexivity. Qed.

Lemma bind_io_assoc {A B C} (m : io A) (f : A -> io B) (g : B -> io C) (w : world) :
  ((m ≫= f) ≫= g) w = (m ≫= (fun a => f a ≫= g)) w.
Proof.
  rewrite !bind_io_unfold. destruct (m w) as [w' [a|e]]; reflexivity.
Qed.

Lemma bind_io_ext {A B} (m : io A) (f g : A -> io B) (w : world) :
  (forall a w', f a w' = g a w') -> (m ≫= f) w = (m ≫= g) w.
Proof.
  intros Hfg. rewrite !bind_io_unfold. destruct (m w) as [w' [a|e]]; auto.
Qed.

Lemma bind_io_ret {A B} (a : A) (k : A -> io B) (w : world) :
  (mret a ≫= k) w = k a w.
Proof. reflexivity. Qed.

Ltac io_step :=
  first
    [ rewrite bind_io_assoc
    | rewrite bind_io_ret
    | apply bind_io_ext; intros ? ? ].

Lemma script_is_pipeline (w : world) : script w = pipeline w.
Proof.
  unfold script, pipeline, after_load,
    stage_load, stage_rasterize, stage_train, stage_predict, stage_threshold,
    stage_vectorize, stage_score.
  symmetry.
  repeat io_step.
  reflexivity.
Qed.

(** *** what the script does on its channels *)

Lemma follows_ret {A} (a : A) : follows (mret a : io A) [].
Proof.
  intros w. cbn. repeat split. exists []. rewrite app_nil_r. split; reflexivity.
Qed.

Lemma follows_lift {A} (m : result A) : follows (lift m) [].
Proof.
  intros w. cbn. repeat split. exists []. rewrite app_nil_r. split; [reflexivity|].
  destruct m; [reflexivity | apply prefix_nil].
Qed.

Lemma follows_log (e : event) : follows (log e) [kind_of e].
Proof.
  intros w. cbn. repeat split. exists [e]. split; reflexivity.
Qed.

Lemma follows_print (args : list pyval) : follows (print args) [KPrint].
Proof. apply (follows_log (Print args)). Qed.

Lemma follows_plt_show : follows plt_show [KPltShow].
Proof. apply (follows_log PltShow). Qed.

Lemma follows_open (path : string) : follows (open_ path) [KRead path].
Proof.
  intros w. unfold open_. destruct (files w !! path); cbn; repeat split.
  - exists [Read path]. split; reflexivity.
  - exists []. rewrite app_nil_r. split; [reflexivity | apply prefix_nil].
Qed.

Lemma follows_bind {A B} (m : io A) (k : A -> io B) (ks1 ks2 : list event_kind) :
  follows m ks1 -> (forall a, follows (k a) ks2) -> follows (m ≫= k) (ks1 ++ ks2).
Proof.
  intros Hm Hk w. rewrite bind_io_unfold.
  destruct (Hm w) as (F1 & A1 & E1 & evs1 & T1 & R1).
  destruct (m w) as [w1 [a|e]]; cbn [fst snd] in *.
  - destruct (Hk a w1) as (F2 & A2 & E2 & evs2 & T2 & R2).
    destruct (k a w1) as [w2 r]; cbn [fst snd] in *.
    repeat split; try congruence.
    exists (evs1 ++ evs2). split; [rewrite T2, T1, app_assoc; reflexivity|].
    rewrite map_app, R1. destruct r; [congruence | apply prefix_app, R2].
  - repeat split; try assumption.
    exists evs1. split; [assumption | apply prefix_app_r, R1].
Qed.

Lemma follows_eq {A} (m : io A) (ks ks' : list event_kind) :
  follows m ks -> ks = ks' -> follows m ks'.
Proof. intros Hm <-. exact Hm. Qed.

Ltac follows_step :=
  match goal with
  | |- follows (mret _) _ => apply follows_ret
  | |- follows (lift _) _ => apply follows_lift
  | |- follows (log _) _ => apply follows_log
  | |- follows (print _) _ => apply follows_print
  | |- follows plt_show _ => apply follows_plt_show
  | |- follows (open_ _) _ => apply follows_open
  | |- follows (_ ≫= _) _ => eapply follows_bind; [|intros ?]
  | |- follows (let _ := _ in _) _ => cbv zeta
  end.

Ltac follows_tac := eapply follows_eq; [repeat follows_step | reflexivity].

Lemma follows_tiff_imread (path : string) : follows (tiff_imread path) [KRead path].
Proof. unfold tiff_imread. follows_tac. Qed.

Lemma follows_imshow (img : image_data) : follows (imshow img) [KImshow].
Proof. unfold imshow. follows_tac. Qed.

Lemma follows_show_mask {A} (f : ndarray A -> image_data) (m : ndarray A) :
  follows (show_mask f m) [KImshow; KPltShow].
Proof.
  unfold show_mask. eapply follows_eq.
  - eapply follows_bind; [apply follows_imshow | intros ?; apply follows_plt_show].
  - reflexivity.
Qed.

Ltac follows_step' :=
  first
    [ apply follows_tiff_imread
    | apply follows_imshow
    | apply follows_show_mask
    | follows_step ].

Ltac follows_tac' := eapply follows_eq; [repeat follows_step' | reflexivity].

Lemma follows_stage_load : follows stage_load load_kinds.
Proof. unfold stage_load. follows_tac'. Qed.

Lemma follows_stage_rasterize l : follows (stage_rasterize l) rasterize_kinds.
Proof. unfold stage_rasterize. follows_tac'. Qed.

Lemma follows_stage_train l r : follows (stage_train l r) train_kinds.
Proof. unfold stage_train. follows_tac'. Qed.

Lemma follows_stage_predict r t : follows (stage_predict r t) predict_kinds.
Proof. unfold stage_predict. follows_tac'. Qed.

Lemma follows_stage_threshold r pm : follows (stage_threshold r pm) threshold_kinds.
Proof. unfold stage_threshold. follows_tac'. Qed.

Lemma follows_stage_vectorize r bm : follows (stage_vectorize r bm) vectorize_kinds.
Proof. unfold stage_vectorize. follows_tac'. Qed.

Lemma follows_stage_score r pp : follows (stage_score r pp) score_kinds.
Proof. unfold stage_score. follows_tac'. Qed.

Lemma follows_after_load l :
  follows (after_load l)
    (rasterize_kinds ++ train_kinds ++ predict_kinds
     ++ threshold_kinds ++ vectorize_kinds ++ score_kinds).
Proof.
  unfold after_load.
  apply follows_bind; [apply follows_stage_rasterize | intros r].
  apply follows_bind; [apply follows_stage_train | intros t].
  apply follows_bind; [apply follows_stage_predict | intros pm].
  apply follows_bind; [apply follows_stage_threshold | intros bm].
  eapply follows_eq.
  - apply follows_bind; [apply follows_stage_vectorize | intros pp].
    apply follows_stage_score.
  - reflexivity.
Qed.

Lemma follows_pipeline : follows pipeline script_kinds.
Proof.
  unfold pipeline, script_kinds.
  apply follows_bind; [apply follows_stage_load | intros l].
  apply follows_after_load.
Qed.

Lemma follows_script : follows script script_kinds.
Proof.
  intros w. rewrite script_is_pipeline. apply follows_pipeline.
Qed.

(** *** the command line and the environment do not matter *)








(** *** running the loading stage *)

Lemma bind_lift {A B} (m : result A) (k : A -> io B) (w : world) :
  (lift m ≫= k) w = match m with
                    | Ok a => k a w
                    | Raise e => (w, Raise e)
                    end.
Proof. rewrite bind_io_unfold. destruct m; reflexivity. Qed.

Lemma bind_open {B} (path : string) (k : string -> io B) (w : world) :
  (open_ path ≫= k) w
  = match files w !! path with
    | Some content =>
        k content (mk_world (files w) (argv w) (environ w) (trace w ++ [Read path]))
    | None => (w, Raise (FileNotFoundError path))
    end.
Proof. rewrite bind_io_unfold. unfold open_. destruct (files w !! path); reflexivity. Qed.

(** a run of the loading stage that returns has found the three files and
    got through the two loops, the decoder and the transposition *)
Lemma stage_load_returns (w w1 : world) (l : loaded) :
  stage_load w = (w1, Ok l) ->
  exists cg cp ct im,
    files w !! grid_sizes_path = Some cg /\
    files w !! train_wkt_path = Some cp /\
    files w !! image_path = Some ct /\
    load_grid_size (csv_reader cg) = Ok (l_grid l) /\
    load_train_polygons (csv_reader cp) = Ok (l_train_polygons l) /\
    tiff_decode ct = Ok im /\
    np_transpose_120 im = Ok (l_im_rgb l) /\
    trace w1 = trace w ++ [Read grid_sizes_path; Read train_wkt_path; Read image_path].
Proof.
  unfold stage_load, tiff_imread. intros Hl.
  rewrite bind_lift in Hl.
  destruct (csv_field_size_limit sys_maxsize) as [old|e]; [|discriminate].
  rewrite bind_open in Hl.
  destruct (files w !! grid_sizes_path) as [cg|] eqn:Eg; [|discriminate].
  rewrite bind_lift in Hl.
  destruct (load_grid_size (csv_reader cg)) as [grid|e] eqn:Egrid; [|discriminate].
  rewrite bind_open in Hl. cbn [files] in Hl.
  destruct (files w !! train_wkt_path) as [cp|] eqn:Ep; [|discriminate].
  rewrite bind_lift in Hl.
  destruct (load_train_polygons (csv_reader cp)) as [tp|e] eqn:Etp; [|discriminate].
  rewrite bind_io_assoc, bind_open in Hl. cbn [files] in Hl.
  destruct (files w !! image_path) as [ct|] eqn:Et; [|discriminate].
  rewrite bind_lift in Hl.
  destruct (tiff_decode ct) as [im|e] eqn:Eim; [|discriminate].
  rewrite bind_lift in Hl.
  destruct (np_transpose_120 im) as [im_rgb|e] eqn:Etr; [|discriminate].
  cbn in Hl. injection Hl as <- <-. cbn.
  exists cg, cp, ct, im. repeat split; try assumption.
  rewrite <- !app_assoc. reflexivity.
Qed.

Lemma pipeline_load_raises (w w1 : world) (e : exn) :
  stage_load w = (w1, Raise e) -> script w = (w1, Raise e).
Proof.
  intros Hl. rewrite script_is_pipeline. unfold pipeline.
  rewrite bind_io_unfold, Hl. reflexivity.
Qed.

Lemma pipeline_rasterize_raises (w w1 w2 : world) (l : loaded) (e : exn) :
  stage_load w = (w1, Ok l) -> stage_rasterize l w1 = (w2, Raise e) ->
  script w = (w2, Raise e).
Proof.
  intros Hl Hr. rewrite script_is_pipeline. unfold pipeline, after_load.
  rewrite bind_io_unfold, Hl. rewrite bind_io_unfold, Hr. reflexivity.
Qed.

Lemma get_scalers_None (im_size : list nat) : raises (get_scalers im_size None).
Proof.
  unfold raises, get_scalers.
  destruct im_size as [|h [|w [|? ?]]]; eauto.
Qed.

Lemma stage_rasterize_no_grid (l : loaded) (w : world) :
  l_grid l = None -> raises (snd (stage_rasterize l w)).
Proof.
  intros Hg. unfold stage_rasterize. cbv zeta. rewrite bind_lift, Hg.
  destruct (get_scalers_None (take 2 (shape (l_im_rgb l)))) as [e ->].
  exists e. reflexivity.
Qed.

Lemma stage_rasterize_no_polygons (l : loaded) (w : world) :
  l_train_polygons l = None -> raises (snd (stage_rasterize l w)).
Proof.
  intros Hp. unfold stage_rasterize. cbv zeta. rewrite bind_lift.
  destruct (get_scalers _ _) as [scalers|e]; [|exists e; reflexivity].
  rewrite bind_lift, Hp. exists AttributeError. reflexivity.
Qed.

Lemma script_raises_after_load (w : world) :
  (forall w1 l, stage_load w = (w1, Ok l) -> raises (snd (stage_rasterize l w1))) ->
  raises (snd (script w)).
Proof.
  intros Hr. destruct (stage_load w) as [w1 [l|e]] eqn:Hl.
  - destruct (Hr w1 l eq_refl) as [e He].
    destruct (stage_rasterize l w1) as [w2 r] eqn:Er. cbn in He. subst r.
    rewrite (pipeline_rasterize_raises w w1 w2 l e Hl Er). exists e. reflexivity.
  - rewrite (pipeline_load_raises w w1 e Hl). exists e. reflexivity.
Qed.

(** the loops find nothing where no row is for the image *)
Lemma load_grid_size_no_row (rows : list (list string)) g :
  Forall (fun row => ~ row_of_image row) rows ->
  load_grid_size rows = Ok g -> g = None.
Proof.
  induction 1 as [|row rows Hrow _ IH]; simpl; [congruence|].
  destruct row as [|i [|x [|y [|? ?]]]]; try discriminate.
  destruct (String.eqb i IM_ID) eqn:E; [|exact IH].
  apply String.eqb_eq in E. subst i. exfalso. apply Hrow. reflexivity.
Qed.

Lemma load_train_polygons_no_row (rows : list (list string)) g :
  Forall (fun row => ~ row_of_image row) rows ->
  load_train_polygons rows = Ok g -> g = None.
Proof.
  induction 1 as [|row rows Hrow _ IH]; simpl; [congruence|].
  destruct row as [|i [|t [|p [|? ?]]]]; try discriminate.
  destruct (String.eqb i IM_ID) eqn:E; [|exact IH].
  apply String.eqb_eq in E. subst i. exfalso. apply Hrow. reflexivity.
Qed.

(** the polygons loop hands the first selected row to [wkt.loads] *)
Lemma load_train_polygons_malformed (before rest : list (list string))
  (_im_id _poly_type _poly : string) :
  Forall (fun row => selected row = false) before ->
  selected [_im_id; _poly_type; _poly] = true ->
  raises (wkt_loads _poly) ->
  raises (load_train_polygons (before ++ [_im_id; _poly_type; _poly] :: rest)).
Proof.
  intros Hb Hs [e He]. induction Hb as [|row before Hrow _ IH]; simpl.
  - simpl in Hs. rewrite Hs, He. exists e. reflexivity.
  - destruct row as [|i [|t [|p [|? ?]]]]; try (eexists; reflexivity).
    simpl in Hrow. rewrite Hrow. exact IH.
Qed.

(** *** the claims on the script as a whole *)





(** C3: a missing input file, a grid-sizes file or a polygons file
    without a row for the image, and a polygon field [wkt.loads] rejects
    each make the script raise; nothing catches an exception: the script
    ends with the exception of the stage that raised it, and with a
    missing grid-sizes file that is the [FileNotFoundError] of [open]. *)
Theorem load_failures_end_the_script (w : world) :
  (files w !! grid_sizes_path = None \/ files w !! train_wkt_path = None \/
   files w !! image_path = None ->
   raises (snd (script w))) /\
  (forall cg, files w !! grid_sizes_path = Some cg ->
     Forall (fun row => ~ row_of_image row) (csv_reader cg) ->
     raises (snd (script w))) /\
  (forall cp, files w !! train_wkt_path = Some cp ->
     Forall (fun row => ~ row_of_image row) (csv_reader cp) ->
     raises (snd (script w))) /\
  (forall cp before _im_id _poly_type _poly rest,
     files w !! train_wkt_path = Some cp ->
     csv_reader cp = before ++ [_im_id; _poly_type; _poly] :: rest ->
     Forall (fun row => selected row = false) before ->
     selected [_im_id; _poly_type; _poly] = true ->
     raises (wkt_loads _poly) ->
     raises (snd (script w))) /\
  (forall old, csv_field_size_limit sys_maxsize = Ok old ->
     files w !! grid_sizes_path = None ->
     script w = (w, Raise (FileNotFoundError grid_sizes_path))) /\
  (forall w1 e, stage_load w = (w1, Raise e) -> script w = (w1, Raise e)) /\
  (forall w1 w2 l e, stage_load w = (w1, Ok l) ->
     stage_rasterize l w1 = (w2, Raise e) -> script w = (w2, Raise e)).
Proof.
  assert (Hload : forall P : Prop,
            (forall w1 l, stage_load w = (w1, Ok l) -> P -> False) ->
            P -> raises (snd (script w))).
  { intros P HP p. destruct (stage_load w) as [w1 [l|e]] eqn:Hl.
    - destruct (HP w1 l eq_refl p).
    - rewrite (pipeline_load_raises w w1 e Hl). exists e. reflexivity. }
  repeat split.
  - apply Hload. intros w1 l Hl Habs.
    destruct (stage_load_returns w w1 l Hl) as (cg & cp & ct & im & Hg & Hp & Ht & _).
    destruct Habs as [Habs | [Habs | Habs]]; congruence.
  - intros cg Hg Hrows. apply script_raises_after_load. intros w1 l Hl.
    destruct (stage_load_returns w w1 l Hl) as (cg' & cp & ct & im & Hg' & _ & _ & Hgrid & _).
    assert (cg' = cg) by congruence. subst cg'.
    apply stage_rasterize_no_grid.
    exact (load_grid_size_no_row _ _ Hrows Hgrid).
  - intros cp Hp Hrows. apply script_raises_after_load. intros w1 l Hl.
    destruct (stage_load_returns w w1 l Hl)
      as (cg & cp' & ct & im & _ & Hp' & _ & _ & Hpoly & _).
    assert (cp' = cp) by congruence. subst cp'.
    apply stage_rasterize_no_polygons.
    exact (load_train_polygons_no_row _ _ Hrows Hpoly).
  - intros cp before i t p rest Hp Hrows Hb Hs Hwkt.
    apply (Hload True); [|exact I]. intros w1 l Hl _.
    destruct (stage_load_returns w w1 l Hl)
      as (cg & cp' & ct & im & _ & Hp' & _ & _ & Hpoly & _).
    assert (cp' = cp) by congruence. subst cp'.
    destruct (load_train_polygons_malformed before rest i t p Hb Hs Hwkt) as [e He].
    rewrite Hrows in Hpoly. congruence.
  - intros old Hold Hg. apply pipeline_load_raises.
    unfold stage_load. rewrite bind_lift, Hold, bind_open, Hg. reflexivity.
  - intros w1 e. apply pipeline_load_raises.
  - intros w1 w2 l e. apply pipeline_rasterize_raises.
Qed.


(** C5: the script is the pipeline of the seven stages in their order,
    each stage a computation of outputs of stages before it; on the
    channels each stage does what is listed for it, in that order, up to
    the point where it raises if it does; and so does the script. *)
Theorem stages_run_in_order :
  (forall w, script w = pipeline w) /\
  (forall w, pipeline w
             = (l ← stage_load;
                r ← stage_rasterize l;
                t ← stage_train l r;
                pred_mask ← stage_predict r t;
                pred_binary_mask ← stage_threshold r pred_mask;
                pred_polygons ← stage_vectorize r pred_binary_mask;
                stage_score r pred_polygons) w) /\
  follows stage_load load_kinds /\
  (forall l, follows (stage_rasterize l) rasterize_kinds) /\
  (forall l r, follows (stage_train l r) train_kinds) /\
  (forall r t, follows (stage_predict r t) predict_kinds) /\
  (forall r pred_mask, follows (stage_threshold r pred_mask) threshold_kinds) /\
  (forall r pred_binary_mask, follows (stage_vectorize r pred_binary_mask) vectorize_kinds) /\
  (forall r pred_polygons, follows (stage_score r pred_polygons) score_kinds) /\
  follows script
    [KRead grid_sizes_path; KRead train_wkt_path; KRead image_path;
     KImshow; KPltShow; KImshow; KPltShow;
     KPrint;
     KPrint; KImshow; KPltShow;
     KImshow; KPltShow; KPrint;
     KImshow; KPltShow;
     KPrint; KPrint].
Proof.
  split; [exact script_is_pipeline|].
  split; [reflexivity|].
  split; [exact follows_stage_load|].
  split; [exact follows_stage_rasterize|].
  split; [exact follows_stage_train|].
  split; [exact follows_stage_predict|].
  split; [exact follows_stage_threshold|].
  split; [exact follows_stage_vectorize|].
  split; [exact follows_stage_score|].
  exact follows_script.
Qed.


End ScriptProps.

(** * Further properties *)

(** ** The two loading loops *)

Section LoadingLoops.
Context `{Python} `{Shapely}.

Lemma load_grid_size_passes_over (before rows : list (list string)) :
  Forall (fun row => passed_over row = true) before ->
  load_grid_size (before ++ rows) = load_grid_size rows.
Proof.
  induction 1 as [|row before Hrow _ IH]; [reflexivity|].
  destruct row as [|i [|x [|y [|? ?]]]]; try discriminate.
  simpl in Hrow. apply negb_true_iff in Hrow.
  simpl. rewrite Hrow. exact IH.
Qed.

Lemma load_train_polygons_passes_over (before rows : list (list string)) :
  Forall (fun row => not_selected row = true) before ->
  load_train_polygons (before ++ rows) = load_train_polygons rows.
Proof.
  induction 1 as [|row before Hrow _ IH]; [reflexivity|].
  destruct row as [|i [|t [|p [|? ?]]]]; try discriminate.
  simpl in Hrow. apply negb_true_iff in Hrow.
  simpl. rewrite Hrow. exact IH.
Qed.

(** X1: the grid-sizes loop stops at the first row for the image: after
    rows of three fields for other images, it converts the two numbers of
    that row (the first of them first) and does not look at the rows that
    follow; a row that has not three fields, met before, raises
    [ValueError]; and where only rows for other images are left, [x_max]
    and [y_min] stay [None]. *)
Theorem load_grid_size_first_match (before rest : list (list string)) (_x _y : string) :
  Forall (fun row => passed_over row = true) before ->
  load_grid_size (before ++ [IM_ID; _x; _y] :: rest)
  = (x_max ← float_of_str _x; y_min ← float_of_str _y; Ok (Some (x_max, y_min))) /\
  (forall row, length row <> 3%nat ->
     load_grid_size (before ++ row :: rest) = Raise ValueError) /\
  load_grid_size before = Ok None.
Proof.
  intros Hb. split; [|split].
  - rewrite (load_grid_size_passes_over before _ Hb). reflexivity.
  - intros row Hl. rewrite (load_grid_size_passes_over before _ Hb).
    destruct row as [|i [|x [|y [|? ?]]]]; simpl in *; try reflexivity. lia.
  - rewrite <- (app_nil_r before) at 1.
    rewrite (load_grid_size_passes_over before _ Hb). reflexivity.
Qed.

(** X2: the polygons loop stops at the first row for the image and the
    class: after rows of three fields for other images or other classes,
    it hands the polygon field of that row to [wkt.loads] and does not
    look at the rows that follow; a row that has not three fields, met
    before, raises [ValueError]; and where no row is for the image and the
    class, [train_polygons] stays [None]. *)
Theorem load_train_polygons_first_match
  (before rest : list (list string)) (_poly : string) :
  Forall (fun row => not_selected row = true) before ->
  load_train_polygons (before ++ [IM_ID; POLY_TYPE; _poly] :: rest)
  = (train_polygons ← wkt_loads _poly; Ok (Some train_polygons)) /\
  (forall row, length row <> 3%nat ->
     load_train_polygons (before ++ row :: rest) = Raise ValueError) /\
  load_train_polygons before = Ok None.
Proof.
  intros Hb. split; [|split].
  - rewrite (load_train_polygons_passes_over before _ Hb). reflexivity.
  - intros row Hl. rewrite (load_train_polygons_passes_over before _ Hb).
    destruct row as [|i [|x [|y [|? ?]]]]; simpl in *; try reflexivity. lia.
  - rewrite <- (app_nil_r before) at 1.
    rewrite (load_train_polygons_passes_over before _ Hb). reflexivity.
Qed.

End LoadingLoops.

Section LateFailures.
Context `{Python} `{Tifffile} `{Numpy} `{Cv2} `{Shapely} `{Sklearn}.

Lemma np_transpose_120_shape (im im_rgb : ndarray Z) :
  np_transpose_120 im = Ok im_rgb ->
  exists c h w, shape im = [c; h; w] /\ shape im_rgb = [h; w; c].
Proof.
  unfold np_transpose_120.
  destruct (shape im) as [|c [|h [|w [|? ?]]]] eqn:E; try discriminate.
  intros [= <-]. exists c, h, w. split; reflexivity.
Qed.

Lemma stage_rasterize_scalers_raise (l : loaded) (w : world) (e : exn) :
  get_scalers (take 2 (shape (l_im_rgb l))) (l_grid l) = Raise e ->
  stage_rasterize l w = (w, Raise e).
Proof.
  intros Hs. unfold stage_rasterize. cbv zeta. rewrite bind_lift, Hs. reflexivity.
Qed.

(** X3: a row missing from a CSV file is not noticed while loading.  When
    the loading stage has returned, the three files have been read, and
    - without a grid-sizes row the script ends in the [TypeError] of
      [get_scalers];
    - with a grid size of zero it ends in [ZeroDivisionError];
    - with a grid size and without a polygons row it ends in the
      [AttributeError] of the call on [None];
    each time with nothing more read, printed or shown. *)
Theorem missing_rows_surface_after_loading (w w1 : world) (l : loaded) :
  stage_load w = (w1, Ok l) ->
  trace w1 = trace w ++ [Read grid_sizes_path; Read train_wkt_path; Read image_path] /\
  (l_grid l = None -> script w = (w1, Raise TypeError)) /\
  (forall x_max y_min, l_grid l = Some (x_max, y_min) ->
     f64_is_zero x_max = true \/ f64_is_zero y_min = true ->
     script w = (w1, Raise ZeroDivisionError)) /\
  (forall x_max y_min, l_grid l = Some (x_max, y_min) ->
     f64_is_zero x_max = false -> f64_is_zero y_min = false ->
     l_train_polygons l = None ->
     script w = (w1, Raise AttributeError)).
Proof.
  intros Hl.
  destruct (stage_load_returns w w1 l Hl)
    as (cg & cp & ct & im & _ & _ & _ & _ & _ & _ & Htr & Htrace).
  destruct (np_transpose_120_shape _ _ Htr) as (c & h & w' & _ & Hsh).
  split; [exact Htrace|].
  split; [|split].
  - intros Hg. apply (pipeline_rasterize_raises w w1 w1 l _ Hl).
    apply stage_rasterize_scalers_raise. rewrite Hsh, Hg. reflexivity.
  - intros x_max y_min Hg Hz. apply (pipeline_rasterize_raises w w1 w1 l _ Hl).
    apply stage_rasterize_scalers_raise. rewrite Hsh, Hg.
    cbn [take get_scalers]. unfold py_truediv.
    destruct (f64_is_zero x_max) eqn:Ex; [reflexivity|].
    destruct Hz as [Hz|Hz]; [discriminate|]. rewrite Hz. reflexivity.
  - intros x_max y_min Hg Hx Hy Hp. apply (pipeline_rasterize_raises w w1 w1 l _ Hl).
    unfold stage_rasterize. cbv zeta. rewrite bind_lift, Hsh, Hg.
    cbn [take get_scalers]. unfold py_truediv. rewrite Hx, Hy.
    cbn [mbind result_bind]. rewrite bind_lift, Hp. reflexivity.
Qed.

End LateFailures.

(** ** Loading: the first obstacle *)

Section FirstObstacle.
Context `{Python} `{Tifffile} `{Numpy} `{Cv2} `{Shapely} `{Sklearn}.

(** X17: loading stops at the first obstacle, and the files before it
    have been read.  With the grid-sizes file there, what its loop raises
    ends the script after that one file was read; then a missing polygons
    file; then what the polygons loop raises, after two files were read;
    then a missing image file; then, after three files were read, what the
    TIFF decoder raises and the [ValueError] of [transpose] for an image
    that has not three axes. *)
Theorem loading_fails_at_the_first_obstacle (w : world) (old : Z) :
  csv_field_size_limit sys_maxsize = Ok old ->
  (forall cg e,
     files w !! grid_sizes_path = Some cg ->
     load_grid_size (csv_reader cg) = Raise e ->
     script w = (after w [Read grid_sizes_path], Raise e)) /\
  (forall cg grid,
     files w !! grid_sizes_path = Some cg ->
     load_grid_size (csv_reader cg) = Ok grid ->
     (files w !! train_wkt_path = None ->
      script w = (after w [Read grid_sizes_path],
                  Raise (FileNotFoundError train_wkt_path))) /\
     (forall cp e,
        files w !! train_wkt_path = Some cp ->
        load_train_polygons (csv_reader cp) = Raise e ->
        script w = (after w [Read grid_sizes_path; Read train_wkt_path], Raise e)) /\
     (forall cp train_polygons,
        files w !! train_wkt_path = Some cp ->
        load_train_polygons (csv_reader cp) = Ok train_polygons ->
        (files w !! image_path = None ->
         script w = (after w [Read grid_sizes_path; Read train_wkt_path],
                     Raise (FileNotFoundError image_path))) /\
        (forall ct e,
           files w !! image_path = Some ct ->
           tiff_decode ct = Raise e ->
           script w = (after w [Read grid_sizes_path; Read train_wkt_path;
                                Read image_path], Raise e)) /\
        (forall ct im,
           files w !! image_path = Some ct ->
           tiff_decode ct = Ok im ->
           length (shape im) <> 3%nat ->
           script w = (after w [Read grid_sizes_path; Read train_wkt_path;
                                Read image_path], Raise ValueError)))).
Proof.
  intros Hlimit.
  assert (Hstart : forall w1 e, stage_load w = (w1, Raise e) -> script w = (w1, Raise e))
    by (intros w1 e; apply pipeline_load_raises).
  unfold stage_load, tiff_imread in Hstart.
  rewrite bind_lift, Hlimit, bind_open in Hstart.
  split.
  { intros cg e Hg Hgrid. apply Hstart. rewrite Hg, bind_lift, Hgrid. reflexivity. }
  intros cg grid Hg Hgrid.
  rewrite Hg, bind_lift, Hgrid, bind_open in Hstart. cbn [files] in Hstart.
  split.
  { intros Hp. apply Hstart. rewrite Hp. reflexivity. }
  split.
  { intros cp e Hp Hpoly. apply Hstart. rewrite Hp, bind_lift, Hpoly.
    unfold after. cbn [files argv environ trace]. rewrite <- app_assoc. reflexivity. }
  intros cp train_polygons Hp Hpoly.
  rewrite Hp, bind_lift, Hpoly, bind_io_assoc, bind_open in Hstart.
  cbn [files argv environ trace] in Hstart.
  split.
  { intros Hi. apply Hstart. rewrite Hi. unfold after. rewrite <- app_assoc. reflexivity. }
  split.
  { intros ct e Hi Hdec. apply Hstart. rewrite Hi, bind_lift, Hdec.
    unfold after. cbn [files argv environ trace]. rewrite <- !app_assoc. reflexivity. }
  intros ct im Hi Hdec Hdim. apply Hstart. rewrite Hi, bind_lift, Hdec, bind_lift.
  unfold np_transpose_120.
  destruct (shape im) as [|c [|h [|w' [|? ?]]]]; simpl in Hdim; try lia;
    unfold after; cbn [files argv environ trace]; rewrite <- !app_assoc; reflexivity.
Qed.

End FirstObstacle.

(** ** What the script prints *)

Section Printed.
Context `{Python} `{Tifffile} `{Numpy} `{Cv2} `{Shapely} `{Sklearn}.

Lemma says_ret {A} (a : A) : says (mret a : io A) [].
Proof. intros w. exists []. cbn. rewrite app_nil_r. split; reflexivity. Qed.

Lemma says_lift {A} (m : result A) : says (lift m) [].
Proof.
  intros w. exists []. cbn. rewrite app_nil_r. split; [reflexivity|].
  destruct m; [reflexivity | apply prefix_nil].
Qed.

Lemma says_log (e : event) : says (log e) (labels [e]).
Proof. intros w. exists [e]. split; reflexivity. Qed.

Lemma says_open (path : string) : says (open_ path) [].
Proof.
  intros w. unfold open_. destruct (files w !! path); cbn.
  - exists [Read path]. split; reflexivity.
  - exists []. rewrite app_nil_r. split; [reflexivity | apply prefix_nil].
Qed.

Lemma says_bind {A B} (m : io A) (k : A -> io B) (ls1 ls2 : list string) :
  says m ls1 -> (forall a, says (k a) ls2) -> says (m ≫= k) (ls1 ++ ls2).
Proof.
  intros Hm Hk w. rewrite bind_io_unfold.
  destruct (Hm w) as (evs1 & T1 & R1).
  destruct (m w) as [w1 [a|e]]; cbn [fst snd] in *.
  - destruct (Hk a w1) as (evs2 & T2 & R2).
    destruct (k a w1) as [w2 r]; cbn [fst snd] in *.
    exists (evs1 ++ evs2). split; [rewrite T2, T1, app_assoc; reflexivity|].
    unfold labels in *. rewrite omap_app, R1.
    destruct r; [congruence | apply prefix_app, R2].
  - exists evs1. split; [assumption | apply prefix_app_r, R1].
Qed.

Lemma says_eq {A} (m : io A) (ls ls' : list string) :
  says m ls -> ls = ls' -> says m ls'.
Proof. intros Hm <-. exact Hm. Qed.

Lemma says_print (s : string) (args : list pyval) : says (print (PyStr s :: args)) [s].
Proof. apply (says_log (Print (PyStr s :: args))). Qed.

Lemma says_print_format (template : string) (n : Z) :
  says (print [PyFormat template n]) [template].
Proof. apply (says_log (Print [PyFormat template n])). Qed.

Lemma says_plt_show : says plt_show [].
Proof. apply (says_log PltShow). Qed.

Lemma says_log_imshow (img : image_data) : says (log (Imshow img)) [].
Proof. apply (says_log (Imshow img)). Qed.

Ltac says_step :=
  match goal with
  | |- says (mret _) _ => apply says_ret
  | |- says (lift _) _ => apply says_lift
  | |- says (print (PyStr _ :: _)) _ => apply says_print
  | |- says (print [PyFormat _ _]) _ => apply says_print_format
  | |- says plt_show _ => apply says_plt_show
  | |- says (log (Imshow _)) _ => apply says_log_imshow
  | |- says (open_ _) _ => apply says_open
  | |- says (tiff_imread _) _ => unfold tiff_imread
  | |- says (imshow _) _ => unfold imshow
  | |- says (show_mask _ _) _ => unfold show_mask
  | |- says (_ ≫= _) _ => eapply says_bind; [|intros ?]
  | |- says (let _ := _ in _) _ => cbv zeta
  end.

Lemma says_script : says script script_labels.
Proof.
  unfold script. eapply says_eq; [repeat says_step | reflexivity].
Qed.

(** X18: what the script prints.  Every run prints under the labels
    "training...", "average precision", "Pixel jaccard", "Prediction size"
    (the template that is formatted) and "Final jaccard", in this order: a
    run that returns under all five, and a run that raises under the first
    ones of them. *)
Theorem script_prints_under_five_labels (w : world) :
  exists evs : list event,
    trace (fst (script w)) = trace w ++ evs /\
    labels evs `prefix_of` script_labels /\
    (snd (script w) = Ok tt -> labels evs = script_labels).
Proof.
  destruct (says_script w) as (evs & Htrace & Hl).
  exists evs. split; [exact Htrace|].
  destruct (snd (script w)) as [[]|e].
  - split; [rewrite Hl; reflexivity | intros _; exact Hl].
  - split; [exact Hl | discriminate].
Qed.

End Printed.

(** ** Pixel-level Jaccard: beyond binary masks *)

Lemma Z_land_bit0 (b : bool) (v : Z) :
  Z.land (Z_of_bool b) v = Z_of_bool (b && Z.odd v).
Proof.
  destruct b; cbn [Z_of_bool andb].
  - rewrite Z.land_comm. change 1 with (Z.ones 1). rewrite Z.land_ones by lia.
    change (2 ^ 1) with 2. rewrite Zmod_odd. destruct (Z.odd v); reflexivity.
  - apply Z.land_0_l.
Qed.

Lemma odd_land_1 (v : Z) : Z.odd (Z.land v 1) = Z.odd v.
Proof.
  change 1 with (Z.ones 1). rewrite Z.land_ones by lia.
  change (2 ^ 1) with 2. rewrite Zmod_odd. destruct (Z.odd v); reflexivity.
Qed.

Lemma odd_uint8_invert (v : Z) : Z.odd (uint8_invert v) = negb (Z.odd v).
Proof.
  unfold uint8_invert.
  rewrite <- !Z.bit0_odd.
  change (2 ^ 8) with (2 ^ 8). rewrite Z.mod_pow2_bits_low by lia.
  apply Z.lnot_spec. lia.
Qed.

Lemma bool_and_uint8_lowest_bit (b : bool) (v : Z) :
  bool_and_uint8 b v = bool_and_uint8 b (Z.land v 1).
Proof. unfold bool_and_uint8. rewrite !Z_land_bit0, odd_land_1. reflexivity. Qed.

Lemma bool_and_uint8_invert_lowest_bit (b : bool) (v : Z) :
  bool_and_uint8 b (uint8_invert v) = bool_and_uint8 b (uint8_invert (Z.land v 1)).
Proof.
  unfold bool_and_uint8. rewrite !Z_land_bit0, !odd_uint8_invert, odd_land_1. reflexivity.
Qed.

Lemma zip_with_ext_r {A B B' C} (f : A -> B -> C) (g : A -> B' -> C) (h : B -> B')
  (l : list A) (k : list B) :
  (forall a b, f a b = g a (h b)) -> zip_with f l k = zip_with g l (map h k).
Proof.
  intros E. revert k. induction l as [|a l IH]; intros [|b k]; simpl; try reflexivity.
  rewrite E, IH. reflexivity.
Qed.

Lemma confusion_lowest_bit (p : ndarray bool) (t : ndarray Z) :
  tp_of p t = tp_of p (lowest_bit t) /\
  fp_of p t = fp_of p (lowest_bit t) /\
  fn_of p t = fn_of p (lowest_bit t).
Proof.
  unfold tp_of, fp_of, fn_of, lowest_bit, np_sum, np_map2, np_map; cbn [data shape].
  repeat split; f_equal.
  - apply zip_with_ext_r, bool_and_uint8_lowest_bit.
  - rewrite map_map.
    rewrite <- (zip_with_ext_r (fun b v => bool_and_uint8 b (uint8_invert v))
                  bool_and_uint8 uint8_invert) by reflexivity.
    rewrite <- (zip_with_ext_r (fun b v => bool_and_uint8 b (uint8_invert (Z.land v 1)))
                  bool_and_uint8 (fun v => uint8_invert (Z.land v 1))) by reflexivity.
    clear. generalize (data t). induction (data p) as [|b l IH]; intros [|v k]; simpl;
      try reflexivity.
    rewrite bool_and_uint8_invert_lowest_bit, IH. reflexivity.
  - apply zip_with_ext_r, bool_and_uint8_lowest_bit.
Qed.

Lemma lowest_bit_binary (t : ndarray Z) : binary_mask (lowest_bit t).
Proof.
  unfold binary_mask, lowest_bit, np_map; cbn [data].
  apply Forall_forall. intros v Hv. apply list_elem_of_fmap in Hv.
  destruct Hv as (u & -> & _).
  change (Z.land u 1) with (Z.land u (Z.ones 1)).
  rewrite Z.land_ones by lia. change (2 ^ 1) with 2.
  pose proof (Z.mod_pos_bound u 2). lia.
Qed.

(** the three sums of a binary truth mask, without wrap-around *)
Lemma confusion_sums_uint64 (p : list bool) (t : list Z) :
  length p = length t -> Z.of_nat (length t) < 2 ^ 64 ->
  Forall (fun v => v = 0 \/ v = 1) t ->
  let tp := fold_left uint64_add (zip_with bool_and_uint8 p t) 0 in
  let fp := fold_left uint64_add (zip_with bool_and_uint8 p (map uint8_invert t)) 0 in
  let fn := fold_left uint64_add (zip_with bool_and_uint8 (map negb p) t) 0 in
  tp = sumZ (zip_with bool_and_uint8 p t) /\
  fp = sumZ (zip_with bool_and_uint8 p (map uint8_invert t)) /\
  fn = sumZ (zip_with bool_and_uint8 (map negb p) t) /\
  0 <= tp /\ 0 <= fp /\ 0 <= fn /\
  tp = count_pixels andb p t /\
  tp + fp + fn = count_pixels orb p t /\
  tp + fp + fn <= Z.of_nat (length t).
Proof.
  intros Hlen Hsize Hbin tp fp fn.
  destruct (confusion_sums p t Hbin) as (Btp & Bfp & Bfn & Hi & Hu).
  pose proof (sumZ_bits_bounds _ Btp) as Stp.
  pose proof (sumZ_bits_bounds _ Bfp) as Sfp.
  pose proof (sumZ_bits_bounds _ Bfn) as Sfn.
  rewrite length_zip_with in Stp. rewrite length_zip_with, length_map in Sfp.
  rewrite length_zip_with, length_map in Sfn.
  assert (Etp : tp = sumZ (zip_with bool_and_uint8 p t)).
  { unfold tp. rewrite fold_uint64_add_no_wrap; [lia | assumption | lia |].
    rewrite length_zip_with. lia. }
  assert (Efp : fp = sumZ (zip_with bool_and_uint8 p (map uint8_invert t))).
  { unfold fp. rewrite fold_uint64_add_no_wrap; [lia | assumption | lia |].
    rewrite length_zip_with, length_map. lia. }
  assert (Efn : fn = sumZ (zip_with bool_and_uint8 (map negb p) t)).
  { unfold fn. rewrite fold_uint64_add_no_wrap; [lia | assumption | lia |].
    rewrite length_zip_with, length_map. lia. }
  assert (Hor : count_pixels orb p t <= Z.of_nat (length t)).
  { unfold count_pixels. apply inj_le. etransitivity; [apply length_filter|].
    rewrite length_zip_with. lia. }
  repeat split; try assumption; lia.
Qed.

Lemma pixel_jaccard_binary_lists (p : ndarray bool) (t : ndarray Z) :
  length (data p) = length (data t) -> Z.of_nat (length (data t)) < 2 ^ 64 ->
  binary_mask t ->
  pixel_jaccard p t = intersection_over_union p t.
Proof.
  intros Hlen Hsize Hbin.
  destruct (confusion_sums_uint64 (data p) (data t) Hlen Hsize Hbin)
    as (_ & _ & _ & Ptp & Pfp & Pfn & Hi & Hu & Hb).
  unfold pixel_jaccard, intersection_over_union, intersection_size, union_size.
  unfold tp_of, fp_of, fn_of, np_sum, np_map2, np_map; cbn [data shape].
  set (tp := fold_left _ (zip_with bool_and_uint8 (data p) (data t)) 0) in *.
  set (fp := fold_left _ (zip_with bool_and_uint8 (data p) (map _ _)) 0) in *.
  set (fn := fold_left _ (zip_with bool_and_uint8 (map _ _) _) 0) in *.
  rewrite <- Hi, <- Hu. unfold uint64_add.
  rewrite (Z.mod_small (tp + fp)) by lia. rewrite Z.mod_small by lia. reflexivity.
Qed.

(** X9: the pixel Jaccard reads the lowest bit of the truth mask only:
    the three sums, and so the quotient, are those of [train_mask & 1],
    which is a binary mask (and [train_mask] itself when that is binary).
    So for every truth mask of the size of the prediction the quotient is
    the intersection over union of the prediction and the pixels whose
    value is odd: a mask of 0 and 255 scores as the mask of 0 and 1, a
    mask of 0 and 2 as the empty mask. *)
Theorem pixel_jaccard_reads_the_lowest_bit (p : ndarray bool) (t : ndarray Z) :
  tp_of p t = tp_of p (lowest_bit t) /\
  fp_of p t = fp_of p (lowest_bit t) /\
  fn_of p t = fn_of p (lowest_bit t) /\
  pixel_jaccard p t = pixel_jaccard p (lowest_bit t) /\
  binary_mask (lowest_bit t) /\
  (binary_mask t -> lowest_bit t = t) /\
  (length (data p) = length (data t) -> Z.of_nat (length (data t)) < 2 ^ 64 ->
   pixel_jaccard p t = intersection_over_union p (lowest_bit t)).
Proof.
  destruct (confusion_lowest_bit p t) as (Htp & Hfp & Hfn).
  assert (Hj : pixel_jaccard p t = pixel_jaccard p (lowest_bit t)).
  { unfold pixel_jaccard. rewrite <- Htp, <- Hfp, <- Hfn. reflexivity. }
  repeat split; try assumption.
  - apply lowest_bit_binary.
  - clear. intros Hbin. destruct t as [sh d]. unfold lowest_bit, np_map; cbn [shape data].
    f_equal. unfold binary_mask in Hbin; cbn [data] in Hbin.
    induction Hbin as [|v l [-> | ->] _ IH]; simpl; [reflexivity| |]; rewrite IH; reflexivity.
  - intros Hlen Hsize. rewrite Hj.
    apply pixel_jaccard_binary_lists.
    + unfold lowest_bit, np_map; cbn [data]. rewrite length_map. exact Hlen.
    + unfold lowest_bit, np_map; cbn [data]. rewrite length_map. exact Hsize.
    + apply lowest_bit_binary.
Qed.

Lemma count_pixels_le f (p : list bool) (t : list Z) :
  0 <= count_pixels f p t <= Z.of_nat (length t).
Proof.
  unfold count_pixels. split; [lia|]. apply inj_le.
  etransitivity; [apply length_filter|]. rewrite length_zip_with. lia.
Qed.

Lemma confusion_marginals (p : list bool) (t : list Z) :
  Forall (fun v => v = 0 \/ v = 1) t ->
  sumZ (zip_with bool_and_uint8 p t) + sumZ (zip_with bool_and_uint8 p (map uint8_invert t))
  = count_pixels (fun x _ => x) p t /\
  sumZ (zip_with bool_and_uint8 p t) + sumZ (zip_with bool_and_uint8 (map negb p) t)
  = count_pixels (fun _ y => y) p t.
Proof.
  intros Ht. revert p.
  induction Ht as [|v t Hv Ht IH]; intros [|b p]; simpl; try (split; reflexivity).
  destruct (IH p) as (H1 & H2).
  rewrite !count_pixels_cons.
  rewrite (bool_and_uint8_bit b v Hv), (bool_and_uint8_bit (negb b) v Hv),
    (bool_and_uint8_invert_bit b v Hv).
  split; destruct b, (is_set v); simpl Z_of_bool; lia.
Qed.

(** X10: for a binary truth mask of the size of the prediction, [tp + fp]
    is the number of pixels the prediction sets and [tp + fn] the number
    the truth sets; union and intersection add up to the two of them, and
    the intersection is not larger than the union. *)
Theorem confusion_counts_add_up (p : ndarray bool) (t : ndarray Z) :
  length (data p) = length (data t) -> Z.of_nat (length (data t)) < 2 ^ 64 ->
  binary_mask t ->
  uint64_add (tp_of p t) (fp_of p t) = predicted_size p t /\
  uint64_add (tp_of p t) (fn_of p t) = truth_size p t /\
  union_size p t + intersection_size p t = predicted_size p t + truth_size p t /\
  0 <= intersection_size p t <= union_size p t.
Proof.
  intros Hlen Hsize Hbin.
  destruct (confusion_sums_uint64 (data p) (data t) Hlen Hsize Hbin)
    as (Etp & Efp & Efn & Ptp & Pfp & Pfn & Hi & Hu & Hb).
  destruct (confusion_marginals (data p) (data t) Hbin) as (Hpred & Htruth).
  unfold predicted_size, truth_size, union_size, intersection_size.
  unfold tp_of, fp_of, fn_of, np_sum, np_map2, np_map; cbn [data shape].
  cbv zeta in Etp, Efp, Efn, Ptp, Pfp, Pfn, Hi, Hu, Hb.
  set (tp := fold_left _ (zip_with bool_and_uint8 (data p) (data t)) 0) in *.
  set (fp := fold_left _ (zip_with bool_and_uint8 (data p) (map _ _)) 0) in *.
  set (fn := fold_left _ (zip_with bool_and_uint8 (map _ _) _) 0) in *.
  rewrite <- Etp, <- Efp in Hpred. rewrite <- Etp, <- Efn in Htruth.
  unfold uint64_add. rewrite !Z.mod_small by lia.
  repeat split; lia.
Qed.

(** ** binary64: the conversion of a positive integer *)

Lemma shr_1_half (mrs : shr_record) :
  0 <= shr_m mrs -> shr_m (shr_1 mrs) = shr_m mrs / 2.
Proof.
  destruct mrs as [m r s]. simpl. intros Hm.
  destruct m as [|[q|q|]|q]; simpl; try reflexivity; try lia.
  - rewrite Pos2Z.inj_xI. apply Z.div_unique with 1; lia.
  - rewrite Pos2Z.inj_xO. apply Z.div_unique with 0; lia.
Qed.

Lemma iter_pos_shr_1_div (p : positive) :
  forall mrs, 0 <= shr_m mrs ->
    shr_m (SpecFloat.iter_pos shr_1 p mrs) = shr_m mrs / 2 ^ Zpos p.
Proof.
  induction p as [p IH|p IH|]; intros mrs Hm; simpl SpecFloat.iter_pos.
  - assert (H1 : 0 <= shr_m (shr_1 mrs))
      by (rewrite shr_1_half by exact Hm; apply Z.div_pos; lia).
    assert (H2 : 0 <= shr_m (SpecFloat.iter_pos shr_1 p (shr_1 mrs)))
      by (apply iter_pos_shr_1_nonneg, H1).
    rewrite IH, IH, shr_1_half by assumption.
    rewrite !Z.div_div by lia. f_equal.
    replace (Zpos p~1) with (1 + Zpos p + Zpos p) by lia.
    rewrite !Z.pow_add_r by lia. change (2 ^ 1) with 2. ring.
  - assert (H2 : 0 <= shr_m (SpecFloat.iter_pos shr_1 p mrs))
      by (apply iter_pos_shr_1_nonneg, Hm).
    rewrite IH, IH by assumption.
    rewrite !Z.div_div by lia. f_equal.
    replace (Zpos p~0) with (Zpos p + Zpos p) by lia.
    rewrite !Z.pow_add_r by lia. reflexivity.
  - rewrite shr_1_half by exact Hm. reflexivity.
Qed.

Lemma Zdigits2_bounds (m : Z) :
  0 < m -> 0 < Zdigits2 m /\ 2 ^ (Zdigits2 m - 1) <= m < 2 ^ Zdigits2 m.
Proof.
  destruct m as [|p|p]; try lia. intros _. simpl Zdigits2.
  split; [lia | apply digits2_pos_bounds].
Qed.

(** shifting to the precision keeps a positive mantissa positive, above
    the smallest exponent *)
Lemma shr_fexp_pos (m e : Z) (l : location) :
  0 < m -> -1074 <= e ->
  let r := shr_fexp 53 1024 m e l in
  0 < shr_m (fst r) <= m /\ e <= snd r /\
  snd r <= Z.max e (Zdigits2 m + e - 53).
Proof.
  intros Hm He r. subst r. unfold shr_fexp, shr, fexp, emin.
  destruct (Zdigits2_bounds m Hm) as [Hd [Hlo Hhi]].
  set (d := Zdigits2 m) in *.
  assert (H0 : shr_m (shr_record_of_loc m l) = m) by (destruct l as [|[]]; reflexivity).
  destruct (Z.max (d + e - 53) (3 - 1024 - 53) - e) as [|p|p] eqn:En; cbn [fst snd].
  - rewrite H0. lia.
  - rewrite iter_pos_shr_1_div by lia. rewrite H0.
    assert (Hp : Zpos p <= d - 1) by lia.
    assert (Hpow : 2 ^ Zpos p <= 2 ^ (d - 1)) by (apply Z.pow_le_mono_r; lia).
    assert (Hpos : 0 < 2 ^ Zpos p) by (apply Z.pow_pos_nonneg; lia).
    split; [|lia]. split.
    + apply Z.div_str_pos. lia.
    + apply Z.div_le_upper_bound; [lia|]. nia.
  - rewrite H0. lia.
Qed.

Lemma round_nearest_even_bounds (m : Z) (l : location) :
  m <= round_nearest_even m l <= m + 1.
Proof.
  destruct l as [|[]]; simpl; try lia. destruct (Z.even m); lia.
Qed.

Lemma Zdigits2_le (m : Z) (k : Z) : 0 < m -> m < 2 ^ k -> Zdigits2 m <= k.
Proof.
  intros Hm Hk. destruct (Zdigits2_bounds m Hm) as [Hd [Hlo _]].
  destruct (Z_le_gt_dec (Zdigits2 m) k) as [|Hgt]; [assumption|].
  exfalso. assert (2 ^ k <= 2 ^ (Zdigits2 m - 1)) by (apply Z.pow_le_mono_r; lia). lia.
Qed.

(** rounding a positive mantissa of at most [k] digits, not below the
    smallest exponent, gives a number that is neither zero nor a NaN, and a
    finite one while the exponent stays small *)
Lemma binary_round_aux_pos (mx ex : Z) (lx : location) (k : Z) :
  0 < mx -> mx < 2 ^ k -> 0 <= k -> -1074 <= ex ->
  Z.max ex (k + ex - 53) + Z.max 0 (k - 52) <= 971 ->
  exists m e, binary_round_aux 53 1024 false mx ex lx = S754_finite false m e.
Proof.
  intros Hm Hk Hk0 He Hbound. unfold binary_round_aux.
  pose proof (shr_fexp_pos mx ex lx Hm He) as H1. cbv zeta in H1.
  pose proof (Zdigits2_le mx k Hm Hk) as Hd.
  destruct (shr_fexp 53 1024 mx ex lx) as [mrs' e']. cbn [fst snd] in H1.
  destruct H1 as ([Hp1 Hle1] & He1 & He1').
  pose proof (round_nearest_even_bounds (shr_m mrs') (loc_of_shr_record mrs')) as Hr.
  set (m1 := round_nearest_even _ _) in *.
  assert (Hm1 : 0 < m1) by lia.
  assert (Hm1k : m1 < 2 ^ (k + 1)).
  { rewrite Z.pow_add_r by lia. change (2 ^ 1) with 2. lia. }
  pose proof (Zdigits2_le m1 (k + 1) Hm1 Hm1k) as Hd1.
  pose proof (shr_fexp_pos m1 e' loc_Exact Hm1 ltac:(lia)) as H2. cbv zeta in H2.
  destruct (shr_fexp 53 1024 m1 e' loc_Exact) as [mrs'' e'']. cbn [fst snd] in H2.
  destruct H2 as ([Hp2 Hle2] & He2 & He2').
  destruct (shr_m mrs'') as [|q|q]; try lia.
  assert (Hfin : Z.leb e'' (1024 - 53) = true) by (apply Z.leb_le; lia).
  rewrite Hfin. eauto.
Qed.

(** the conversion of a positive integer below 2^64 is a positive number *)
Lemma f64_of_Z_pos (n : Z) :
  0 < n < 2 ^ 64 -> exists m e, f64_of_Z n = S754_finite false m e.
Proof.
  intros [Hn Hn64]. destruct n as [|p|p]; try lia.
  unfold f64_of_Z, binary_normalize, binary_round, shl_align, fexp, emin.
  destruct (digits2_pos_bounds p) as [Hlo Hhi].
  set (d := Zpos (digits2_pos p)) in *.
  assert (Hd : 0 < d) by (subst d; lia).
  assert (Hd64 : d <= 64) by (apply (Zdigits2_le (Zpos p) 64); [lia | exact Hn64]).
  destruct (Z.max (d + 0 - 53) (3 - 1024 - 53) - 0) as [|q|q] eqn:En.
  - apply (binary_round_aux_pos _ _ _ 64); lia.
  - apply (binary_round_aux_pos _ _ _ 64); lia.
  - lazy iota beta.
    rewrite (Pos.iter_swap_gen _ _ Zpos xO (Z.mul 2)) by reflexivity.
    assert (Hq : Zpos q = 53 - d) by lia.
    assert (Hsh : Pos.iter (Z.mul 2) (Zpos p) q = Zpos p * 2 ^ Zpos q).
    { clear. rewrite <- (Z.shiftl_mul_pow2 (Zpos p) (Zpos q)) by lia.
      unfold Z.shiftl. reflexivity. }
    rewrite Hsh.
    assert (Hpos : 0 < 2 ^ Zpos q) by (apply Z.pow_pos_nonneg; lia).
    apply (binary_round_aux_pos _ _ _ 53); try lia.
    assert (E : 2 ^ 53 = 2 ^ d * 2 ^ Zpos q)
      by (rewrite <- Z.pow_add_r by lia; f_equal; lia).
    rewrite E. apply Z.mul_lt_mono_pos_r; assumption.
Qed.

(** ** Pixel-level Jaccard: no pixel in the union, none in the intersection *)

Lemma count_pixels_orb_zero (p : list bool) (t : list Z) :
  length p = length t -> Forall (fun v => v = 0 \/ v = 1) t ->
  (count_pixels orb p t = 0 <->
   Forall (fun b => b = false) p /\ Forall (fun v => v = 0) t).
Proof.
  intros Hlen Hbin. revert p Hlen.
  induction Hbin as [|v t Hv _ IH]; intros [|b p] Hlen; try discriminate.
  - split; [intros _; split; constructor | reflexivity].
  - injection Hlen as Hlen. rewrite count_pixels_cons.
    pose proof (count_pixels_le orb p t) as Hc. specialize (IH p Hlen).
    split.
    + intros Hz. destruct b; [simpl in Hz; lia|].
      destruct Hv as [-> | ->]; [|simpl in Hz; lia].
      simpl in Hz. destruct (proj1 IH ltac:(lia)) as [Hp Ht].
      split; constructor; auto.
    + intros [Hp Ht]. inversion Hp as [|? ? -> Hp']; subst.
      inversion Ht as [|? ? -> Ht']; subst.
      simpl. apply IH. split; assumption.
Qed.

(** X11: the pixel Jaccard of a prediction and a binary truth mask of
    its size is NaN exactly when the union is empty, that is when no pixel
    is set in either mask (nothing is raised: the division is numpy's);
    and it is zero when the masks have no pixel in common and one of them
    is not empty. *)
Theorem pixel_jaccard_degenerate_cases (p : ndarray bool) (t : ndarray Z) :
  length (data p) = length (data t) -> Z.of_nat (length (data t)) < 2 ^ 64 ->
  binary_mask t ->
  (pixel_jaccard p t = S754_nan <-> union_size p t = 0) /\
  (union_size p t = 0 <->
   Forall (fun b => b = false) (data p) /\ Forall (fun v => v = 0) (data t)) /\
  (intersection_size p t = 0 -> union_size p t <> 0 ->
   pixel_jaccard p t = S754_zero false).
Proof.
  intros Hlen Hsize Hbin.
  rewrite (pixel_jaccard_binary_lists p t Hlen Hsize Hbin).
  unfold intersection_over_union.
  pose proof (count_pixels_le orb (data p) (data t)) as Hu.
  pose proof (count_pixels_le andb (data p) (data t)) as Hi.
  destruct (confusion_sums_uint64 (data p) (data t) Hlen Hsize Hbin)
    as (_ & _ & _ & Ptp & Pfp & Pfn & Ei & Eu & _).
  cbv zeta in Ptp, Pfp, Pfn, Ei, Eu.
  fold (intersection_size p t) in Ei, Hi. fold (union_size p t) in Eu, Hu.
  assert (Hiu : intersection_size p t <= union_size p t) by lia.
  split; [|split].
  - split.
    + intros Hnan.
      destruct (Z.eq_dec (union_size p t) 0) as [|Hne]; [assumption|].
      destruct (f64_of_Z_pos (union_size p t)) as (m & e & Em); [lia|].
      pose proof (f64_div_not_nan (f64_of_Z (intersection_size p t))
                    (f64_of_Z (union_size p t))) as Hd.
      rewrite Em in Hd, Hnan. rewrite Hnan in Hd.
      specialize (Hd (f64_of_Z_not_nan _) eq_refl eq_refl). discriminate.
    + intros Hz. rewrite Hz. replace (intersection_size p t) with 0 by lia. reflexivity.
  - apply count_pixels_orb_zero; assumption.
  - intros Hz Hne. rewrite Hz.
    destruct (f64_of_Z_pos (union_size p t)) as (m & e & ->); [lia|]. reflexivity.
Qed.

(** ** Arrays: pixels, rows and windows *)

(** pieces of one length laid end to end: element [k] of piece [i] *)
Lemma flat_map_seq_lookup {A} (f : nat -> list A) (c : nat) :
  forall n s i k,
    (forall j, (s <= j < s + n)%nat -> length (f j) = c) ->
    (i < n)%nat -> (k < c)%nat ->
    flat_map f (seq s n) !! (i * c + k)%nat = f (s + i)%nat !! k.
Proof.
  induction n as [|n IH]; intros s i k Hf Hi Hk; [lia|].
  simpl. destruct i as [|i].
  - rewrite lookup_app_l by (rewrite Hf; lia). rewrite Nat.add_0_r. reflexivity.
  - rewrite lookup_app_r by (rewrite Hf; lia). rewrite Hf by lia.
    replace (S i * c + k - c)%nat with (i * c + k)%nat by lia.
    rewrite IH; [|intros j Hj; apply Hf; lia|lia|lia].
    replace (S s + i)%nat with (s + S i)%nat by lia. reflexivity.
Qed.

Lemma flat_map_seq_length {A} (f : nat -> list A) (c : nat) (s n : nat) :
  (forall j, (s <= j < s + n)%nat -> length (f j) = c) ->
  length (flat_map f (seq s n)) = (n * c)%nat.
Proof.
  revert s. induction n as [|n IH]; intros s Hf; [reflexivity|].
  simpl. rewrite length_app, Hf by lia. rewrite IH; [lia|].
  intros j Hj. apply Hf. lia.
Qed.

Lemma map_flat_map_comm {A B C} (f : B -> C) (g : A -> list B) (l : list A) :
  map f (flat_map g l) = flat_map (fun x => map f (g x)) l.
Proof.
  induction l as [|x l IH]; [reflexivity|]. simpl. rewrite map_app, IH. reflexivity.
Qed.

Lemma np_transpose_120_lookup (im : ndarray Z) (c h w : nat) :
  shape im = [c; h; w] -> well_shaped im ->
  exists im_rgb,
    np_transpose_120 im = Ok im_rgb /\
    shape im_rgb = [h; w; c] /\ well_shaped im_rgb /\
    forall ij k, (ij < h * w)%nat -> (k < c)%nat ->
      data im_rgb !! (ij * c + k)%nat = data im !! (k * (h * w) + ij)%nat.
Proof.
  intros Hsh Hws. unfold np_transpose_120. rewrite Hsh.
  eexists. split; [reflexivity|]. cbn [shape data].
  unfold well_shaped in *. rewrite Hsh in Hws. cbn [shape data size_of fold_right] in *.
  split; [reflexivity|]. split.
  - rewrite (flat_map_seq_length _ c); [lia|]. intros j _. rewrite length_map, length_seq.
    reflexivity.
  - intros ij k Hij Hk.
    rewrite (flat_map_seq_lookup _ c);
      [|intros; rewrite length_map, length_seq; reflexivity|lia|lia].
    rewrite list_lookup_fmap, lookup_seq_lt by lia. cbn [fmap option_fmap option_map].
    rewrite !Nat.add_0_l.
    destruct (lookup_lt_is_Some_2 (data im) (k * (h * w) + ij)%nat) as [x Hx]; [nia|].
    rewrite nth_lookup, Hx. reflexivity.
Qed.

Lemma item2_lookup {A} (a : ndarray A) (h w r c : nat) :
  shape a = [h; w] -> (r < h)%nat -> (c < w)%nat ->
  item2 a r c = data a !! (r * w + c)%nat.
Proof.
  intros Hsh Hr Hc. unfold item2. rewrite Hsh.
  apply Nat.ltb_lt in Hr, Hc. rewrite Hr, Hc. reflexivity.
Qed.

(** X4: features and labels are aligned.  For an image of three bands,
    [h] by [w], and a mask of shape (h, w): the transposed image has the
    mask's first two axes; [reshape(-1, 3)] gives one row per pixel, row
    [r * w + c] holding the three bands of pixel (r, c); entry [r * w + c]
    of the flattened mask is the mask at (r, c); and predictions, one per
    row, are put back at the pixel they belong to by
    [reshape(train_mask.shape)], which raises [ValueError] when their
    number is not [h * w]. *)
Theorem features_and_labels_are_aligned (im train_mask : ndarray Z) (h w : nat) :
  shape im = [3%nat; h; w] -> well_shaped im ->
  shape train_mask = [h; w] ->
  exists im_rgb xs,
    np_transpose_120 im = Ok im_rgb /\
    take 2 (shape im_rgb) = [h; w] /\
    np_reshape_rows3 im_rgb = Ok xs /\
    shape xs = [(h * w)%nat; 3%nat] /\
    (well_shaped train_mask -> shape (np_ravel train_mask) = [(h * w)%nat]) /\
    (forall r c k, (r < h)%nat -> (c < w)%nat -> (k < 3)%nat ->
       data xs !! ((r * w + c) * 3 + k)%nat = data im !! (k * (h * w) + (r * w + c))%nat) /\
    (forall r c, (r < h)%nat -> (c < w)%nat ->
       data (np_ravel train_mask) !! (r * w + c)%nat = item2 train_mask r c) /\
    (forall pred_ys : ndarray float64,
       length (data pred_ys) = (h * w)%nat ->
       exists pred_mask,
         np_reshape pred_ys (shape train_mask) = Ok pred_mask /\
         shape pred_mask = shape train_mask /\ well_shaped pred_mask /\
         forall r c, (r < h)%nat -> (c < w)%nat ->
           item2 pred_mask r c = data pred_ys !! (r * w + c)%nat) /\
    (forall pred_ys : ndarray float64,
       length (data pred_ys) <> (h * w)%nat ->
       np_reshape pred_ys (shape train_mask) = Raise ValueError).
Proof.
  intros Him Hws Hmask.
  destruct (np_transpose_120_lookup im 3 h w Him Hws) as (im_rgb & Htr & Hsh & Hwr & Hlk).
  assert (Hlen : length (data im_rgb) = (h * w * 3)%nat).
  { unfold well_shaped in Hwr. rewrite Hsh in Hwr. simpl in Hwr. lia. }
  exists im_rgb, (mk_ndarray [(h * w)%nat; 3%nat] (data im_rgb)).
  split; [exact Htr|]. split; [rewrite Hsh; reflexivity|].
  split.
  { unfold np_reshape_rows3. rewrite Hlen, Nat.Div0.mod_mul, Nat.div_mul by lia.
    reflexivity. }
  split; [reflexivity|].
  split.
  { intros Hwm. unfold np_ravel; cbn [shape]. unfold well_shaped in Hwm.
    rewrite Hmask in Hwm. simpl in Hwm. f_equal. lia. }
  split.
  { intros r c k Hr Hc Hk. cbn [data]. apply Hlk; [nia | exact Hk]. }
  split.
  { intros r c Hr Hc. rewrite (item2_lookup train_mask h w) by assumption. reflexivity. }
  split.
  - intros pred_ys Hl. rewrite np_reshape_ok by (rewrite Hmask, Hl; simpl; lia).
    eexists. split; [reflexivity|]. cbn [shape data]. split; [reflexivity|].
    split; [unfold well_shaped; cbn [shape data]; rewrite Hmask, Hl; simpl; lia|].
    intros r c Hr Hc.
    exact (item2_lookup (mk_ndarray (shape train_mask) (data pred_ys)) h w r c Hmask Hr Hc).
  - intros pred_ys Hl. unfold np_reshape. rewrite Hmask.
    destruct (Nat.eqb_spec (size_of [h; w]) (length (data pred_ys))) as [E|E];
      [|reflexivity].
    simpl in E. exfalso. apply Hl. lia.
Qed.

(** the window *)
Lemma take_drop_one {A} (l : list A) (i : nat) :
  take 1 (drop i l) = match l !! i with Some x => [x] | None => [] end.
Proof.
  revert i. induction l as [|x l IH]; intros [|i]; simpl; try reflexivity.
  apply IH.
Qed.

Lemma np_slice2_np_map {A B} (f : A -> B) (a : ndarray A) (r0 r1 c0 c1 : nat) :
  np_slice2 (np_map f a) r0 r1 c0 c1 = np_map f <$> np_slice2 a r0 r1 c0 c1.
Proof.
  unfold np_slice2, np_map; cbn [shape data].
  destruct (shape a) as [|h [|w sh]]; try reflexivity.
  cbn [fmap result_fmap shape data]. do 2 f_equal.
  rewrite map_flat_map_comm. apply flat_map_ext. intros r.
  rewrite map_flat_map_comm. apply flat_map_ext. intros c.
  rewrite <- fmap_drop, <- fmap_take. reflexivity.
Qed.

Lemma window_piece {A} (l : list A) (w c0 n r : nat) :
  (r * w + c0 + n <= length l)%nat ->
  flat_map (fun c => take 1 (drop ((r * w + c) * 1) l)) (seq c0 n)
  = take n (drop (r * w + c0) l).
Proof.
  revert c0. induction n as [|n IH]; intros c0 Hl; [rewrite take_0; reflexivity|].
  cbn [seq flat_map]. rewrite IH by lia. rewrite Nat.mul_1_r.
  destruct (lookup_lt_is_Some_2 l (r * w + c0)%nat) as [x Hx]; [lia|].
  rewrite take_drop_one, Hx.
  rewrite (drop_S l x (r * w + c0)) by exact Hx. cbn [app take].
  replace (r * w + S c0)%nat with (S (r * w + c0)) by lia. reflexivity.
Qed.

(** X5: the window [[2900:3200, 2000:2300]] is cut to the array: on an
    array of two axes or more it never raises, and gives rows 2900 to 3199
    and columns 2000 to 2299 as far as they exist (nothing at all of an
    array of 2900 rows or fewer), the other axes and the invariant of the
    shape kept; entry (i, j) of the window of a matrix is entry
    (2900 + i, 2000 + j) of the matrix; an array of fewer than two axes
    raises [IndexError]; and the window of an array mapped elementwise is
    the window mapped. *)
Theorem window_is_cut_to_the_array {A} (a : ndarray A) :
  (forall h w sh, shape a = h :: w :: sh ->
     exists crop,
       window a = Ok crop /\
       shape crop = (Nat.min 3200 h - Nat.min 2900 h)%nat
                    :: (Nat.min 2300 w - Nat.min 2000 w)%nat :: sh /\
       (well_shaped a -> well_shaped crop)) /\
  (forall h w, shape a = [h; w] -> well_shaped a ->
     exists crop,
       window a = Ok crop /\
       forall i j, item2 crop i j
                   = if Nat.ltb i 300 && Nat.ltb j 300
                     then item2 a (2900 + i) (2000 + j) else None) /\
  ((length (shape a) < 2)%nat -> window a = Raise IndexError) /\
  (forall B (f : A -> B), window (np_map f a) = np_map f <$> window a).
Proof.
  split; [|split; [|split]].
  - intros h w sh Hsh. unfold window, np_slice2. rewrite Hsh.
    eexists. split; [reflexivity|]. cbn [shape data]. split; [reflexivity|].
    intros Hws. unfold well_shaped in *. rewrite Hsh in Hws. cbn [shape data] in *.
    change (size_of (h :: w :: sh)) with (h * (w * size_of sh))%nat in Hws.
    set (sz := size_of sh) in *.
    set (r0 := Nat.min 2900 h). set (r1 := Nat.min 3200 h).
    set (c0 := Nat.min 2000 w). set (c1 := Nat.min 2300 w).
    change (size_of ((r1 - r0)%nat :: (c1 - c0)%nat :: sh))
      with ((r1 - r0) * ((c1 - c0) * sz))%nat.
    apply flat_map_seq_length. intros r Hr.
    apply flat_map_seq_length. intros c Hc.
    rewrite length_take, length_drop, Hws.
    assert (r < h)%nat by lia. assert (c < w)%nat by lia.
    assert (Hrc : (r * w + c + 1 <= h * w)%nat) by nia.
    apply (Nat.mul_le_mono_r _ _ sz) in Hrc. lia.
  - intros h w Hsh Hws. unfold window, np_slice2. rewrite Hsh.
    eexists. split; [reflexivity|]. intros i j.
    unfold well_shaped in Hws. rewrite Hsh in Hws. simpl in Hws.
    unfold item2. rewrite Hsh. cbn [shape data].
    set (r0 := Nat.min 2900 h). set (r1 := Nat.min 3200 h).
    set (c0 := Nat.min 2000 w). set (c1 := Nat.min 2300 w).
    change (size_of []) with 1%nat.
    assert (Hpiece : forall r, (r0 <= r < r0 + (r1 - r0))%nat ->
              flat_map (fun c => take 1 (drop ((r * w + c) * 1) (data a))) (seq c0 (c1 - c0))
              = take (c1 - c0) (drop (r * w + c0) (data a))).
    { intros r Hr. apply window_piece. assert (r < h)%nat by lia.
      assert (r * w + w <= h * w)%nat by nia. lia. }
    destruct (Nat.ltb_spec i (r1 - r0)) as [Hi|Hi];
      destruct (Nat.ltb_spec j (c1 - c0)) as [Hj|Hj]; cbn [andb].
    + assert (Hi' : (i < 300)%nat) by lia. assert (Hj' : (j < 300)%nat) by lia.
      assert (Hr : (2900 + i < h)%nat) by lia. assert (Hc : (2000 + j < w)%nat) by lia.
      apply Nat.ltb_lt in Hi', Hj', Hr, Hc. rewrite Hi', Hj', Hr, Hc. cbn [andb].
      apply Nat.ltb_lt in Hr, Hc.
      rewrite (flat_map_seq_lookup _ (c1 - c0)); [| |lia|lia].
      2:{ intros r Hr'. rewrite Hpiece by exact Hr'. rewrite length_take, length_drop.
          assert (r < h)%nat by lia. assert (r * w + w <= h * w)%nat by nia. lia. }
      rewrite Hpiece by lia. rewrite lookup_take, decide_True by lia.
      rewrite lookup_drop.
      assert (Er : r0 = 2900%nat) by lia. assert (Ec : c0 = 2000%nat) by lia.
      rewrite Er, Ec. f_equal. lia.
    + destruct (Nat.ltb i 300 && Nat.ltb j 300) eqn:E; [|reflexivity].
      apply andb_true_iff in E. destruct E as [E1 E2]. apply Nat.ltb_lt in E1, E2.
      destruct (Nat.ltb_spec (2900 + i) h); destruct (Nat.ltb_spec (2000 + j) w);
        cbn [andb]; try reflexivity. lia.
    + destruct (Nat.ltb i 300 && Nat.ltb j 300) eqn:E; [|reflexivity].
      apply andb_true_iff in E. destruct E as [E1 E2]. apply Nat.ltb_lt in E1, E2.
      destruct (Nat.ltb_spec (2900 + i) h); destruct (Nat.ltb_spec (2000 + j) w);
        cbn [andb]; try reflexivity. lia.
    + destruct (Nat.ltb i 300 && Nat.ltb j 300) eqn:E; [|reflexivity].
      apply andb_true_iff in E. destruct E as [E1 E2]. apply Nat.ltb_lt in E1, E2.
      destruct (Nat.ltb_spec (2900 + i) h); destruct (Nat.ltb_spec (2000 + j) w);
        cbn [andb]; try reflexivity. lia.
  - intros Hl. unfold window, np_slice2.
    destruct (shape a) as [|h [|w sh]]; simpl in Hl; try reflexivity. lia.
  - intros B f. apply np_slice2_np_map.
Qed.

(** ** [scale_percentile]: a channel of one value *)

(** a finite number minus itself is zero *)
Lemma f64_sub_self (m : float64) :
  f64_is_finite m = true -> f64_is_zero (f64_sub m m) = true.
Proof.
  destruct m as [s|s| |s mx ex]; try discriminate; intros _.
  - destruct s; reflexivity.
  - unfold f64_sub, SFsub. rewrite Z.sub_diag. reflexivity.
Qed.

(** zero by zero is no number, and clipping leaves it so *)
Lemma f64_clip_zero_by_zero (x y lo hi : float64) :
  f64_is_zero x = true -> f64_is_zero y = true ->
  f64_clip lo hi (f64_div x y) = S754_nan.
Proof.
  destruct x as [sx|sx| |sx mx ex]; try discriminate;
    destruct y as [sy|sy| |sy my ey]; try discriminate; intros _ _.
  unfold f64_clip, f64_lt, f64_gt, f64_div, SFdiv, SFltb. simpl.
  destruct lo, hi; reflexivity.
Qed.

Section ConstantChannel.
Context `{Numpy} {A : Type} (astype_float64 : A -> float64).

(** every entry of the result, from the entry of the input and the
    percentiles of its channel *)
Lemma scale_percentile_entries
  (matrix : ndarray A) (w h d : nat) (mins p99 : ndarray float64) :
  shape matrix = [w; h; d] ->
  well_shaped matrix ->
  percentile (np_map astype_float64 (mk_ndarray [(w * h)%nat; d] (data matrix))) 1 = Ok mins ->
  percentile (np_map astype_float64 (mk_ndarray [(w * h)%nat; d] (data matrix))) 99 = Ok p99 ->
  shape mins = [d] -> length (data mins) = d ->
  shape p99 = [d] -> length (data p99) = d ->
  exists r,
    scale_percentile astype_float64 matrix = Ok r /\
    shape r = shape matrix /\
    forall i x lo hi,
      data matrix !! i = Some x ->
      data mins !! (i mod d)%nat = Some lo ->
      data p99 !! (i mod d)%nat = Some hi ->
      data r !! i
      = Some (f64_clip (f64_of_Z 0) (f64_of_Z 1)
                (f64_div (f64_sub (astype_float64 x) lo) (f64_sub hi lo))).
Proof.
  intros Hsh Hws Hmins Hp99 Smins Lmins Sp99 Lp99.
  unfold well_shaped in Hws. rewrite Hsh in Hws. simpl in Hws.
  assert (Hlen : length (data matrix) = (w * h * d)%nat) by lia.
  unfold scale_percentile. rewrite Hsh. simpl unpack3.
  cbn [mbind result_bind].
  rewrite (np_reshape_ok matrix) by (simpl; lia).
  cbn [mbind result_bind].
  rewrite Hmins, Hp99. cbn [mbind result_bind].
  unfold np_rowwise at 2. cbn [shape np_map]. rewrite Smins.
  rewrite Lmins, Nat.eqb_refl. cbn [andb mbind result_bind].
  unfold np_rowwise. cbn [shape data np_map np_map2]. rewrite Sp99.
  rewrite length_zip_with, Lmins, Lp99, Nat.min_id, Nat.eqb_refl.
  cbn [andb mbind result_bind].
  rewrite np_reshape_ok
    by (cbn [data np_map]; rewrite !length_imap, length_map; simpl; lia).
  cbn [mbind result_bind].
  eexists. split; [reflexivity|]. split; [reflexivity|].
  intros i x lo hi Hx Hlo Hhi. cbn [data np_map].
  rewrite list_lookup_fmap, !list_lookup_imap, list_lookup_fmap, Hx.
  cbn [fmap option_fmap option_map].
  rewrite !nth_lookup, Hlo. cbn [default].
  rewrite lookup_zip_with, Hhi, Hlo. reflexivity.
Qed.

(** X6: a channel of one value is not scaled but lost.  Where the 1st
    and the 99th percentile of a channel are the same finite number, every
    entry of that channel with this value comes out as NaN (zero divided
    by zero, which clipping leaves as it is): the result is not within
    0 and 1. *)
Theorem scale_percentile_of_a_constant_channel
  (matrix : ndarray A) (w h d : nat) (mins p99 : ndarray float64)
  (i : nat) (x : A) (m : float64) :
  shape matrix = [w; h; d] ->
  well_shaped matrix ->
  percentile (np_map astype_float64 (mk_ndarray [(w * h)%nat; d] (data matrix))) 1 = Ok mins ->
  percentile (np_map astype_float64 (mk_ndarray [(w * h)%nat; d] (data matrix))) 99 = Ok p99 ->
  shape mins = [d] -> length (data mins) = d ->
  shape p99 = [d] -> length (data p99) = d ->
  data matrix !! i = Some x ->
  data mins !! (i mod d)%nat = Some m ->
  data p99 !! (i mod d)%nat = Some m ->
  f64_is_finite m = true ->
  astype_float64 x = m ->
  exists r,
    scale_percentile astype_float64 matrix = Ok r /\
    shape r = shape matrix /\
    data r !! i = Some S754_nan /\
    ~ Forall in_unit_interval (data r).
Proof.
  intros Hsh Hws Hmins Hp99 Smins Lmins Sp99 Lp99 Hx Hlo Hhi Hfin Hxm.
  destruct (scale_percentile_entries matrix w h d mins p99
              Hsh Hws Hmins Hp99 Smins Lmins Sp99 Lp99) as (r & Hr & Hshape & Hent).
  exists r. split; [exact Hr|]. split; [exact Hshape|].
  assert (Hnan : data r !! i = Some S754_nan).
  { pose proof (Hent i x m m Hx Hlo Hhi) as He. rewrite Hxm in He.
    rewrite f64_clip_zero_by_zero in He by (apply f64_sub_self, Hfin). exact He. }
  split; [exact Hnan|].
  intros Hall. pose proof (proj1 (Forall_lookup _ _) Hall i _ Hnan) as [H0 _].
  discriminate H0.
Qed.

(** X7: where the percentiles of a channel are a finite number and a
    finite distance other than zero apart, an entry at the 1st percentile
    comes out as zero. *)
Theorem scale_percentile_at_the_first_percentile
  (matrix : ndarray A) (w h d : nat) (mins p99 : ndarray float64)
  (i : nat) (x : A) (lo hi : float64) :
  shape matrix = [w; h; d] ->
  well_shaped matrix ->
  percentile (np_map astype_float64 (mk_ndarray [(w * h)%nat; d] (data matrix))) 1 = Ok mins ->
  percentile (np_map astype_float64 (mk_ndarray [(w * h)%nat; d] (data matrix))) 99 = Ok p99 ->
  shape mins = [d] -> length (data mins) = d ->
  shape p99 = [d] -> length (data p99) = d ->
  data matrix !! i = Some x ->
  data mins !! (i mod d)%nat = Some lo ->
  data p99 !! (i mod d)%nat = Some hi ->
  f64_is_finite lo = true ->
  f64_is_finite (f64_sub hi lo) = true -> f64_is_zero (f64_sub hi lo) = false ->
  astype_float64 x = lo ->
  exists r v,
    scale_percentile astype_float64 matrix = Ok r /\
    data r !! i = Some v /\ f64_is_zero v = true.
Proof.
  intros Hsh Hws Hmins Hp99 Smins Lmins Sp99 Lp99 Hx Hlo Hhi Hfin Hdf Hdz Hxm.
  destruct (scale_percentile_entries matrix w h d mins p99
              Hsh Hws Hmins Hp99 Smins Lmins Sp99 Lp99) as (r & Hr & _ & Hent).
  exists r. eexists. split; [exact Hr|]. split; [exact (Hent i x lo hi Hx Hlo Hhi)|].
  rewrite Hxm. pose proof (f64_sub_self lo Hfin) as Hz.
  destruct (f64_sub lo lo) as [s0| | |]; try discriminate.
  destruct (f64_sub hi lo) as [s1|s1| |s1 m1 e1]; try discriminate.
  destruct s0, s1; reflexivity.
Qed.

End ConstantChannel.

(** ** [show_mask] *)

Section ShowMask.
Context `{Tifffile}.

(** X8: [show_mask] shows three planes, each the mask times 255: for a
    binary mask that is an image of shape (3, ...) of 0 and 255, without
    wrap-around in [uint8]; it shows the image and then calls [plt.show],
    and where [tiff.imshow] raises, it raises the same and nothing is
    shown. *)
Theorem show_mask_shows_three_planes :
  (forall m : ndarray Z, binary_mask m ->
     exists img,
       times_255_uint8 (np_stack3 m) = IntImage img /\
       shape img = 3%nat :: shape m /\
       Forall (fun v => v = 0 \/ v = 255) (data img) /\
       forall k i, (k < 3)%nat -> (i < length (data m))%nat ->
         data img !! (k * length (data m) + i)%nat
         = (fun v => 255 * v) <$> data m !! i) /\
  (forall A (times_255 : ndarray A -> image_data) (m : ndarray A) (w : world),
     let img := times_255 (np_stack3 m) in
     show_mask times_255 m w
     = match tiff_imshow img with
       | Ok _ => (mk_world (files w) (argv w) (environ w)
                    (trace w ++ [Imshow img; PltShow]), Ok tt)
       | Raise e => (w, Raise e)
       end).
Proof.
  split.
  - intros m Hbin. eexists. split; [reflexivity|]. cbn [shape data np_map np_stack3].
    split; [reflexivity|]. split.
    + unfold binary_mask in Hbin. rewrite !map_app, !Forall_app.
      assert (Hm : Forall (fun v => v = 0 \/ v = 255)
                     (map (fun v => (255 * v) mod 2 ^ 8) (data m))).
      { apply Forall_forall. intros v Hv. apply list_elem_of_fmap in Hv.
        destruct Hv as (u & -> & Hu).
        destruct (proj1 (Forall_forall _ _) Hbin u Hu) as [-> | ->];
          [left | right]; reflexivity. }
      auto.
    + intros k i Hk Hi.
      rewrite list_lookup_fmap.
      assert (Hl : (data m ++ data m ++ data m) !! (k * length (data m) + i)%nat
                   = data m !! i).
      { destruct k as [|[|[|k]]]; [| | |lia].
        - rewrite lookup_app_l by lia. f_equal.
        - rewrite lookup_app_r by lia. rewrite lookup_app_l by lia. f_equal. lia.
        - rewrite lookup_app_r by lia. rewrite lookup_app_r by lia. f_equal. lia. }
      rewrite Hl.
      destruct (data m !! i) as [v|] eqn:Ev; [|reflexivity]. cbn.
      unfold binary_mask in Hbin.
      destruct (proj1 (Forall_lookup _ _) Hbin i v Ev) as [-> | ->]; reflexivity.
  - intros A times_255 m w img. unfold show_mask, imshow. fold img.
    rewrite bind_io_unfold, bind_io_unfold. unfold lift. cbn [fst snd].
    destruct (tiff_imshow img) as [[]|e]; [|reflexivity].
    unfold log, plt_show, log. cbn. rewrite <- app_assoc. reflexivity.
Qed.

End ShowMask.

(** ** [mask_to_polygons]: what is dropped, and what is rejected *)

Lemma associate_children_more_contours approx extra rows :
  forall idx cc ch,
    (idx + length rows <= length approx)%nat ->
    associate_children (approx ++ extra) rows idx cc ch
    = associate_children approx rows idx cc ch.
Proof.
  induction rows as [|row rows IH]; intros idx cc ch Hl; [reflexivity|].
  simpl in Hl. simpl.
  destruct (unpack_parent row) as [p|e]; cbn [mbind result_bind]; [|reflexivity].
  destruct (negb (Z.eqb p (-1))).
  - unfold list_item. rewrite lookup_app_l by lia.
    destruct (approx !! idx); cbn [mbind result_bind]; [|reflexivity].
    apply IH. lia.
  - apply IH. lia.
Qed.

Lemma associate_children_app approx rows rows' :
  forall idx cc ch,
    associate_children approx (rows ++ rows') idx cc ch
    = match associate_children approx rows idx cc ch with
      | Ok (cc1, ch1) => associate_children approx rows' (idx + length rows)%nat cc1 ch1
      | Raise e => Raise e
      end.
Proof.
  induction rows as [|row rows IH]; intros idx cc ch.
  - simpl. rewrite Nat.add_0_r. reflexivity.
  - simpl.
    destruct (unpack_parent row) as [p|e]; cbn [mbind result_bind]; [|reflexivity].
    replace (idx + S (length rows))%nat with (S idx + length rows)%nat by lia.
    destruct (negb (Z.eqb p (-1))).
    + destruct (list_item approx idx); cbn [mbind result_bind]; [|reflexivity].
      apply IH.
    + apply IH.
Qed.

(** the first loop gets through rows of four entries that stay within the
    contours *)
Lemma associate_children_returns approx rows :
  forall idx cc ch,
    Forall (fun row => length row = 4%nat) rows ->
    (idx + length rows <= length approx)%nat ->
    exists cc' ch', associate_children approx rows idx cc ch = Ok (cc', ch').
Proof.
  induction rows as [|row rows IH]; intros idx cc ch H4 Hl; [simpl; eauto|].
  inversion H4 as [|? ? Hrow H4']; subst. simpl in Hl.
  destruct row as [|a [|b [|c [|p [|? ?]]]]]; try discriminate.
  simpl. destruct (negb (Z.eqb p (-1))).
  - destruct (lookup_lt_is_Some_2 approx idx) as [cnt Hc]; [lia|].
    unfold list_item. rewrite Hc. cbn [mbind result_bind]. apply IH; [assumption|lia].
  - apply IH; [assumption|lia].
Qed.

(** and it gets through such rows only *)
Lemma associate_children_rows approx rows :
  forall idx cc ch r,
    associate_children approx rows idx cc ch = Ok r ->
    Forall (fun row => length row = 4%nat) rows.
Proof.
  induction rows as [|row rows IH]; intros idx cc ch r Hr; [constructor|].
  simpl in Hr.
  destruct row as [|a [|b [|c [|p [|? ?]]]]]; try discriminate.
  constructor; [reflexivity|].
  cbn [unpack_parent mbind result_bind] in Hr.
  destruct (negb (Z.eqb p (-1))).
  - destruct (list_item approx idx); [|discriminate]. cbn [mbind result_bind] in Hr.
    eapply IH, Hr.
  - eapply IH, Hr.
Qed.

Lemma associate_children_child_contours approx rows cc ch :
  length rows = length approx ->
  associate_children approx rows 0 ∅ ∅ = Ok (cc, ch) ->
  forall idx, idx ∈ ch <-> has_parent rows idx = true.
Proof.
  intros Hlen Hok idx.
  pose proof (associate_children_rows _ _ _ _ _ _ Hok) as H4.
  destruct (associate_children_recorded approx rows Hlen H4 rows [] ∅ ∅ eq_refl)
    as (cc' & ch' & Hok' & Hch & _).
  { split.
    - intros i. split; [intros Hi; exfalso; set_solver | intros [Hi _]; simpl in Hi; lia].
    - intros p _. rewrite lookup_empty. reflexivity. }
  simpl in Hok'. rewrite Hok in Hok'. injection Hok' as <- <-.
  rewrite Hch. split; [intros [_ Hp]; exact Hp|].
  intros Hp. split; [|exact Hp]. apply has_parent_lt, Hp.
Qed.

Section DroppedAndRejected.
Context `{Cv2} `{Shapely}.

Lemma create_polygons_app min_area cc ch contours contours' :
  forall idx,
    create_polygons min_area cc ch (contours ++ contours') idx
    = (ps ← create_polygons min_area cc ch contours idx;
       ps' ← create_polygons min_area cc ch contours' (idx + length contours)%nat;
       Ok (ps ++ ps')).
Proof.
  induction contours as [|cnt contours IH]; intros idx.
  - simpl. rewrite Nat.add_0_r.
    destruct (create_polygons _ _ _ contours' idx); reflexivity.
  - simpl. replace (idx + S (length contours))%nat with (S idx + length contours)%nat by lia.
    destruct (bool_decide (idx ∉ ch) && f64_ge (contourArea cnt) min_area).
    + destruct (shape_at cnt 1) as [k|e]; cbn [mbind result_bind]; [|reflexivity].
      destruct (assert (Nat.eqb k 1)); cbn [mbind result_bind]; [|reflexivity].
      destruct (slice_axis1_first cnt); cbn [mbind result_bind]; [|reflexivity].
      destruct (holes_of _ _); cbn [mbind result_bind]; [|reflexivity].
      destruct (Polygon_of _ _); cbn [mbind result_bind]; [|reflexivity].
      rewrite IH.
      destruct (create_polygons _ _ _ contours (S idx)); cbn [mbind result_bind];
        [|reflexivity].
      destruct (create_polygons _ _ _ contours' _); reflexivity.
    + apply IH.
Qed.

(** the second loop reads [cnt_children] at the contours it builds a
    polygon around, and nowhere else *)
Lemma create_polygons_reads min_area cc cc' ch ch' contours :
  forall idx,
    (forall j cnt, contours !! j = Some cnt ->
       (bool_decide ((idx + j)%nat ∉ ch) = bool_decide ((idx + j)%nat ∉ ch')) /\
       ((idx + j)%nat ∉ ch -> f64_ge (contourArea cnt) min_area = true ->
        cc !! Z.of_nat (idx + j) = cc' !! Z.of_nat (idx + j))) ->
    create_polygons min_area cc ch contours idx
    = create_polygons min_area cc' ch' contours idx.
Proof.
  induction contours as [|cnt contours IH]; intros idx Hsame; [reflexivity|].
  simpl.
  destruct (Hsame 0%nat cnt eq_refl) as [Hch Hcc]. rewrite Nat.add_0_r in Hch, Hcc.
  assert (Hrest : create_polygons min_area cc ch contours (S idx)
                  = create_polygons min_area cc' ch' contours (S idx)).
  { apply IH. intros j c Hj.
    replace (S idx + j)%nat with (idx + S j)%nat by lia. apply (Hsame (S j) c Hj). }
  rewrite <- Hch, Hrest.
  destruct (bool_decide (idx ∉ ch)) eqn:Ei; cbn [andb]; [|reflexivity].
  destruct (f64_ge (contourArea cnt) min_area) eqn:Ea; [|reflexivity].
  apply bool_decide_eq_true in Ei. rewrite (Hcc Ei eq_refl). reflexivity.
Qed.

(** X13: a contour whose parent is not the shell of a polygon is
    dropped.  Let one more contour come after the others, with a parent
    that has a parent itself (a contour inside a hole), or that does not
    pass the area filter, or that is no index of a contour: the polygons
    are those of the other contours alone; the new contour is neither a
    shell nor a hole. *)
Theorem contour_under_no_shell_is_dropped (min_area : float64)
  (approx_contours : list (ndarray Z)) (rows : list (list Z))
  (c : ndarray Z) (next previous first_child parent_idx : Z) :
  length rows = length approx_contours ->
  parent_idx <> -1 ->
  (forall idx, parent_idx = Z.of_nat idx ->
     ~ becomes_shell min_area approx_contours rows idx) ->
  all_polygons_of min_area (approx_contours ++ [c])
    [rows ++ [[next; previous; first_child; parent_idx]]]
  = all_polygons_of min_area approx_contours [rows].
Proof.
  intros Hlen Hp Hno. unfold all_polygons_of.
  cbn [length Nat.eqb assert list_item lookup list_lookup mbind result_bind].
  rewrite associate_children_app.
  rewrite associate_children_more_contours by lia.
  destruct (associate_children approx_contours rows 0 ∅ ∅) as [[cc ch]|e] eqn:Hok;
    [|reflexivity].
  pose proof (associate_children_child_contours _ _ _ _ Hlen Hok) as Hch.
  cbn [associate_children unpack_parent mbind result_bind].
  apply Z.eqb_neq in Hp. rewrite Hp. cbn [negb].
  unfold list_item. rewrite lookup_app_r by lia.
  replace (0 + length rows - length approx_contours)%nat with 0%nat by lia.
  cbn [lookup list_lookup mbind result_bind].
  rewrite create_polygons_app.
  cbn [create_polygons].
  rewrite bool_decide_eq_false_2
    by (intros Hn; apply Hn, elem_of_union_l, elem_of_singleton_2; lia).
  cbn [andb].
  rewrite (create_polygons_reads min_area _ cc _ ch).
  - destruct (create_polygons min_area cc ch approx_contours 0) as [ps|e];
      cbn [mbind result_bind]; [|reflexivity].
    rewrite app_nil_r. reflexivity.
  - intros j cnt Hj. rewrite !Nat.add_0_l.
    assert (Hjn : (j < length approx_contours)%nat) by (eapply lookup_lt_Some, Hj).
    split.
    + apply bool_decide_ext. rewrite not_elem_of_union, not_elem_of_singleton.
      split; [intros [_ ?]; assumption | intros ?; split; [lia | assumption]].
    + intros Hnot Harea. unfold defaultdict_append.
      apply lookup_insert_ne. intros ->.
      apply (Hno j eq_refl). exists cnt. split; [exact Hj|]. split; [|exact Harea].
      destruct (has_parent rows j) eqn:E; [|reflexivity].
      exfalso. apply Hnot, elem_of_union_r, Hch, E.
Qed.

Lemma mask_to_polygons_of_contours (mask : ndarray bool) (epsilon min_area : float64) :
  snd (fst (findContours (np_map mask_to_uint8 mask) RETR_CCOMP CHAIN_APPROX_TC89_KCOS)) <> [] ->
  mask_to_polygons mask epsilon min_area
  = (all_polygons ←
       all_polygons_of min_area
         (map (fun cnt => approxPolyDP cnt epsilon true)
            (snd (fst (findContours (np_map mask_to_uint8 mask)
                         RETR_CCOMP CHAIN_APPROX_TC89_KCOS))))
         (snd (findContours (np_map mask_to_uint8 mask) RETR_CCOMP CHAIN_APPROX_TC89_KCOS));
     Ok (fix_validity (MultiPolygon all_polygons))).
Proof.
  unfold mask_to_polygons.
  destruct (findContours _ _ _) as [[image contours] hierarchy]. cbn [fst snd].
  destruct contours; [intros Hne; exfalso; apply Hne; reflexivity | reflexivity].
Qed.

(** X14: what [mask_to_polygons] does with a hierarchy that is not of
    the expected form, when there are contours: if the hierarchy has not
    exactly one plane, the [assert] fails; a row that has not four entries
    raises [ValueError] (the rows before it being well-formed); a row
    beyond the last contour that names a parent raises [IndexError]; and a
    first contour that becomes a shell and whose second axis is not of
    length 1 makes the second [assert] fail. *)
Theorem malformed_hierarchy_is_rejected
  (mask : ndarray bool) (epsilon min_area : float64) :
  let '(_, contours, hierarchy) :=
    findContours (np_map mask_to_uint8 mask) RETR_CCOMP CHAIN_APPROX_TC89_KCOS in
  let approx_contours := map (fun cnt => approxPolyDP cnt epsilon true) contours in
  contours <> [] ->
  (length hierarchy <> 1%nat ->
   mask_to_polygons mask epsilon min_area = Raise AssertionError) /\
  (forall before row rest,
     hierarchy = [before ++ row :: rest] ->
     Forall (fun r => length r = 4%nat) before ->
     (length before <= length contours)%nat ->
     length row <> 4%nat ->
     mask_to_polygons mask epsilon min_area = Raise ValueError) /\
  (forall before next previous first_child parent_idx rest,
     hierarchy = [before ++ [next; previous; first_child; parent_idx] :: rest] ->
     Forall (fun r => length r = 4%nat) before ->
     length before = length contours ->
     parent_idx <> -1 ->
     mask_to_polygons mask epsilon min_area = Raise IndexError) /\
  (forall rows cnt rest k,
     hierarchy = [rows] ->
     Forall (fun r => length r = 4%nat) rows ->
     length rows = length contours ->
     approx_contours = cnt :: rest ->
     has_parent rows 0 = false ->
     f64_ge (contourArea cnt) min_area = true ->
     shape cnt !! 1%nat = Some k -> k <> 1%nat ->
     mask_to_polygons mask epsilon min_area = Raise AssertionError).
Proof.
  pose proof (mask_to_polygons_of_contours mask epsilon min_area) as Hm.
  destruct (findContours _ _ _) as [[image contours] hierarchy]. cbn [fst snd] in Hm.
  cbv zeta. intros Hne. specialize (Hm Hne).
  set (approx := map _ contours) in *.
  assert (Hla : length approx = length contours) by apply length_map.
  split; [|split; [|split]].
  - intros Hl. rewrite Hm. unfold all_polygons_of.
    destruct (Nat.eqb_spec (length hierarchy) 1) as [E|E]; [contradiction|].
    reflexivity.
  - intros before row rest -> H4 Hlb Hrow. rewrite Hm. unfold all_polygons_of.
    cbn [length Nat.eqb assert list_item lookup list_lookup mbind result_bind].
    rewrite associate_children_app.
    destruct (associate_children_returns approx before 0 ∅ ∅ H4) as (cc & ch & ->); [lia|].
    cbn [associate_children].
    destruct row as [|a [|b [|c [|p [|? ?]]]]]; try reflexivity.
    exfalso. apply Hrow. reflexivity.
  - intros before next previous first_child parent_idx rest -> H4 Hlb Hp.
    rewrite Hm. unfold all_polygons_of.
    cbn [length Nat.eqb assert list_item lookup list_lookup mbind result_bind].
    rewrite associate_children_app.
    destruct (associate_children_returns approx before 0 ∅ ∅ H4) as (cc & ch & ->); [lia|].
    cbn [associate_children unpack_parent mbind result_bind].
    apply Z.eqb_neq in Hp. rewrite Hp. cbn [negb].
    unfold list_item. rewrite lookup_ge_None_2 by lia. reflexivity.
  - intros rows cnt rest k -> H4 Hlr Happ Hpar Harea Hk Hk1.
    rewrite Hm. unfold all_polygons_of.
    cbn [length Nat.eqb assert list_item lookup list_lookup mbind result_bind].
    destruct (associate_children_returns approx rows 0 ∅ ∅ H4) as (cc & ch & Hok); [lia|].
    rewrite Hok. cbn [mbind result_bind].
    pose proof (associate_children_child_contours approx rows cc ch
                  ltac:(lia) Hok 0%nat) as Hch.
    rewrite Happ. cbn [create_polygons].
    rewrite bool_decide_eq_true_2 by (rewrite Hch, Hpar; discriminate).
    rewrite Harea. cbn [andb]. unfold shape_at. rewrite Hk. cbn [mbind result_bind].
    apply Nat.eqb_neq in Hk1. rewrite Hk1. reflexivity.
Qed.

Lemma mask_to_polygons_MultiPolygon (mask : ndarray bool) (epsilon min_area : float64)
  (g : geometry) :
  buffer_polygonal _ ->
  mask_to_polygons mask epsilon min_area = Ok g -> is_MultiPolygon g.
Proof.
  intros Hb. unfold mask_to_polygons.
  destruct (findContours _ _ _) as [[image contours] hierarchy].
  destruct contours as [|c contours].
  - intros [= <-]. exists []. reflexivity.
  - destruct (all_polygons_of _ _ _) as [ps|e]; cbn [mbind result_bind]; [|discriminate].
    intros [= <-]. apply fix_validity_MultiPolygon, Hb.
Qed.

End DroppedAndRejected.

Section RoundTrip.
Context `{Cv2} `{Shapely} `{Numpy}.

(** what [mask_for_polygons] returns, when [fillPoly] does what it promises *)
Lemma mask_for_polygons_painted (im_size : list nat) (polygons : geometry)
  (img_mask : ndarray Z) :
  fillPoly_paints _ ->
  mask_for_polygons im_size polygons = Ok img_mask ->
  shape img_mask = im_size /\ well_shaped img_mask /\ binary_mask img_mask.
Proof.
  intros Hpaint Hm.
  destruct (np_zeros_all_zero im_size) as (Hs & Hw & Hz).
  assert (Hz01 : Forall (fun v => v = 0 \/ v = 1) (data (np_zeros im_size))).
  { eapply Forall_impl; [exact Hz|]. intros v ->. left; reflexivity. }
  unfold mask_for_polygons in Hm.
  destruct (is_empty polygons).
  { injection Hm as <-. repeat split; assumption. }
  destruct (iter_polygons polygons) as [ps|e]; [|discriminate].
  cbn [mbind result_bind] in Hm. injection Hm as <-.
  set (exteriors := map _ ps). set (ints := flat_map _ ps).
  destruct (Hpaint (np_zeros im_size) exteriors 1) as [S1 P1].
  destruct (Hpaint (fillPoly (np_zeros im_size) exteriors 1) ints 0) as [S2 P2].
  split; [congruence|]. split.
  - unfold well_shaped in *. rewrite S2, S1.
    rewrite <- (Forall2_length _ _ _ P2), <- (Forall2_length _ _ _ P1). exact Hw.
  - unfold binary_mask.
    eapply Forall2_painted; [exact P2| |left; reflexivity].
    eapply Forall2_painted; [exact P1|exact Hz01|right; reflexivity].
Qed.

(** X15: what [mask_to_polygons] returns can be rasterized.  With
    [buffer] giving polygons as it promises, [mask_for_polygons] returns a
    mask for the result of [mask_to_polygons] (of the image's shape and of
    0 and 1 when [fillPoly] does what it promises), whereas on a bare
    Polygon that is not empty it raises [TypeError]: the re-wrapping is
    what the script relies on when it rasterizes the prediction. *)
Theorem predicted_polygons_can_be_rasterized
  (mask : ndarray bool) (epsilon min_area : float64) (im_size : list nat)
  (pred_polygons : geometry) :
  buffer_polygonal _ ->
  mask_to_polygons mask epsilon min_area = Ok pred_polygons ->
  (exists pred_poly_mask,
     mask_for_polygons im_size pred_polygons = Ok pred_poly_mask /\
     (fillPoly_paints _ ->
      shape pred_poly_mask = im_size /\ well_shaped pred_poly_mask /\
      binary_mask pred_poly_mask)) /\
  (forall p, polygon_is_empty p = false ->
     mask_for_polygons im_size (Polygon p) = Raise TypeError).
Proof.
  intros Hb Hm. split.
  - destruct (mask_to_polygons_MultiPolygon mask epsilon min_area _ Hb Hm) as [ps ->].
    assert (Hok : exists m, mask_for_polygons im_size (MultiPolygon ps) = Ok m).
    { unfold mask_for_polygons. destruct (is_empty (MultiPolygon ps)); eexists; reflexivity. }
    destruct Hok as [m Hok]. exists m. split; [exact Hok|].
    intros Hpaint. exact (mask_for_polygons_painted im_size _ m Hpaint Hok).
  - intros p Hp. unfold mask_for_polygons. cbn [is_empty]. rewrite Hp. reflexivity.
Qed.

End RoundTrip.

(** ** The stages, end to end *)

Section StagesEndToEnd.
Context `{Python} `{Tifffile} `{Numpy} `{Cv2} `{Shapely} `{Sklearn}.

(** one step of a run that returned *)
Ltac returned H :=
  rewrite bind_io_unfold in H;
  match type of H with
  | context [match ?m ?w with _ => _ end] =>
      let w' := fresh "w" in
      let E := fresh "E" in
      destruct (m w) as [w' [?|?]] eqn:E; [|discriminate H]
  end.

Lemma lift_returned {A} (m : result A) (w w' : world) (a : A) :
  lift m w = (w', Ok a) -> m = Ok a /\ w' = w.
Proof. unfold lift. intros [= -> ->]. split; reflexivity. Qed.

Lemma stage_rasterize_returns (l : loaded) (w w1 : world) (r : rasterized) :
  stage_rasterize l w = (w1, Ok r) ->
  r_im_size r = take 2 (shape (l_im_rgb l)) /\
  get_scalers (r_im_size r) (l_grid l) = Ok (r_scalers r) /\
  l_train_polygons l = Some (r_train_polygons r) /\
  mask_for_polygons (r_im_size r)
    (affinity_scale (r_train_polygons r) (fst (r_scalers r)) (snd (r_scalers r)))
  = Ok (r_train_mask r).
Proof.
  unfold stage_rasterize. cbv zeta. intros Hr.
  returned Hr. apply lift_returned in E as [Es ->].
  returned Hr. apply lift_returned in E as [Ep ->].
  returned Hr. apply lift_returned in E as [Em ->].
  returned Hr. returned Hr. returned Hr. returned Hr. returned Hr. returned Hr.
  cbn in Hr. injection Hr as _ <-. cbn.
  destruct (l_train_polygons l); [|discriminate]. injection Ep as ->.
  repeat split; assumption.
Qed.

Lemma stage_predict_returns (r : rasterized) (t : trained) (w w1 : world)
  (pred_mask : ndarray float64) :
  stage_predict r t w = (w1, Ok pred_mask) ->
  exists pred_ys,
    np_reshape pred_ys (shape (r_train_mask r)) = Ok pred_mask.
Proof.
  unfold stage_predict. intros Hp.
  returned Hp. returned Hp. returned Hp. returned Hp.
  returned Hp. apply lift_returned in E3 as [Er ->].
  returned Hp. returned Hp.
  cbn in Hp. injection Hp as _ <-. eauto.
Qed.

Lemma np_reshape_returns {A} (a b : ndarray A) (sh : list nat) :
  np_reshape a sh = Ok b -> shape b = sh /\ well_shaped b /\ data b = data a.
Proof.
  unfold np_reshape. destruct (Nat.eqb_spec (size_of sh) (length (data a))) as [E|E];
    [|discriminate].
  intros [= <-]. unfold well_shaped. cbn. auto.
Qed.

(** X12: the "Pixel jaccard" the script prints is an intersection over
    union.  When the rasterizing stage and the predicting stage have
    returned and [fillPoly] does what it promises, the training mask is a
    binary mask of the image's shape, the thresholded prediction has its
    shape, and what the thresholding stage prints last is the intersection
    over union of the two. *)
Theorem printed_pixel_jaccard_is_intersection_over_union
  (l : loaded) (t : trained) (r : rasterized) (pred_mask : ndarray float64)
  (w0 w1 w2 w3 : world) :
  fillPoly_paints _ ->
  stage_rasterize l w0 = (w1, Ok r) ->
  stage_predict r t w2 = (w3, Ok pred_mask) ->
  Z.of_nat (size_of (r_im_size r)) < 2 ^ 64 ->
  let pred_binary_mask := pred_binary_mask_of pred_mask in
  shape (r_train_mask r) = r_im_size r /\
  binary_mask (r_train_mask r) /\
  shape pred_binary_mask = shape (r_train_mask r) /\
  pixel_jaccard pred_binary_mask (r_train_mask r)
  = intersection_over_union pred_binary_mask (r_train_mask r) /\
  (forall w4 w5 b, stage_threshold r pred_mask w4 = (w5, Ok b) ->
     b = pred_binary_mask /\
     last (trace w5)
     = Some (Print [PyStr "Pixel jaccard";
                    PyFloat (intersection_over_union pred_binary_mask (r_train_mask r))])).
Proof.
  intros Hpaint Hr Hp Hsize pbm.
  destruct (stage_rasterize_returns l w0 w1 r Hr) as (_ & _ & _ & Hmask).
  destruct (mask_for_polygons_painted _ _ _ Hpaint Hmask) as (Hsh & Hws & Hbin).
  destruct (stage_predict_returns r t w2 w3 pred_mask Hp) as (pred_ys & Hre).
  destruct (np_reshape_returns _ _ _ Hre) as (Hps & Hpw & _).
  assert (Hj : pixel_jaccard pbm (r_train_mask r)
               = intersection_over_union pbm (r_train_mask r)).
  { apply pixel_jaccard_binary_lists; [| |exact Hbin].
    - unfold pbm, pred_binary_mask_of, np_map; cbn [data]. rewrite length_map.
      unfold well_shaped in *. congruence.
    - unfold well_shaped in Hws. rewrite Hws, Hsh. exact Hsize. }
  split; [exact Hsh|]. split; [exact Hbin|]. split; [exact Hps|]. split; [exact Hj|].
  intros w4 w5 b Ht. unfold stage_threshold in Ht. cbv zeta in Ht. fold pbm in Ht.
  returned Ht. returned Ht.
  rewrite bind_io_unfold in Ht. unfold print, log in Ht. cbn in Ht.
  injection Ht as <- <-. cbn [trace]. split; [reflexivity|].
  rewrite last_snoc, Hj. reflexivity.
Qed.

(** X16: the final Jaccard of nothing raises.  When the union of the
    predicted and the training polygons has area zero, the division of two
    Python floats raises [ZeroDivisionError]: the scoring stage ends with
    it, having printed the size of the prediction only (the pixel Jaccard
    prints NaN in that case, see X11). *)
Theorem final_jaccard_of_nothing_raises (r : rasterized) (pred_polygons : geometry)
  (w : world) (xfact yfact : float64) (final_polygons inter un : geometry) :
  py_truediv (f64_of_Z 1) (fst (r_scalers r)) = Ok xfact ->
  py_truediv (f64_of_Z 1) (snd (r_scalers r)) = Ok yfact ->
  let dumped_prediction := wkt_dumps (affinity_scale pred_polygons xfact yfact) in
  wkt_loads dumped_prediction = Ok final_polygons ->
  intersection final_polygons (r_train_polygons r) = Ok inter ->
  union final_polygons (r_train_polygons r) = Ok un ->
  f64_is_zero (area un) = true ->
  stage_score r pred_polygons w
  = (mk_world (files w) (argv w) (environ w)
       (trace w ++ [Print [PyFormat "Prediction size: {:,} bytes"
                             (Z.of_nat (String.length dumped_prediction))]]),
     Raise ZeroDivisionError).
Proof.
  intros Hx Hy dumped Hl Hi Hu Hz. unfold stage_score.
  rewrite bind_lift, Hx, bind_lift, Hy. cbv zeta. fold dumped.
  rewrite bind_io_unfold. unfold print, log. cbn [fst snd].
  rewrite bind_lift, Hl, bind_lift, Hi, bind_lift, Hu, bind_lift.
  unfold py_truediv. rewrite Hz. reflexivity.
Qed.

End StagesEndToEnd.

(** ** The properties at work on the miniature *)

Lemma Forall2_imap_painted (color : Z) (l : list Z) (f : nat -> Z -> Z) :
  (forall i v, f i v = v \/ f i v = color) ->
  Forall2 (fun old new => new = old \/ new = color) l (imap f l).
Proof.
  revert f. induction l as [|v l IH]; intros f Hf; simpl; constructor.
  - apply Hf.
  - apply IH. intros i v'. apply Hf.
Qed.

Lemma demo_fillPoly_paints : fillPoly_paints demo_cv2.
Proof.
  intros img pts color. split; [reflexivity|].
  apply Forall2_imap_painted. intros i v.
  destruct (existsb _ pts); auto.
Qed.

Lemma demo_buffer_polygonal : buffer_polygonal demo_shapely.
Proof. intros [p|[|p [|q ps]]|gs|t e] d; exact I. Qed.

Lemma demo_contours_shaped : Forall contour_shaped demo_contours.
Proof. repeat constructor; eexists; split; reflexivity. Qed.

Lemma demo_rings_accepted :
  rings_accepted (H := demo_cv2) (H0 := demo_shapely) (f64_of_Z 10) demo_contours.
Proof.
  repeat constructor; intros Hlarge;
    first [eexists; reflexivity | vm_compute in Hlarge; discriminate Hlarge].
Qed.

Lemma demo_hierarchy_shaped :
  hierarchy_shaped [demo_rows] demo_rows (length demo_contours).
Proof. repeat split. repeat constructor. Qed.

(** the square becomes the one polygon, with the large hole; the speck and
    the small hole are too small *)
Example demo_mask_to_polygons :
  mask_to_polygons (H := demo_cv2) (H0 := demo_shapely)
    demo_mask (f64_of_Z 10) (f64_of_Z 10)
  = Ok (MultiPolygon
          [mk_polygon (ring_of (H0 := demo_shapely) demo_square)
                      [ring_of (H0 := demo_shapely) demo_hole]]).
Proof. vm_compute. reflexivity. Qed.

(** what the properties of the script as a whole exclude: a program that
    writes a file does not leave the file system as it is, and a program
    that opens the file named on its command line does not do the same
    whatever the command line *)
Example a_program_that_writes :
  files (fst (write_file "out.csv" "" demo_world)) <> files demo_world.
Proof.
  intros Heq.
  assert (Hout : files (fst (write_file "out.csv" "" demo_world)) !! "out.csv" = Some "")
    by apply lookup_insert_eq.
  rewrite Heq in Hout. vm_compute in Hout. discriminate Hout.
Qed.

Example a_program_that_reads_its_command_line :
  ~ oblivious (args ← sys_argv; open_ (nth 1 args "")).
Proof.
  intros Hob.
  destruct (Hob demo_world demo_world_with_flags (conj eq_refl eq_refl)) as [_ Hr].
  vm_compute in Hr. discriminate Hr.
Qed.

Example a_program_that_reads_its_environment :
  ~ oblivious (backend ← os_environ_get "MPLBACKEND";
               match backend with
               | Some _ => mret tt
               | None => plt_show
               end).
Proof.
  intros Hob.
  destruct (Hob demo_world demo_world_with_flags (conj eq_refl eq_refl)) as [[_ Ht] _].
  vm_compute in Ht. discriminate Ht.
Qed.

(** a run on the three small files gets to the end, and does on its
    channels what the stages do, in their order *)
Example demo_run :
  snd (script (H := demo_python) (H0 := demo_tifffile) (H1 := demo_numpy)
         (H2 := demo_cv2) (H3 := demo_shapely) (H4 := demo_sklearn) demo_world) = Ok tt /\
  map kind_of
      (trace (fst (script (H := demo_python) (H0 := demo_tifffile) (H1 := demo_numpy)
                     (H2 := demo_cv2) (H3 := demo_shapely) (H4 := demo_sklearn)
                     demo_world)))
  = script_kinds.
Proof. split; vm_compute; reflexivity. Qed.

Lemma contours_become_shells_and_holes_witness :
  all_polygons_of (H := demo_cv2) (H0 := demo_shapely) (f64_of_Z 10) demo_contours [demo_rows]
  = Ok (shells_spec (H := demo_cv2) (H0 := demo_shapely) (f64_of_Z 10) demo_contours demo_rows) /\
  mask_to_polygons (H := demo_cv2) (H0 := demo_shapely) demo_mask (f64_of_Z 10) (f64_of_Z 10)
  = Ok (fix_validity (H0 := demo_shapely)
          (MultiPolygon (shells_spec (H := demo_cv2) (H0 := demo_shapely)
                           (f64_of_Z 10) demo_contours demo_rows))).
Proof.
  assert (Hne : demo_contours <> []) by discriminate.
  destruct (contours_become_shells_and_holes (H := demo_cv2) (H0 := demo_shapely)
              demo_mask (f64_of_Z 10) (f64_of_Z 10) demo_rows
              Hne demo_hierarchy_shaped demo_contours_shaped demo_rings_accepted)
    as (_ & Hall & _ & Hm).
  split; [exact Hall | exact Hm].
Defined.

Lemma pixel_jaccard_is_intersection_over_union_witness :
  tp_of demo_pred_binary_mask demo_train_mask = 1 /\
  union_size demo_pred_binary_mask demo_train_mask = 3 /\
  pixel_jaccard demo_pred_binary_mask demo_train_mask
  = intersection_over_union demo_pred_binary_mask demo_train_mask.
Proof.
  assert (Hbin : binary_mask demo_train_mask) by (repeat constructor; auto).
  assert (Hsize : Z.of_nat (length (data demo_train_mask)) < 2 ^ 64) by reflexivity.
  destruct (pixel_jaccard_is_intersection_over_union demo_pred_binary_mask demo_train_mask
              eq_refl eq_refl eq_refl Hbin Hsize) as (Htp & Hden & Hj).
  split; [reflexivity|]. split; [reflexivity | exact Hj].
Defined.

Lemma scale_percentile_in_unit_interval_witness :
  exists r,
    scale_percentile (H := demo_numpy) f64_of_Z demo_matrix = Ok r /\
    shape r = shape demo_matrix /\
    well_shaped r /\
    Forall in_unit_interval (data r).
Proof.
  destruct (scale_percentile_in_unit_interval (H := demo_numpy)) as [Himage _].
  apply (Himage demo_matrix 1%nat 2%nat 3%nat demo_mins demo_p99); try reflexivity.
  repeat split; repeat constructor.
Defined.

Lemma mask_for_polygons_is_binary_mask_witness :
  mask_for_polygons (H := demo_cv2) (H0 := demo_numpy) [4%nat; 4%nat] (MultiPolygon [])
  = Ok (np_zeros [4%nat; 4%nat]) /\
  exists img_mask,
    mask_for_polygons (H := demo_cv2) (H0 := demo_numpy) [4%nat; 4%nat] demo_truth
    = Ok img_mask /\
    shape img_mask = [4%nat; 4%nat] /\ binary_mask img_mask.
Proof.
  destruct (mask_for_polygons_is_binary_mask (H := demo_cv2) (H0 := demo_numpy)
              [4%nat; 4%nat]) as (Hempty & _ & _ & _ & Hbin & _).
  split; [exact Hempty|].
  eexists. split; [vm_compute; reflexivity|].
  apply (Hbin demo_fillPoly_paints demo_truth). vm_compute. reflexivity.
Defined.

Lemma mask_to_polygons_returns_MultiPolygon_witness :
  exists p,
    mask_to_polygons (H := demo_cv2) (H0 := demo_shapely)
      demo_mask (f64_of_Z 10) (f64_of_Z 10) = Ok (MultiPolygon [p]) /\
    buffer (Shapely := demo_shapely)
      (MultiPolygon (shells_spec (H := demo_cv2) (H0 := demo_shapely)
                       (f64_of_Z 10) demo_contours demo_rows)) (f64_of_Z 0)
    = Polygon p.
Proof.
  pose proof (mask_to_polygons_returns_MultiPolygon (H := demo_cv2) (H0 := demo_shapely)
                demo_mask (f64_of_Z 10) (f64_of_Z 10)) as (_ & _ & Hwrap & _).
  eexists. split; [|reflexivity].
  apply (Hwrap (shells_spec (H := demo_cv2) (H0 := demo_shapely)
                  (f64_of_Z 10) demo_contours demo_rows)).
  - discriminate.
  - vm_compute. reflexivity.
  - vm_compute. reflexivity.
  - reflexivity.
Defined.

Lemma load_failures_end_the_script_witness :
  raises (snd (script (H := demo_python) (H0 := demo_tifffile) (H1 := demo_numpy)
                 (H2 := demo_cv2) (H3 := demo_shapely) (H4 := demo_sklearn)
                 demo_world_no_files)) /\
  raises (snd (script (H := demo_python) (H0 := demo_tifffile) (H1 := demo_numpy)
                 (H2 := demo_cv2) (H3 := demo_shapely) (H4 := demo_sklearn)
                 demo_world_no_grid_row)) /\
  raises (snd (script (H := demo_python) (H0 := demo_tifffile) (H1 := demo_numpy)
                 (H2 := demo_cv2) (H3 := demo_shapely) (H4 := demo_sklearn)
                 demo_world_no_polygons_row)) /\
  raises (snd (script (H := demo_python) (H0 := demo_tifffile) (H1 := demo_numpy)
                 (H2 := demo_cv2) (H3 := demo_shapely) (H4 := demo_sklearn)
                 demo_world_bad_wkt)) /\
  script (H := demo_python) (H0 := demo_tifffile) (H1 := demo_numpy)
    (H2 := demo_cv2) (H3 := demo_shapely) (H4 := demo_sklearn) demo_world_no_files
  = (demo_world_no_files, Raise (FileNotFoundError grid_sizes_path)).
Proof.
  split; [|split; [|split; [|split]]].
  - destruct (load_failures_end_the_script (H := demo_python) (H0 := demo_tifffile)
                (H1 := demo_numpy) (H2 := demo_cv2) (H3 := demo_shapely)
                (H4 := demo_sklearn) demo_world_no_files) as (Habsent & _).
    apply Habsent. left. reflexivity.
  - destruct (load_failures_end_the_script (H := demo_python) (H0 := demo_tifffile)
                (H1 := demo_numpy) (H2 := demo_cv2) (H3 := demo_shapely)
                (H4 := demo_sklearn) demo_world_no_grid_row) as (_ & Hgrid & _).
    eapply Hgrid; [vm_compute; reflexivity|].
    vm_compute. repeat (constructor; [intros E; discriminate E|]). constructor.
  - destruct (load_failures_end_the_script (H := demo_python) (H0 := demo_tifffile)
                (H1 := demo_numpy) (H2 := demo_cv2) (H3 := demo_shapely)
                (H4 := demo_sklearn) demo_world_no_polygons_row) as (_ & _ & Hpoly & _).
    eapply Hpoly; [vm_compute; reflexivity|].
    vm_compute. repeat (constructor; [intros E; discriminate E|]). constructor.
  - destruct (load_failures_end_the_script (H := demo_python) (H0 := demo_tifffile)
                (H1 := demo_numpy) (H2 := demo_cv2) (H3 := demo_shapely)
                (H4 := demo_sklearn) demo_world_bad_wkt) as (_ & _ & _ & Hwkt & _).
    apply (Hwkt "6120_2_2,1,POLYGON?" [] "6120_2_2" "1" "POLYGON?" []);
      [vm_compute; reflexivity | vm_compute; reflexivity | constructor
      | vm_compute; reflexivity | eexists; vm_compute; reflexivity].
  - destruct (load_failures_end_the_script (H := demo_python) (H0 := demo_tifffile)
                (H1 := demo_numpy) (H2 := demo_cv2) (H3 := demo_shapely)
                (H4 := demo_sklearn) demo_world_no_files) as (_ & _ & _ & _ & Hfirst & _).
    apply (Hfirst 131072); reflexivity.
Defined.


Lemma pred_binary_mask_pointwise_witness :
  f64_ge demo_probability threshold = true <->
  5404319552844595 * 2 ^ 1020 <= 4503599627370496 * 2 ^ 1021.
Proof.
  destruct pred_binary_mask_pointwise as (_ & _ & _ & _ & _ & Hge).
  exact (Hge demo_probability (4503599627370496 * 2 ^ 1021) eq_refl eq_refl).
Defined.

(** ** More of the properties at work *)

Lemma load_grid_size_first_match_witness :
  load_grid_size (H := demo_python) (demo_grid_rows ++ [["6120_2_2"; "12"; "-3"]; ["?"]])
  = Ok (Some (f64_of_Z 12, f64_of_Z (-3))) /\
  load_grid_size (H := demo_python) (demo_grid_rows ++ [["?"]; ["6120_2_2"; "12"; "-3"]])
  = Raise ValueError /\
  load_grid_size (H := demo_python) demo_grid_rows = Ok None.
Proof.
  assert (Hb : Forall (fun row => passed_over row = true) demo_grid_rows)
    by (repeat constructor).
  destruct (@load_grid_size_first_match demo_python demo_grid_rows [["?"]] "12" "-3" Hb)
    as (Hfirst & _ & Hnone).
  destruct (@load_grid_size_first_match demo_python demo_grid_rows
              [["6120_2_2"; "12"; "-3"]] "12" "-3" Hb) as (_ & Hbad & _).
  split; [exact Hfirst|]. split; [|exact Hnone].
  apply (Hbad ["?"]). discriminate.
Defined.

Lemma load_train_polygons_first_match_witness :
  load_train_polygons (H3 := demo_shapely)
    (demo_polygon_rows ++ [["6120_2_2"; "1"; "MULTIPOLYGON (...)"]; ["?"]])
  = Ok (Some demo_truth) /\
  load_train_polygons (H3 := demo_shapely) demo_polygon_rows = Ok None.
Proof.
  assert (Hb : Forall (fun row => not_selected row = true) demo_polygon_rows)
    by (repeat constructor).
  destruct (@load_train_polygons_first_match demo_shapely demo_polygon_rows [["?"]]
              "MULTIPOLYGON (...)" Hb) as (Hfirst & _ & Hnone).
  split; [exact Hfirst | exact Hnone].
Defined.

Lemma missing_rows_surface_after_loading_witness :
  exists w1 l,
    stage_load (H := demo_python) (H0 := demo_tifffile) (H3 := demo_shapely)
      demo_world_no_grid_row = (w1, Ok l) /\
    reads (trace w1) = input_paths /\
    script (H := demo_python) (H0 := demo_tifffile) (H1 := demo_numpy)
      (H2 := demo_cv2) (H3 := demo_shapely) (H4 := demo_sklearn) demo_world_no_grid_row
    = (w1, Raise TypeError).
Proof.
  destruct (stage_load (H := demo_python) (H0 := demo_tifffile) (H3 := demo_shapely)
              demo_world_no_grid_row) as [w1 [l|e]] eqn:El;
    [|vm_compute in El; discriminate El].
  exists w1, l. split; [reflexivity|].
  destruct (@missing_rows_surface_after_loading demo_python demo_tifffile demo_numpy
              demo_cv2 demo_shapely demo_sklearn demo_world_no_grid_row w1 l El)
    as (Htrace & Hnone & _).
  split; [rewrite Htrace; reflexivity|].
  apply Hnone. vm_compute in El. injection El as _ <-. reflexivity.
Defined.

Lemma features_and_labels_are_aligned_witness :
  exists im_rgb xs,
    np_transpose_120 demo_bands = Ok im_rgb /\
    np_reshape_rows3 im_rgb = Ok xs /\
    shape xs = [2%nat; 3%nat] /\
    data xs = [1; 3; 5; 2; 4; 6] /\
    data xs !! 5%nat = data demo_bands !! 5%nat.
Proof.
  destruct (features_and_labels_are_aligned demo_bands demo_row_mask 1 2
              eq_refl eq_refl eq_refl)
    as (im_rgb & xs & Htr & _ & Hxs & Hshape & _ & Hlk & _).
  exists im_rgb, xs. split; [exact Htr|]. split; [exact Hxs|]. split; [exact Hshape|].
  split.
  - vm_compute in Htr. injection Htr as <-. vm_compute in Hxs. injection Hxs as <-.
    reflexivity.
  - apply (Hlk 0%nat 1%nat 2%nat); lia.
Defined.

Lemma scale_percentile_of_a_constant_channel_witness :
  exists r,
    scale_percentile (H := demo_numpy) f64_of_Z demo_flat_matrix = Ok r /\
    data r !! 0%nat = Some S754_nan.
Proof.
  destruct (@scale_percentile_of_a_constant_channel demo_numpy Z f64_of_Z
              demo_flat_matrix 1 2 1 demo_flat_percentile demo_flat_percentile
              0%nat 7 (f64_of_Z 7)
              eq_refl eq_refl eq_refl eq_refl eq_refl eq_refl eq_refl eq_refl
              eq_refl eq_refl eq_refl eq_refl eq_refl)
    as (r & Hr & _ & Hnan & _).
  exists r. split; [exact Hr | exact Hnan].
Defined.

Lemma scale_percentile_at_the_first_percentile_witness :
  exists r v,
    scale_percentile (H := demo_numpy) f64_of_Z demo_matrix = Ok r /\
    data r !! 0%nat = Some v /\ f64_is_zero v = true.
Proof.
  exact (@scale_percentile_at_the_first_percentile demo_numpy Z f64_of_Z
           demo_matrix 1 2 3 demo_mins demo_p99 0%nat 10 (f64_of_Z 10) (f64_of_Z 40)
           eq_refl eq_refl eq_refl eq_refl eq_refl eq_refl eq_refl eq_refl
           eq_refl eq_refl eq_refl eq_refl eq_refl eq_refl eq_refl).
Defined.

Lemma confusion_counts_add_up_witness :
  uint64_add (tp_of demo_pred_binary_mask demo_train_mask)
             (fp_of demo_pred_binary_mask demo_train_mask) = 2 /\
  predicted_size demo_pred_binary_mask demo_train_mask = 2 /\
  truth_size demo_pred_binary_mask demo_train_mask = 2.
Proof.
  assert (Hbin : binary_mask demo_train_mask) by (repeat constructor; auto).
  assert (Hsize : Z.of_nat (length (data demo_train_mask)) < 2 ^ 64) by reflexivity.
  destruct (confusion_counts_add_up demo_pred_binary_mask demo_train_mask
              eq_refl Hsize Hbin) as (Hpred & _).
  split; [rewrite Hpred; reflexivity|]. split; reflexivity.
Defined.

Lemma pixel_jaccard_degenerate_cases_witness :
  pixel_jaccard demo_no_prediction demo_no_truth = S754_nan /\
  pixel_jaccard demo_no_prediction demo_train_mask = S754_zero false.
Proof.
  assert (Hbin0 : binary_mask demo_no_truth) by (repeat constructor; auto).
  assert (Hbin : binary_mask demo_train_mask) by (repeat constructor; auto).
  assert (Hsize0 : Z.of_nat (length (data demo_no_truth)) < 2 ^ 64) by reflexivity.
  assert (Hsize : Z.of_nat (length (data demo_train_mask)) < 2 ^ 64) by reflexivity.
  destruct (pixel_jaccard_degenerate_cases demo_no_prediction demo_no_truth
              eq_refl Hsize0 Hbin0) as ([_ Hnan] & _).
  destruct (pixel_jaccard_degenerate_cases demo_no_prediction demo_train_mask
              eq_refl Hsize Hbin) as (_ & _ & Hzero).
  split; [apply Hnan; reflexivity|].
  apply Hzero; [reflexivity | discriminate].
Defined.

Lemma printed_pixel_jaccard_is_intersection_over_union_witness :
  exists w1 r w3 pred_mask,
    stage_rasterize (H0 := demo_tifffile) (H1 := demo_numpy) (H2 := demo_cv2)
      (H3 := demo_shapely) demo_loaded demo_world = (w1, Ok r) /\
    stage_predict (H0 := demo_tifffile) (H4 := demo_sklearn) r demo_trained w1
    = (w3, Ok pred_mask) /\
    pixel_jaccard (pred_binary_mask_of pred_mask) (r_train_mask r)
    = intersection_over_union (pred_binary_mask_of pred_mask) (r_train_mask r).
Proof.
  destruct (stage_rasterize (H0 := demo_tifffile) (H1 := demo_numpy) (H2 := demo_cv2)
              (H3 := demo_shapely) demo_loaded demo_world) as [w1 [r|e]] eqn:Er;
    [|vm_compute in Er; discriminate Er].
  pose proof Er as Er'. vm_compute in Er'. injection Er' as Ew Err.
  destruct (stage_predict (H0 := demo_tifffile) (H4 := demo_sklearn) r demo_trained w1)
    as [w3 [pred_mask|e]] eqn:Ep;
    [|rewrite <- Ew, <- Err in Ep; vm_compute in Ep; discriminate Ep].
  exists w1, r, w3, pred_mask. split; [reflexivity|]. split; [exact Ep|].
  assert (Hsize : Z.of_nat (size_of (r_im_size r)) < 2 ^ 64)
    by (rewrite <- Err; reflexivity).
  destruct (@printed_pixel_jaccard_is_intersection_over_union
              demo_tifffile demo_numpy demo_cv2 demo_shapely demo_sklearn
              demo_loaded demo_trained r pred_mask demo_world w1 w1 w3
              demo_fillPoly_paints Er Ep Hsize) as (_ & _ & _ & Hj & _).
  exact Hj.
Defined.

Lemma contour_under_no_shell_is_dropped_witness :
  all_polygons_of (H := demo_cv2) (H0 := demo_shapely) (f64_of_Z 10)
    (demo_contours ++ [demo_island]) [demo_rows ++ [[-1; -1; -1; 1]]]
  = all_polygons_of (H := demo_cv2) (H0 := demo_shapely) (f64_of_Z 10)
      demo_contours [demo_rows].
Proof.
  apply (@contour_under_no_shell_is_dropped demo_cv2 demo_shapely (f64_of_Z 10)
           demo_contours demo_rows demo_island (-1) (-1) (-1) 1).
  - reflexivity.
  - discriminate.
  - intros idx Hidx (cnt & _ & Hp & _).
    assert (idx = 1%nat) by lia. subst idx. discriminate Hp.
Defined.

Lemma malformed_hierarchy_is_rejected_witness :
  mask_to_polygons (H := demo_cv2_two_planes) (H0 := demo_shapely)
    demo_mask (f64_of_Z 10) (f64_of_Z 10) = Raise AssertionError.
Proof.
  assert (Hne : demo_contours <> []) by discriminate.
  destruct (@malformed_hierarchy_is_rejected demo_cv2_two_planes demo_shapely
              demo_mask (f64_of_Z 10) (f64_of_Z 10) Hne) as (Hplanes & _).
  apply Hplanes. discriminate.
Defined.

Lemma predicted_polygons_can_be_rasterized_witness :
  exists pred_polygons pred_poly_mask,
    mask_to_polygons (H := demo_cv2) (H0 := demo_shapely)
      demo_mask (f64_of_Z 10) (f64_of_Z 10) = Ok pred_polygons /\
    mask_for_polygons (H := demo_cv2) (H0 := demo_numpy) [4%nat; 4%nat] pred_polygons
    = Ok pred_poly_mask /\
    binary_mask pred_poly_mask.
Proof.
  destruct (mask_to_polygons (H := demo_cv2) (H0 := demo_shapely)
              demo_mask (f64_of_Z 10) (f64_of_Z 10)) as [pred_polygons|e] eqn:Em;
    [|vm_compute in Em; discriminate Em].
  destruct (@predicted_polygons_can_be_rasterized demo_cv2 demo_shapely demo_numpy
              demo_mask (f64_of_Z 10) (f64_of_Z 10) [4%nat; 4%nat] pred_polygons
              demo_buffer_polygonal Em) as ((pred_poly_mask & Hmask & Hbin) & _).
  exists pred_polygons, pred_poly_mask. split; [reflexivity|]. split; [exact Hmask|].
  apply (Hbin demo_fillPoly_paints).
Defined.

Lemma final_jaccard_of_nothing_raises_witness :
  snd (stage_score (H3 := demo_shapely_no_area) demo_rasterized (MultiPolygon []) demo_world)
  = Raise ZeroDivisionError /\
  map kind_of
    (trace (fst (stage_score (H3 := demo_shapely_no_area) demo_rasterized
                   (MultiPolygon []) demo_world))) = [KPrint].
Proof.
  rewrite (@final_jaccard_of_nothing_raises demo_shapely_no_area demo_rasterized
             (MultiPolygon []) demo_world (f64_of_Z 1) (f64_of_Z 1)
             demo_truth demo_truth demo_truth
             eq_refl eq_refl eq_refl eq_refl eq_refl eq_refl).
  split; reflexivity.
Defined.

Lemma window_is_cut_to_the_array_witness :
  exists crop,
    window demo_train_mask = Ok crop /\
    shape crop = [0%nat; 0%nat] /\
    item2 crop 0 0 = None.
Proof.
  destruct (window_is_cut_to_the_array demo_train_mask) as (Hshape & Hitem & _).
  destruct (Hitem 2%nat 2%nat eq_refl eq_refl) as (crop & Hcrop & Hij).
  destruct (Hshape 2%nat 2%nat [] eq_refl) as (crop' & Hcrop' & Hs & _).
  rewrite Hcrop in Hcrop'. injection Hcrop' as <-.
  exists crop. split; [exact Hcrop|]. split; [exact Hs|].
  rewrite Hij. reflexivity.
Defined.

Lemma show_mask_shows_three_planes_witness :
  show_mask (H0 := demo_tifffile) times_255_uint8 demo_train_mask demo_world
  = (mk_world demo_files ["script.py"] ∅
       [Imshow (IntImage (mk_ndarray [3%nat; 2%nat; 2%nat]
                            [255; 0; 255; 0; 255; 0; 255; 0; 255; 0; 255; 0]));
        PltShow],
     Ok tt).
Proof.
  destruct (@show_mask_shows_three_planes demo_tifffile) as (_ & Hshow).
  rewrite Hshow. reflexivity.
Defined.

Lemma pixel_jaccard_reads_the_lowest_bit_witness :
  pixel_jaccard demo_pred_binary_mask demo_train_mask_255
  = pixel_jaccard demo_pred_binary_mask demo_train_mask /\
  pixel_jaccard demo_pred_binary_mask demo_train_mask_255
  = intersection_over_union demo_pred_binary_mask demo_train_mask.
Proof.
  destruct (pixel_jaccard_reads_the_lowest_bit demo_pred_binary_mask demo_train_mask_255)
    as (_ & _ & _ & Hj & _ & _ & Hiou).
  split; [exact Hj|]. apply Hiou; reflexivity.
Defined.

Lemma loading_fails_at_the_first_obstacle_witness :
  script (H := demo_python) (H0 := demo_tifffile) (H1 := demo_numpy)
    (H2 := demo_cv2) (H3 := demo_shapely) (H4 := demo_sklearn) demo_world_bad_wkt
  = (after demo_world_bad_wkt [Read grid_sizes_path; Read train_wkt_path],
     Raise (LibraryError "WKTReadingError")).
Proof.
  destruct (@loading_fails_at_the_first_obstacle demo_python demo_tifffile demo_numpy
              demo_cv2 demo_shapely demo_sklearn demo_world_bad_wkt 131072 eq_refl)
    as (_ & Hgrid).
  destruct (Hgrid demo_grid_sizes (Some (f64_of_Z 9, f64_of_Z (-9))) eq_refl eq_refl)
    as (_ & Hpolygons & _).
  exact (Hpolygons "6120_2_2,1,POLYGON?" (LibraryError "WKTReadingError") eq_refl eq_refl).
Defined.
